(** * Request lifecycle of the two data-fetching hooks

    A shallow embedding of

    - [src/hooks/useGridData.ts]      (Unit A, single fetch per key),
    - [src/hooks/usePollingFetch.ts]  (Unit B, polling fetch),
    - the two [window.fetch] interceptors, of [src/utils/mockProductApi.ts]
      and of [src/components/PollingDemo.tsx],

    as executable state machines over an explicit store of
    [AbortController] objects, the calls of [fetchData] that are in flight,
    and the browser's interval timers.

    An [async] function is cut at its [await] points; each piece runs
    atomically (JavaScript is single threaded) in a small state and
    exception monad, so that [try]/[catch] reads as in the source.  What
    the hooks get from React is modelled as React documents it: a render
    returns the current cells; after it, an effect whose dependency array
    changed runs the cleanup of the previous effect and then its body;
    [useCallback] with an empty array keeps the function of the first
    render; state updates of a component that has left the tree are
    dropped.  Renders, calls of [refetchData], settlements of promises,
    the passing of time, runs of interval timers and the unmount are events
    that the environment sends in any order. *)

From Stdlib Require Import QArith Qcanon.
From stdpp Require Import base strings list pretty.

Set Default Proof Using "Type".
Local Open Scope Z_scope.

(** ** JavaScript values the hooks handle *)

Module Js.

(** An [Error] instance, reduced to the two fields the hooks read. *)
Record Error := { name : string; message : string }.

(** Anything a [throw] or a rejected promise can carry: an [Error]
    instance or some other value. *)
Inductive Thrown :=
| ThrownError (e : Error)
| ThrownValue (v : string).

(** What a cancelled request is rejected with. *)
Definition AbortError : Thrown :=
  ThrownError {| name := "AbortError"; message := "The operation was aborted." |}.

(** What [response.json()] is rejected with on a body that is not JSON.
    The text of the message is the engine's own. *)
Definition SyntaxError (message : string) : Thrown :=
  ThrownError {| name := "SyntaxError"; message := message |}.

(** A [TypeError] raised by the engine, with the engine's message. *)
Definition TypeError (message : string) : Thrown :=
  ThrownError {| name := "TypeError"; message := message |}.

(** The messages of the two kinds of [TypeError] that the interceptors can
    cause; they differ from engine to engine. *)
Record Engine := {
  (** the call [mockApiEndpoints[key]()] throws *)
  call_message : string -> string;
  (** [response.ok] is read of [undefined] *)
  read_message : string;
}.

(** [err instanceof Error && err.name === 'AbortError'] *)
Definition isAbortError (err : Thrown) : bool :=
  match err with
  | ThrownError e => String.eqb (name e) "AbortError"
  | ThrownValue _ => false
  end.

(** Outcome of a promise. *)
Inductive Settled (A : Type) :=
| Fulfilled (a : A)
| Rejected (err : Thrown).
Arguments Fulfilled {A} a.
Arguments Rejected {A} err.

(** A [number].  Every finite double is a rational; [Finite 0] is [+0]. *)
Inductive Number :=
| Finite (q : Qc)
| NegativeZero
| NaN
| Infinity (negative : bool).

#[export] Instance Number_eq_dec : EqDecision Number.
Proof. solve_decision. Defined.

(** A whole number. *)
Definition whole (n : Z) : Number := Finite (Qc_of_Z n).

(** The integer part of a rational (rounding towards zero). *)
Definition truncate (q : Qc) : Z := Z.quot (Qnum q) (Z.pos (Qden q)).

(** The store of [AbortController] objects: the controller with identity
    [c] is the [c]-th entry, which holds [signal.aborted]. *)
Abbreviation Controllers := (list bool).

(** [new AbortController()] *)
Definition newAbortController (cs : Controllers) : nat * Controllers :=
  (length cs, cs ++ [false]).

(** [controller.abort()] *)
Definition abort (c : nat) (cs : Controllers) : Controllers :=
  <[c := true]> cs.
Arguments abort : simpl never.

(** [signal.aborted], for the optional [signal] of a request. *)
Definition aborted (cs : Controllers) (signal : option nat) : bool :=
  match signal with
  | Some c => default false (cs !! c)
  | None => false
  end.

Section Transport.
(** [T]: the shape that the TypeScript annotation of the hook declares for
    a body that is not [null]. *)
Context {T : Type}.

(** A response body, as [response.json()] reads it: JSON text, which
    parses to [null] ([Json None]) or to a value of shape [T]; or text that
    is not JSON, for which the engine's parser gives [message]. *)
Inductive Body :=
| Json (v : option T)
| NotJson (message : string).

(** What the far end of a request produces (the network, or the handler of
    a mock endpoint): a status and a body. *)
Record Reply := { reply_status : Z; reply_body : Body }.

(** A [Response] object.  [signal] is the abort signal its body stream is
    tied to; a response built with [new Response(...)] has none. *)
Record Response := {
  status : Z;
  body : Body;
  signal : option nat;
}.

(** [response.ok] *)
Definition ok (r : Response) : bool :=
  (200 <=? status r) && (status r <=? 299).

(** [response.json()], settled in store [cs]. *)
Definition json (cs : Controllers) (r : Response) : Settled (option T) :=
  if aborted cs (signal r) then Rejected AbortError
  else match body r with
       | Json v => Fulfilled v
       | NotJson message => Rejected (SyntaxError message)
       end.

(** What [await fetch(...)] can leave in the variable [response]: a
    [Response]; or a value that is no [Response] and is neither [null] nor
    [undefined], so that its [ok] and [status] are [undefined]; or
    [undefined], of which no property can be read ([message] is what the
    engine's [TypeError] says then). *)
Inductive Fetched :=
| FetchedResponse (r : Response)
| FetchedOther
| FetchedUndefined (message : string).

(** An implementation of [fetch(url, { signal })].  [throws]: what the call
    itself throws, when it throws instead of returning.  [settled]: how
    the value it returned settles under [await], in store [cs], once the
    far end has produced [net]. *)
Record FetchImpl := {
  throws : Controllers -> string -> option nat -> option Thrown;
  settled :> Controllers -> string -> option nat -> Settled Reply -> Settled Fetched;
}.

(** The browser's [fetch]: the call never throws; a request whose signal is
    aborted rejects with an [AbortError]; otherwise the reply comes back,
    its body tied to the signal. *)
Definition browserFetch : FetchImpl :=
  {| throws := fun cs url init_signal => None;
     settled := fun cs url init_signal net =>
       if aborted cs init_signal then Rejected AbortError
       else match net with
            | Fulfilled rp =>
                Fulfilled (FetchedResponse
                             {| status := reply_status rp; body := reply_body rp;
                                signal := init_signal |})
            | Rejected err => Rejected err
            end |}.

(** What calling a property of [Object.prototype] on an object, with no
    argument, does. *)
Inductive Inherited :=
| ReturnsValue
| ReturnsUndefined
| ThrowsTypeError.

(** The properties every object literal inherits from [Object.prototype]:
    [toString()] and [toLocaleString()] return a string, [valueOf()] the
    object, [constructor()] a new object, [hasOwnProperty()],
    [isPrototypeOf()] and [propertyIsEnumerable()] return [false];
    [__lookupGetter__()] and [__lookupSetter__()] return [undefined];
    [__defineGetter__()] and [__defineSetter__()] throw for want of a
    function, and [__proto__] is an object, which cannot be called. *)
Definition objectPrototype (key : string) : option Inherited :=
  if bool_decide (key ∈ ["constructor"; "hasOwnProperty"; "isPrototypeOf";
                         "propertyIsEnumerable"; "toLocaleString"; "toString";
                         "valueOf"]) then Some ReturnsValue
  else if bool_decide (key ∈ ["__lookupGetter__"; "__lookupSetter__"]) then
    Some ReturnsUndefined
  else if bool_decide (key ∈ ["__defineGetter__"; "__defineSetter__"; "__proto__"]) then
    Some ThrowsTypeError
  else None.

(** The interceptor both mocks install:
<<
      window.fetch = (input, init) => {
        const url = ...;
        if (url in mockApiEndpoints) { return mockApiEndpoints[url](); }
        return originalFetch(input, init);
      };
>>
    [url in mockApiEndpoints] holds for the keys of the table and for the
    properties the table inherits.  The handler of an endpoint is called
    without [init]; it waits, then answers with a [new Response(...)].  An
    inherited property is called in its place: the hook gets what that
    returns, or the call throws. *)
Definition interceptFetch (engine : Engine) (mockApiEndpoints : list string)
    (originalFetch : FetchImpl) : FetchImpl :=
  {| throws := fun cs url init_signal =>
       if bool_decide (url ∈ mockApiEndpoints) then None
       else match objectPrototype url with
            | Some ThrowsTypeError => Some (TypeError (call_message engine url))
            | Some ReturnsValue | Some ReturnsUndefined => None
            | None => throws originalFetch cs url init_signal
            end;
     settled := fun cs url init_signal net =>
       if bool_decide (url ∈ mockApiEndpoints) then
         match net with
         | Fulfilled rp =>
             Fulfilled (FetchedResponse
                          {| status := reply_status rp; body := reply_body rp;
                             signal := None |})
         | Rejected err => Rejected err
         end
       else match objectPrototype url with
            | Some ReturnsValue => Fulfilled FetchedOther
            | Some ReturnsUndefined => Fulfilled (FetchedUndefined (read_message engine))
            | Some ThrowsTypeError =>
                (* not reached: the call has thrown *)
                Rejected (TypeError (call_message engine url))
            | None => originalFetch cs url init_signal net
            end |}.

End Transport.

Arguments Body : clear implicits.
Arguments Reply : clear implicits.
Arguments Response : clear implicits.
Arguments Fetched : clear implicits.
Arguments FetchImpl : clear implicits.
Arguments FetchedOther {T}.
Arguments FetchedUndefined {T} message.

(** Keys of [mockApiEndpoints] in [mockProductApi.ts]. *)
Definition productEndpoints : list string :=
  ["/api/products/widgets"; "/api/products/gadgets"; "/api/products/featured"].

(** Keys of [mockApiEndpoints] in [PollingDemo.tsx]. *)
Definition pollingEndpoints : list string :=
  ["/api/posts"; "/api/users"; "/api/error"].

(** [initializeMockProductApi()]: wraps whatever [window.fetch] is. *)
Definition initializeMockProductApi {T} (engine : Engine) (windowFetch : FetchImpl T)
    : FetchImpl T :=
  interceptFetch engine productEndpoints windowFetch.

(** [window.fetch] of the running application: [PollingDemo.tsx] wraps the
    browser's [fetch] when the module is loaded, then [App] calls
    [initializeMockProductApi()]. *)
Definition appFetch {T} (engine : Engine) : FetchImpl T :=
  initializeMockProductApi engine (interceptFetch engine pollingEndpoints browserFetch).

End Js.

Import Js.

(** ** One fetch attempt

    Both hooks define the same [fetchData]; the copies differ only in how
    the [error] cell is cleared and filled.  [E] is the type of that cell,
    [noError] what [setError] receives when an attempt starts and
    [toError err] what it receives in the [catch] block. *)

Module Attempt.

(** [new Error(`HTTP error! status: ${response.status}`)] *)
Definition httpError (st : Z) : Thrown :=
  ThrownError {| name := "Error"; message := "HTTP error! status: " +:+ pretty st |}.

(** The same, for a value whose [status] is [undefined]. *)
Definition httpErrorUndefined : Thrown :=
  ThrownError {| name := "Error"; message := "HTTP error! status: undefined" |}.

Section FetchData.
Context {E T : Type}.
Context (noError : E) (toError : Thrown -> E).

(** The three [useState] cells an attempt writes. *)
Record HookState := {
  data : option T;
  isLoading : bool;
  error : E;
}.

(** What a piece of [fetchData] can touch: the cells, and the lines written
    by [console.error]. *)
Record World := {
  hook : HookState;
  console : list Thrown;
}.

(** State and exceptions: a computation ends with a value or with a thrown
    value, in a new world. *)
Definition Eff (A : Type) : Type := World -> (A + Thrown) * World.

Definition ret {A} (a : A) : Eff A := fun w => (inl a, w).

Definition throw {A} (err : Thrown) : Eff A := fun w => (inr err, w).

Definition bind {A B} (m : Eff A) (k : A -> Eff B) : Eff B := fun w =>
  match m w with
  | (inl a, w') => k a w'
  | (inr err, w') => (inr err, w')
  end.

(** [try { body } catch (err) { handler }] *)
Definition try_catch {A} (body : Eff A) (handler : Thrown -> Eff A) : Eff A := fun w =>
  match body w with
  | (inl a, w') => (inl a, w')
  | (inr err, w') => handler err w'
  end.

(** [await p], for a promise [p] that has settled. *)
Definition await {A} (p : Settled A) : Eff A :=
  match p with
  | Fulfilled a => ret a
  | Rejected err => throw err
  end.

#[local] Instance eff_ret : MRet Eff := @ret.
#[local] Instance eff_bind : MBind Eff := fun A B k m => bind m k.

(** [setData(result)]; [result] is [null] or a value. *)
Definition setData (v : option T) : Eff unit := fun w =>
  (inl tt, {| hook := {| data := v; isLoading := isLoading (hook w);
                         error := error (hook w) |};
              console := console w |}).

Definition setIsLoading (b : bool) : Eff unit := fun w =>
  (inl tt, {| hook := {| data := data (hook w); isLoading := b;
                         error := error (hook w) |};
              console := console w |}).

Definition setError (e : E) : Eff unit := fun w =>
  (inl tt, {| hook := {| data := data (hook w); isLoading := isLoading (hook w);
                         error := e |};
              console := console w |}).

(** [console.error('Fetch error:', err)] *)
Definition console_error (err : Thrown) : Eff unit := fun w =>
  (inl tt, {| hook := hook w; console := console w ++ [err] |}).

(** Where an attempt stands: suspended at [await fetch(...)], suspended at
    [await response.json()], or returned. *)
Inductive Phase :=
| AwaitingFetch
| AwaitingJson (response : Response T)
| Returned.

(** The [catch (err) { ... }] block. *)
Definition catch_block (err : Thrown) : Eff Phase :=
  if isAbortError err then ret Returned
  else
    console_error err;;
    setError (toError err);;
    setIsLoading false;;
    ret Returned.

(** [fetchData], up to [await fetch(url, { signal })].  [thrown]: what
    the call [fetch(url, { signal })] throws, if it throws. *)
Definition fetchData_begin (thrown : option Thrown) : Eff Phase :=
  try_catch
    (setIsLoading true;;
     setError noError;;
     match thrown with
     | Some err => throw err
     | None => ret AwaitingFetch
     end)
    catch_block.

(** [fetchData], from the settled [fetch] promise up to
    [await response.json()]. *)
Definition fetchData_response (p : Settled (Fetched T)) : Eff Phase :=
  try_catch
    (response ← await p;
     match response with
     | FetchedResponse r =>
         if negb (ok r) then throw (httpError (status r))
         else ret (AwaitingJson r)
     | FetchedOther => throw httpErrorUndefined
     | FetchedUndefined message => throw (TypeError message)
     end)
    catch_block.

(** [fetchData], from the settled [response.json()] promise to the end. *)
Definition fetchData_result (p : Settled (option T)) : Eff Phase :=
  try_catch
    (result ← await p;
     setData result;;
     setIsLoading false;;
     ret Returned)
    catch_block.

End FetchData.

Arguments HookState : clear implicits.
Arguments World : clear implicits.
Arguments Eff : clear implicits.
Arguments Phase : clear implicits.

End Attempt.

Import Attempt.

(** ** The part of a hook instance both hooks share

    The cells, the [AbortController] store, every call of [fetchData] made
    so far with the [url] and [abortController] its closure captured, and
    the rejections nobody handled. *)

Module Runtime.

(** React applies a state update only while the component is in the tree. *)
Inductive Lifecycle := Fresh | Mounted | Unmounted.

#[export] Instance Lifecycle_eq_dec : EqDecision Lifecycle.
Proof. solve_decision. Defined.

Section Shared.
Context {E T : Type}.
Context (noError : E) (toError : Thrown -> E).

(** One call of [fetchData]. *)
Record Pending := {
  att_url : string;
  att_controller : nat;
  att_phase : Phase T;
}.

Record Runtime := {
  world : World E T;
  lifecycle : Lifecycle;
  controllers : Controllers;
  attempts : list Pending;
  unhandled : list Thrown;
}.

(** The world after a piece of an attempt has run: the cells change only
    for a mounted component, the console always. *)
Definition commit (lc : Lifecycle) (w w' : World E T) : World E T :=
  if decide (lc = Mounted) then w'
  else {| hook := hook w; console := console w' |}.

(** Runs a piece of [fetchData].  A thrown value that leaves the piece
    rejects the promise of the [async] function, which no caller handles:
    it is recorded in [unhandled]. *)
Definition run_piece (m : Eff E T (Phase T)) (rt : Runtime) : Phase T * Runtime :=
  match m (world rt) with
  | (inl ph, w') =>
      (ph, {| world := commit (lifecycle rt) (world rt) w';
              lifecycle := lifecycle rt;
              controllers := controllers rt;
              attempts := attempts rt;
              unhandled := unhandled rt |})
  | (inr err, w') =>
      (Returned, {| world := commit (lifecycle rt) (world rt) w';
                    lifecycle := lifecycle rt;
                    controllers := controllers rt;
                    attempts := attempts rt;
                    unhandled := unhandled rt ++ [err] |})
  end.

Definition set_attempts (l : list Pending) (rt : Runtime) : Runtime :=
  {| world := world rt; lifecycle := lifecycle rt; controllers := controllers rt;
     attempts := l; unhandled := unhandled rt |}.

Definition set_controllers (cs : Controllers) (rt : Runtime) : Runtime :=
  {| world := world rt; lifecycle := lifecycle rt; controllers := cs;
     attempts := attempts rt; unhandled := unhandled rt |}.

Definition set_lifecycle (lc : Lifecycle) (rt : Runtime) : Runtime :=
  {| world := world rt; lifecycle := lc; controllers := controllers rt;
     attempts := attempts rt; unhandled := unhandled rt |}.

(** A call [fetchData()] from a closure that captured [url] and the
    controller [c]: the attempt runs to its first [await], or to its end
    when the call of [fetch] throws, and becomes the newest entry of
    [attempts]. *)
Definition call_fetchData (windowFetch : FetchImpl T) (url : string) (c : nat)
    (rt : Runtime) : Runtime :=
  let thrown := throws windowFetch (controllers rt) url (Some c) in
  let '(ph, rt') := run_piece (fetchData_begin noError toError thrown) rt in
  set_attempts
    (attempts rt' ++ [{| att_url := url; att_controller := c; att_phase := ph |}]) rt'.

(** The promise of [fetch] of attempt [i] settles, the far end having
    produced [net]. *)
Definition fetch_settles (windowFetch : FetchImpl T) (i : nat) (net : Settled (Reply T))
    (rt : Runtime) : Runtime :=
  match attempts rt !! i with
  | Some {| att_url := url; att_controller := c; att_phase := AwaitingFetch |} =>
      let p := windowFetch (controllers rt) url (Some c) net in
      let '(ph, rt') := run_piece (fetchData_response toError p) rt in
      set_attempts
        (<[i := {| att_url := url; att_controller := c; att_phase := ph |}]> (attempts rt'))
        rt'
  | _ => rt
  end.

(** The promise of [response.json()] of attempt [i] settles. *)
Definition json_settles (i : nat) (rt : Runtime) : Runtime :=
  match attempts rt !! i with
  | Some {| att_url := url; att_controller := c; att_phase := AwaitingJson response |} =>
      let p := json (controllers rt) response in
      let '(ph, rt') := run_piece (fetchData_result toError p) rt in
      set_attempts
        (<[i := {| att_url := url; att_controller := c; att_phase := ph |}]> (attempts rt'))
        rt'
  | _ => rt
  end.

(** The state of a component that has not rendered yet: [useState(null)],
    [useState(true)], and [useState] of the empty error. *)
Definition fresh : Runtime :=
  {| world := {| hook := {| data := None; isLoading := true; error := noError |};
                 console := [] |};
     lifecycle := Fresh;
     controllers := [];
     attempts := [];
     unhandled := [] |}.

(** Every response an attempt is reading was handed out tied to the
    signal of that attempt. *)
Definition responses_tied (rt : Runtime) : Prop :=
  ∀ i a r, attempts rt !! i = Some a -> att_phase a = AwaitingJson r ->
           signal r = Some (att_controller a).

End Shared.

Arguments Pending : clear implicits.
Arguments Runtime : clear implicits.
Arguments call_fetchData : simpl never.
Arguments fetch_settles : simpl never.
Arguments json_settles : simpl never.

End Runtime.

Import Runtime.

(** ** Unit A: [useGridData] *)

Module UseGridData.

(** [types/product.ts]; [price] is kept in hundredths. *)
Record Product := {
  id : Z;
  name : string;
  price : Z;
  description : string;
}.

(** [setError(null)] *)
Definition noError : option string := None.

(** [setError(err instanceof Error ? err.message : 'Failed to fetch data')] *)
Definition errorMessage (err : Thrown) : option string :=
  Some match err with
       | ThrownError e => Js.message e
       | ThrownValue _ => "Failed to fetch data"
       end.

(** The object a render returns.  A function is represented by the
    identity of the function object. *)
Record UseGridDataResult := {
  res_data : option (list Product);
  res_isLoading : bool;
  res_error : option string;
  res_refetchData : nat;
}.

(** The effect that ran last: the dependency array [[apiUrl, refetchTrigger]]
    it ran with and the [abortController] its cleanup closure captured. *)
Record Effect := {
  dep_apiUrl : string;
  dep_refetchTrigger : nat;
  abortController : nat;
}.

Record Instance := {
  rt : Runtime (option string) (list Product);
  (** [useState<number>(0)] *)
  refetchTrigger : nat;
  effect : option Effect;
  (** the function [useCallback(..., [])] retains *)
  memo : option nat;
  (** how many function objects the renders have created *)
  closures : nat;
  (** what each render returned, oldest first *)
  renders : list UseGridDataResult;
}.

Definition initial : Instance :=
  {| rt := fresh noError; refetchTrigger := 0; effect := None; memo := None;
     closures := 0; renders := [] |}.

Definition set_rt (r : Runtime (option string) (list Product)) (s : Instance) : Instance :=
  {| rt := r; refetchTrigger := refetchTrigger s; effect := effect s; memo := memo s;
     closures := closures s; renders := renders s |}.

(** The cleanup closure of an effect: [abortController.abort()]. *)
Definition cleanup (e : option Effect) (r : Runtime (option string) (list Product))
    : Runtime (option string) (list Product) :=
  match e with
  | Some e => set_controllers (abort (abortController e) (controllers r)) r
  | None => r
  end.

(** The body of the effect: a new controller, and [fetchData()]. *)
Definition run_effect (windowFetch : FetchImpl (list Product)) (apiUrl : string)
    (trigger : nat) (r : Runtime (option string) (list Product))
    : Runtime (option string) (list Product) * Effect :=
  let '(c, cs) := newAbortController (controllers r) in
  (call_fetchData noError errorMessage windowFetch apiUrl c (set_controllers cs r),
   {| dep_apiUrl := apiUrl; dep_refetchTrigger := trigger; abortController := c |}).

(** Whether the dependency array differs from the one of the last effect. *)
Definition deps_changed (apiUrl : string) (trigger : nat) (e : option Effect) : bool :=
  match e with
  | Some e => negb (bool_decide (dep_apiUrl e = apiUrl ∧ dep_refetchTrigger e = trigger))
  | None => true
  end.

(** One render of a component that calls [useGridData(apiUrl)], and the
    commit that follows it. *)
Definition useGridData (windowFetch : FetchImpl (list Product)) (apiUrl : string)
    (s : Instance) : Instance :=
  (* const refetchData = useCallback(() => { ... }, []) *)
  let fresh_function := closures s in
  let refetchData := default fresh_function (memo s) in
  (* return { data, isLoading, error, refetchData } *)
  let result :=
    {| res_data := data (hook (world (rt s)));
       res_isLoading := isLoading (hook (world (rt s)));
       res_error := error (hook (world (rt s)));
       res_refetchData := refetchData |} in
  (* useEffect(() => { ... }, [apiUrl, refetchTrigger]) *)
  let r := set_lifecycle Mounted (rt s) in
  let '(r', e') :=
    if deps_changed apiUrl (refetchTrigger s) (effect s) then
      let '(r', e') :=
        run_effect windowFetch apiUrl (refetchTrigger s) (cleanup (effect s) r) in
      (r', Some e')
    else (r, effect s) in
  {| rt := r'; refetchTrigger := refetchTrigger s; effect := e';
     memo := Some refetchData; closures := S (closures s);
     renders := renders s ++ [result] |}.

(** [refetchData()]: [setRefetchTrigger((prev) => prev + 1)]. *)
Definition refetchData (s : Instance) : Instance :=
  {| rt := rt s; refetchTrigger := S (refetchTrigger s); effect := effect s;
     memo := memo s; closures := closures s; renders := renders s |}.

(** The component leaves the tree: the cleanup of the last effect runs. *)
Definition unmount (s : Instance) : Instance :=
  {| rt := set_lifecycle Unmounted (cleanup (effect s) (rt s));
     refetchTrigger := refetchTrigger s; effect := None; memo := memo s;
     closures := closures s; renders := renders s |}.

(** What can happen to an instance. *)
Inductive Event :=
| Render (apiUrl : string)
| Refetch
| FetchSettles (i : nat) (net : Settled (Reply (list Product)))
| JsonSettles (i : nat)
| Unmount.

Definition step (windowFetch : FetchImpl (list Product)) (s : Instance) (ev : Event)
    : Instance :=
  match ev with
  | Render apiUrl =>
      if decide (lifecycle (rt s) = Unmounted) then s
      else useGridData windowFetch apiUrl s
  | Refetch =>
      if decide (lifecycle (rt s) = Mounted) then refetchData s else s
  | FetchSettles i net =>
      set_rt (fetch_settles errorMessage windowFetch i net (rt s)) s
  | JsonSettles i =>
      set_rt (json_settles errorMessage i (rt s)) s
  | Unmount =>
      if decide (lifecycle (rt s) = Mounted) then unmount s else s
  end.

Definition run (windowFetch : FetchImpl (list Product)) (s : Instance) (evs : list Event)
    : Instance :=
  foldl (step windowFetch) s evs.

(** The cells a consumer can see. *)
Definition state (s : Instance) : HookState (option string) (list Product) :=
  hook (world (rt s)).

(** What [ProductGrid] hands to its render function (the component is
    the second file in [src/components/CustomProductCard.tsx]):
<<
      const { data, isLoading, error, refetchData } = useGridData(apiUrl);
      const renderState = { isLoading, data: data ?? [], error, refetchData };
>> *)
Record ProductGridRenderState := {
  grid_isLoading : bool;
  grid_data : list Product;
  grid_error : option string;
  grid_refetchData : nat;
}.

Definition ProductGrid (r : UseGridDataResult) : ProductGridRenderState :=
  {| grid_isLoading := res_isLoading r;
     grid_data := default [] (res_data r);
     grid_error := res_error r;
     grid_refetchData := res_refetchData r |}.

(** The shape of every instance that events can produce: each effect made
    one controller and one attempt, in step; every attempt but the newest
    has had its controller aborted; the newest is the one the pending
    cleanup will abort. *)
Definition well_formed (s : Instance) : Prop :=
  length (controllers (rt s)) = length (attempts (rt s)) ∧
  (∀ j a, attempts (rt s) !! j = Some a -> att_controller a = j) ∧
  (∀ j, (S j < length (attempts (rt s)))%nat -> controllers (rt s) !! j = Some true) ∧
  match effect s with
  | Some e =>
      lifecycle (rt s) = Mounted ∧
      S (abortController e) = length (attempts (rt s)) ∧
      controllers (rt s) !! abortController e = Some false
  | None =>
      lifecycle (rt s) ≠ Mounted ∧
      ∀ j, (j < length (attempts (rt s)))%nat -> controllers (rt s) !! j = Some true
  end.

(** The instance has been rendered with key [apiUrl], and the render has
    seen every call of [refetchData] made so far. *)
Definition rendered_with (apiUrl : string) (s : Instance) : Prop :=
  lifecycle (rt s) = Mounted ∧
  ∃ e, effect s = Some e ∧ dep_apiUrl e = apiUrl ∧ dep_refetchTrigger e = refetchTrigger s.

(** A settlement, as opposed to a render, a call or an unmount. *)
Definition is_settlement (ev : Event) : bool :=
  match ev with
  | FetchSettles _ _ | JsonSettles _ => true
  | Render _ | Refetch | Unmount => false
  end.

(** The function every render returned is the one the first render made,
    and it is the one [useCallback] retains. *)
Definition callback_stable (s : Instance) : Prop :=
  Forall (λ r, res_refetchData r = 0%nat) (renders s) ∧
  match memo s with
  | Some g => g = 0%nat
  | None => closures s = 0%nat
  end.

End UseGridData.

(** ** Unit B: [usePollingFetch] *)

Module UsePollingFetch.

(** [setError(false)] *)
Definition noError : bool := false.

(** [setError(true)] *)
Definition errorFlag (_ : Thrown) : bool := true.

(** [interval && interval > 0]: [undefined], [NaN] and the zeros are falsy;
    a rational has the sign of its numerator. *)
Definition polls (interval : option Number) : bool :=
  match interval with
  | Some (Finite q) => negb (Qnum q =? 0) && (0 <? Qnum q)
  | Some (Infinity negative) => negb negative
  | Some NegativeZero | Some NaN | None => false
  end.

(** Conversion to a signed 32-bit integer of an integer. *)
Definition wrap32 (z : Z) : Z :=
  let m := z mod 2 ^ 32 in
  if 2 ^ 31 <=? m then m - 2 ^ 32 else m.

(** The delay the browser gives a timer whose [timeout] argument is the
    given number: the argument is converted to a signed 32-bit integer
    ([NaN], the zeros and the infinities to 0; a finite number is truncated
    and wrapped), and a negative delay counts as 0. *)
Definition timer_delay (timeout : Number) : Z :=
  match timeout with
  | Finite q => Z.max 0 (wrap32 (truncate q))
  | NegativeZero | NaN | Infinity _ => 0
  end.

(** A repeating timer of the browser.  Its callback [() => { fetchData(); }]
    is represented by what the closure captured: the [url] and the
    [abortController] of the effect that called [setInterval].  Time is
    counted in whole milliseconds.  [due] is the earliest time of the
    next run: the first run is due one [delay] after [setInterval], each
    further run one [delay] after the run before it was due.  A run may
    come later than it is due (the browser runs one task at a time, clamps
    short delays of repeating timers and throttles pages in the
    background), and then the next run is due no earlier than that
    (Chromium keeps the schedule of the due times; the HTML Standard counts
    the delay from the late run). *)
Record Timer := {
  delay : Z;
  due : Z;
  timer_url : string;
  timer_controller : nat;
  cleared : bool;
}.

(** [setInterval(callback, timeout)] at time [now].  Handles are positive:
    the timer with handle [S i] is the [i]-th entry. *)
Definition setInterval (url : string) (c : nat) (timeout : Number) (now : Z)
    (ts : list Timer) : nat * list Timer :=
  (S (length ts),
   ts ++ [{| delay := timer_delay timeout; due := now + timer_delay timeout;
             timer_url := url; timer_controller := c; cleared := false |}]).

Definition mark_cleared (t : Timer) : Timer :=
  {| delay := delay t; due := due t; timer_url := timer_url t;
     timer_controller := timer_controller t; cleared := true |}.

(** [clearInterval(handle)] *)
Definition clearInterval (handle : nat) (ts : list Timer) : list Timer :=
  match handle with
  | O => ts
  | S i => alter mark_cleared i ts
  end.

(** The effect that ran last: the dependency array [[url, interval]] it ran
    with, and the [abortController] and [intervalId] its cleanup closure
    captured ([None] is [undefined]). *)
Record Effect := {
  dep_url : string;
  dep_interval : option Number;
  abortController : nat;
  intervalId : option nat;
}.

Section WithData.
Context {T : Type}.

(** The object a render returns. *)
Record UsePollingFetchResult := {
  res_data : option T;
  res_isLoading : bool;
  res_error : bool;
}.

Record Instance := {
  rt : Runtime bool T;
  effect : option Effect;
  timers : list Timer;
  now : Z;
  (** what each render returned, oldest first *)
  renders : list UsePollingFetchResult;
}.

Definition initial : Instance :=
  {| rt := fresh noError; effect := None; timers := []; now := 0; renders := [] |}.

Definition set_rt (r : Runtime bool T) (s : Instance) : Instance :=
  {| rt := r; effect := effect s; timers := timers s; now := now s;
     renders := renders s |}.

(** The cleanup closure of an effect:
<<
      abortController.abort();
      if (intervalId) { clearInterval(intervalId); }
>> *)
Definition cleanup (e : option Effect) (r : Runtime bool T) (ts : list Timer)
    : Runtime bool T * list Timer :=
  match e with
  | Some e =>
      (set_controllers (abort (abortController e) (controllers r)) r,
       match intervalId e with
       | Some (S i) => clearInterval (S i) ts
       | Some O | None => ts
       end)
  | None => (r, ts)
  end.

(** The body of the effect: a new controller, the initial [fetchData()],
    and the timer when the interval asks for one. *)
Definition run_effect (windowFetch : FetchImpl T) (url : string)
    (interval : option Number) (time : Z) (r : Runtime bool T) (ts : list Timer)
    : Runtime bool T * list Timer * Effect :=
  let '(c, cs) := newAbortController (controllers r) in
  let r' := call_fetchData noError errorFlag windowFetch url c (set_controllers cs r) in
  if polls interval then
    let '(handle, ts') := setInterval url c (default NaN interval) time ts in
    (r', ts', {| dep_url := url; dep_interval := interval; abortController := c;
                 intervalId := Some handle |})
  else
    (r', ts, {| dep_url := url; dep_interval := interval; abortController := c;
                intervalId := None |}).

(** Whether the dependency array differs from the one of the last effect
    ([Object.is] on each entry). *)
Definition deps_changed (url : string) (interval : option Number) (e : option Effect)
    : bool :=
  match e with
  | Some e => negb (bool_decide (dep_url e = url ∧ dep_interval e = interval))
  | None => true
  end.

(** One render of a component that calls [usePollingFetch(url, interval)],
    and the commit that follows it. *)
Definition usePollingFetch (windowFetch : FetchImpl T) (url : string)
    (interval : option Number) (s : Instance) : Instance :=
  (* return { data, isLoading, error } *)
  let result :=
    {| res_data := data (hook (world (rt s)));
       res_isLoading := isLoading (hook (world (rt s)));
       res_error := error (hook (world (rt s))) |} in
  (* useEffect(() => { ... }, [url, interval]) *)
  let r := set_lifecycle Mounted (rt s) in
  let '(r', ts', e') :=
    if deps_changed url interval (effect s) then
      let '(r1, ts1) := cleanup (effect s) r (timers s) in
      let '(r2, ts2, e2) := run_effect windowFetch url interval (now s) r1 ts1 in
      (r2, ts2, Some e2)
    else (r, timers s, effect s) in
  {| rt := r'; effect := e'; timers := ts'; now := now s;
     renders := renders s ++ [result] |}.

(** The component leaves the tree: the cleanup of the last effect runs. *)
Definition unmount (s : Instance) : Instance :=
  let '(r, ts) := cleanup (effect s) (rt s) (timers s) in
  {| rt := set_lifecycle Unmounted r; effect := None; timers := ts; now := now s;
     renders := renders s |}.

(** The browser runs the callback of the timer with the given handle, if
    the timer has not been cleared and is due; the next run is due one
    delay later. *)
Definition tick (windowFetch : FetchImpl T) (handle : nat) (s : Instance) : Instance :=
  match handle with
  | S i =>
      match timers s !! i with
      | Some t =>
          if negb (cleared t) && (due t <=? now s) then
            {| rt := call_fetchData noError errorFlag windowFetch
                       (timer_url t) (timer_controller t) (rt s);
               effect := effect s;
               timers := <[i := {| delay := delay t; due := due t + delay t;
                                   timer_url := timer_url t;
                                   timer_controller := timer_controller t;
                                   cleared := false |}]> (timers s);
               now := now s;
               renders := renders s |}
          else s
      | None => s
      end
  | O => s
  end.

(** [ms] milliseconds pass. *)
Definition elapse (ms : N) (s : Instance) : Instance :=
  {| rt := rt s; effect := effect s; timers := timers s; now := now s + Z.of_N ms;
     renders := renders s |}.

(** What can happen to an instance. *)
Inductive Event :=
| Render (url : string) (interval : option Number)
| FetchSettles (i : nat) (net : Settled (Reply T))
| JsonSettles (i : nat)
| Elapse (ms : N)
| Tick (handle : nat)
| Unmount.

Definition step (windowFetch : FetchImpl T) (s : Instance) (ev : Event) : Instance :=
  match ev with
  | Render url interval =>
      if decide (lifecycle (rt s) = Unmounted) then s
      else usePollingFetch windowFetch url interval s
  | FetchSettles i net =>
      set_rt (fetch_settles errorFlag windowFetch i net (rt s)) s
  | JsonSettles i =>
      set_rt (json_settles errorFlag i (rt s)) s
  | Elapse ms => elapse ms s
  | Tick handle => tick windowFetch handle s
  | Unmount =>
      if decide (lifecycle (rt s) = Mounted) then unmount s else s
  end.

Definition run (windowFetch : FetchImpl T) (s : Instance) (evs : list Event) : Instance :=
  foldl (step windowFetch) s evs.

(** The cells a consumer can see. *)
Definition state (s : Instance) : HookState bool T :=
  hook (world (rt s)).

(** A settlement, as opposed to a render, the clock, a timer or an
    unmount. *)
Definition is_settlement (ev : Event) : bool :=
  match ev with
  | FetchSettles _ _ | JsonSettles _ => true
  | Render _ _ | Elapse _ | Tick _ | Unmount => false
  end.

(** An event that neither changes the parameters [url] and [interval] nor
    tears the component down. *)
Definition keeps (url : string) (interval : option Number) (ev : Event) : Prop :=
  match ev with
  | Render url' interval' => url' = url ∧ interval' = interval
  | Unmount => False
  | FetchSettles _ _ | JsonSettles _ | Elapse _ | Tick _ => True
  end.

(** The milliseconds that pass during a list of events. *)
Fixpoint elapsed (evs : list Event) : Z :=
  match evs with
  | [] => 0
  | Elapse ms :: evs' => Z.of_N ms + elapsed evs'
  | _ :: evs' => elapsed evs'
  end.


(** The shape of every instance that events can produce.  Each effect made
    one controller, the newest; every older one has been aborted.  The
    attempts that carry the newest controller fetch the effect's [url].
    Every timer but the one of the current effect has been cleared, and
    that one is the newest, has the delay of the effect's interval, and is
    due within one delay. *)
Definition well_formed (s : Instance) : Prop :=
  (∀ j a, attempts (rt s) !! j = Some a ->
          (att_controller a < length (controllers (rt s)))%nat) ∧
  (∀ c, (S c < length (controllers (rt s)))%nat -> controllers (rt s) !! c = Some true) ∧
  match effect s with
  | Some e =>
      lifecycle (rt s) = Mounted ∧
      S (abortController e) = length (controllers (rt s)) ∧
      controllers (rt s) !! abortController e = Some false ∧
      (∀ j a, attempts (rt s) !! j = Some a ->
              att_controller a = abortController e -> att_url a = dep_url e) ∧
      if polls (dep_interval e) then
        ∃ old t, timers s = old ++ [t] ∧
                 Forall (λ t', cleared t' = true) old ∧
                 cleared t = false ∧
                 intervalId e = Some (length (timers s)) ∧
                 timer_controller t = abortController e ∧
                 timer_url t = dep_url e ∧
                 delay t = timer_delay (default NaN (dep_interval e)) ∧
                 due t <= now s + delay t
      else intervalId e = None ∧ Forall (λ t', cleared t' = true) (timers s)
  | None =>
      lifecycle (rt s) ≠ Mounted ∧
      (∀ c, (c < length (controllers (rt s)))%nat -> controllers (rt s) !! c = Some true) ∧
      Forall (λ t', cleared t' = true) (timers s)
  end.

End WithData.

Arguments UsePollingFetchResult : clear implicits.
Arguments Instance : clear implicits.
Arguments Event : clear implicits.

End UsePollingFetch.

(** ** Concrete inputs used in the examples *)

Module Samples.

Import UseGridData.

(** The key of the third grid of [ProductGridDemo], whose refresh button is
    on screen while the first request is pending. *)
Definition featured : string := "/api/products/featured".

Definition products1 : list Product :=
  [{| id := 1; name := "Featured Item Alpha"; price := 9900;
      description := "High-quality product with exceptional features" |}].

Definition products2 : list Product :=
  [{| id := 2; name := "Featured Item Beta"; price := 12050;
      description := "Best-in-class performance and reliability" |}].

(** A [200] reply carrying a body that parses to [v]. *)
Definition reply_ok {T} (v : T) : Settled (Reply T) :=
  Fulfilled {| reply_status := 200; reply_body := Json (Some v) |}.

(** A [200] reply whose body is the JSON text [null]. *)
Definition reply_null {T} : Settled (Reply T) :=
  Fulfilled {| reply_status := 200; reply_body := Json None |}.

(** The reply of the [/api/error] handler: status [500], a body that is not
    JSON. *)
Definition reply_500 {T} : Settled (Reply T) :=
  Fulfilled {| reply_status := 500;
               reply_body := NotJson "Unexpected token I in JSON at position 0" |}.

(** The messages of one engine. *)
Definition v8 : Engine :=
  {| call_message := fun key =>
       if String.eqb key "__proto__" then "mockApiEndpoints[url] is not a function"
       else "Object.prototype." +:+ key +:+ ": Expecting function";
     read_message := "Cannot read properties of undefined (reading 'ok')" |}.



End Samples.

(** ** The components that use the hooks *)

(** [components/ProductGridDemo.tsx]: the three render functions handed to
    [ProductGrid].  A view is the markup a render function returns, reduced
    to what varies with the render state; a button is represented by its
    [onClick] handler. *)

Module ProductGridDemo.

Import UseGridData.

(** [if (error)], [{error && ...}] for [error : string | null]: the empty
    string is falsy. *)
Definition shown_error (error : option string) : option string :=
  match error with
  | Some m => if String.eqb m "" then None else Some m
  | None => None
  end.

(** A [ProductCard]: the [product] and the [onRefetch] it is given. *)
Record ProductCard := {
  product : Product;
  onRefetch : nat;
}.

(** Example 1: the keys of the skeleton cards; or the error container with
    its message and the handler of "Try Again"; or the grid of cards and
    whether "No products available" is under it. *)
Inductive Example1 :=
| SkeletonCards (keys : list Z)
| ErrorContainer (errorMessage : string) (retryButton : nat)
| GridLayout (cards : list ProductCard) (emptyState : bool).

Definition example1 (st : ProductGridRenderState) : Example1 :=
  if grid_isLoading st && (length (grid_data st) =? 0)%nat then
    SkeletonCards [1; 2; 3; 4; 5; 6]
  else
    match shown_error (grid_error st) with
    | Some m => ErrorContainer m (grid_refetchData st)
    | None =>
        GridLayout
          ((λ p, {| product := p; onRefetch := grid_refetchData st |}) <$> grid_data st)
          (length (grid_data st) =? 0)%nat
    end.

(** Example 2: the loading text; or the error banner with its text and the
    handler of "Reload"; or the list and whether "No gadgets found" is
    under it. *)
Inductive Example2 :=
| LoadingText
| ErrorBanner (text : string) (smallButton : nat)
| ListContainer (items : list Product) (emptyState : bool).

Definition example2 (st : ProductGridRenderState) : Example2 :=
  if grid_isLoading st && (length (grid_data st) =? 0)%nat then LoadingText
  else
    match shown_error (grid_error st) with
    | Some m => ErrorBanner ("Error: " +:+ m) (grid_refetchData st)
    | None => ListContainer (grid_data st) (length (grid_data st) =? 0)%nat
    end.

(** Example 3: the header with its count and the handler of "Refresh
    Data", the inline error when there is one, the compact grid when there
    is none, with "No featured products" in it or not. *)
Record Example3 := {
  customHeaderCount : string;
  primaryButton : nat;
  inlineError : option string;
  compactGrid : option (list Product * bool);
}.

Definition example3 (st : ProductGridRenderState) : Example3 :=
  {| customHeaderCount :=
       if grid_isLoading st then "Loading..."
       else pretty (length (grid_data st)) +:+ " items";
     primaryButton := grid_refetchData st;
     inlineError :=
       match shown_error (grid_error st) with
       | Some m => Some ("Failed to load: " +:+ m)
       | None => None
       end;
     compactGrid :=
       match shown_error (grid_error st) with
       | Some _ => None
       | None =>
           Some (grid_data st,
                 (length (grid_data st) =? 0)%nat && negb (grid_isLoading st))
       end |}.

End ProductGridDemo.

(** [components/PollingDemo.tsx]: the data container of the component. *)

Module PollingDemo.

Import UsePollingFetch.

Record Post := {
  post_id : Z;
  title : string;
  post_body : string;
  post_timestamp : string;
}.

Record User := {
  user_id : Z;
  user_name : string;
  email : string;
  user_timestamp : string;
}.

(** [usePollingFetch<Post | User>]: an object, hence truthy. *)
Definition Data : Type := Post + User.

(** What the handler of an endpoint of [mockApiEndpoints] answers:
    [/api/posts] a post and [/api/users] a user, as JSON with status 200;
    [/api/error] the text [Internal Server Error] with status 500, for
    which [response.json()] would fail with the engine's message. *)
Inductive answers : string -> Settled (Reply Data) -> Prop :=
| answers_posts (post : Post) :
    answers "/api/posts"
      (Fulfilled {| reply_status := 200; reply_body := Json (Some (inl post)) |})
| answers_users (user : User) :
    answers "/api/users"
      (Fulfilled {| reply_status := 200; reply_body := Json (Some (inr user)) |})
| answers_error (message : string) :
    answers "/api/error"
      (Fulfilled {| reply_status := 500; reply_body := NotJson message |}).

(** An event [PollingDemo] can bring about on the [window.fetch] it
    installs: it renders the hook with one of its three endpoints, and a
    request is answered by the handler of an endpoint. *)
Definition demo_event (ev : Event Data) : Prop :=
  match ev with
  | Render url _ => url ∈ pollingEndpoints
  | FetchSettles _ net => ∃ url, answers url net
  | JsonSettles _ | Elapse _ | Tick _ | Unmount => True
  end.

(** The three conditional blocks under "Response Data":
<<
      {isLoading && !data && (<div>Loading initial data...</div>)}
      {error && (<div>Error occurred while fetching data. ...</div>)}
      {data && !error && (<pre>{JSON.stringify(data, null, 2)}</pre>)}
>> *)
Record DataContainer := {
  loadingState : bool;
  errorState : bool;
  dataDisplay : option Data;
}.

Definition dataContainer (r : UsePollingFetchResult Data) : DataContainer :=
  {| loadingState := res_isLoading r && negb (bool_decide (is_Some (res_data r)));
     errorState := res_error r;
     dataDisplay := if negb (res_error r) then res_data r else None |}.

(** How many of the three blocks are on screen. *)
Definition blocks_shown (c : DataContainer) : nat :=
  (if loadingState c then 1 else 0) + (if errorState c then 1 else 0) +
  (if dataDisplay c is Some _ then 1 else 0).

End PollingDemo.

(** ** Notions used in the statements about the hooks *)

Module Notions.

(** An attempt that has not returned is suspended at an [await]. *)
Definition pending {T} (ph : Phase T) : bool :=
  match ph with
  | AwaitingFetch | AwaitingJson _ => true
  | Returned => false
  end.

(** The phase of the newest attempt, if there is an attempt. *)
Definition newest_phase {E T} (rt : Runtime E T) : option (Phase T) :=
  att_phase <$> last (attempts rt).

(** Unit A: an event that neither changes the key, nor calls
    [refetchData], nor unmounts. *)
Definition grid_keeps (apiUrl : string) (ev : UseGridData.Event) : Prop :=
  match ev with
  | UseGridData.Render apiUrl' => apiUrl' = apiUrl
  | UseGridData.Refetch | UseGridData.Unmount => False
  | UseGridData.FetchSettles _ _ | UseGridData.JsonSettles _ => True
  end.

(** Unit A: the settlement of an attempt older than attempt [i]. *)
Definition grid_older (i : nat) (ev : UseGridData.Event) : Prop :=
  match ev with
  | UseGridData.FetchSettles j _ | UseGridData.JsonSettles j => (j < i)%nat
  | _ => False
  end.

(** The cells are in one of two conditions: an attempt has started and
    nothing has been written since ([isLoading], no error); or the last
    write was the end of an attempt (not [isLoading], and an error from the
    [catch] block or some [data]). *)
Definition coherent {E T} (noError : E) (toError : Thrown -> E) (h : HookState E T) : Prop :=
  (isLoading h = true ∧ error h = noError) ∨
  (isLoading h = false ∧ ((∃ err, error h = toError err) ∨ is_Some (data h))).

(** While [isLoading] is set there is no error. *)
Definition loading_without_error {E T} (noError : E) (h : HookState E T) : Prop :=
  isLoading h = true -> error h = noError.

(** The response [window.fetch] makes of the reply [net], if it makes one,
    does not have the JSON text [null] for its body. *)
Definition no_null_body {T} (windowFetch : FetchImpl T) (net : Settled (Reply T)) : Prop :=
  ∀ cs url init_signal r,
    windowFetch cs url init_signal net = Fulfilled (FetchedResponse r) ->
    body r ≠ Json None.

(** Unit A: an event that does not answer a request with the body
    [null]. *)
Definition grid_no_null (windowFetch : FetchImpl (list UseGridData.Product))
    (ev : UseGridData.Event) : Prop :=
  match ev with
  | UseGridData.FetchSettles _ net => no_null_body windowFetch net
  | _ => True
  end.

(** Unit B: likewise. *)
Definition poll_no_null {T} (windowFetch : FetchImpl T) (ev : UsePollingFetch.Event T)
    : Prop :=
  match ev with
  | UsePollingFetch.FetchSettles _ net => no_null_body windowFetch net
  | _ => True
  end.

(** No attempt waits for the body of a response whose body is [null]. *)
Definition bodies_not_null {E T} (rt : Runtime E T) : Prop :=
  ∀ i a r, attempts rt !! i = Some a -> att_phase a = AwaitingJson r -> body r ≠ Json None.

(** The timers that have not been cleared. *)
Definition live_timers (ts : list UsePollingFetch.Timer) : list UsePollingFetch.Timer :=
  filter (λ t, UsePollingFetch.cleared t = false) ts.

End Notions.

(** * Properties *)

(** ** The pieces of [fetchData] *)

Module AttemptFacts.

Section Pieces.
Context {E T : Type}.
Context (noError : E) (toError : Thrown -> E).

Lemma catch_block_abort (err : Thrown) (w : World E T) :
  isAbortError err = true ->
  catch_block toError err w = (inl Returned, w).
Proof.
  intros Habort. unfold catch_block. rewrite Habort. reflexivity.
Qed.

Lemma catch_block_failure (err : Thrown) (w : World E T) :
  isAbortError err = false ->
  catch_block toError err w =
    (inl Returned,
     {| hook := {| data := data (hook w); isLoading := false; error := toError err |};
        console := console w ++ [err] |}).
Proof.
  intros Habort. unfold catch_block. rewrite Habort. reflexivity.
Qed.

Lemma catch_block_returns (err : Thrown) (w : World E T) :
  exists w', catch_block toError err w = (inl Returned, w').
Proof.
  destruct (isAbortError err) eqn:Habort.
  - exists w. by apply catch_block_abort.
  - eexists. by apply catch_block_failure.
Qed.

Lemma fetchData_begin_eq (w : World E T) :
  fetchData_begin noError toError None w =
    (inl AwaitingFetch,
     {| hook := {| data := data (hook w); isLoading := true; error := noError |};
        console := console w |}).
Proof. reflexivity. Qed.

Lemma fetchData_begin_throws (err : Thrown) (w : World E T) :
  fetchData_begin noError toError (Some err) w =
    catch_block toError err
      {| hook := {| data := data (hook w); isLoading := true; error := noError |};
         console := console w |}.
Proof. reflexivity. Qed.


Lemma fetchData_response_rejected (err : Thrown) (w : World E T) :
  fetchData_response toError (Rejected err) w = catch_block toError err w.
Proof. reflexivity. Qed.

Lemma fetchData_response_ok (r : Response T) (w : World E T) :
  ok r = true ->
  fetchData_response toError (Fulfilled (FetchedResponse r)) w = (inl (AwaitingJson r), w).
Proof.
  intros Hok. unfold fetchData_response, try_catch, mbind, eff_bind, bind. simpl.
  rewrite Hok. reflexivity.
Qed.

Lemma httpError_not_abort (st : Z) : isAbortError (httpError st) = false.
Proof. reflexivity. Qed.

Lemma fetchData_response_other (w : World E T) :
  fetchData_response toError (Fulfilled FetchedOther) w =
    (inl Returned,
     {| hook := {| data := data (hook w); isLoading := false;
                   error := toError httpErrorUndefined |};
        console := console w ++ [httpErrorUndefined] |}).
Proof. reflexivity. Qed.

Lemma fetchData_response_undefined (message : string) (w : World E T) :
  fetchData_response toError (Fulfilled (FetchedUndefined message)) w =
    (inl Returned,
     {| hook := {| data := data (hook w); isLoading := false;
                   error := toError (TypeError message) |};
        console := console w ++ [TypeError message] |}).
Proof. reflexivity. Qed.

Lemma fetchData_response_not_ok (r : Response T) (w : World E T) :
  ok r = false ->
  fetchData_response toError (Fulfilled (FetchedResponse r)) w =
    (inl Returned,
     {| hook := {| data := data (hook w); isLoading := false;
                   error := toError (httpError (status r)) |};
        console := console w ++ [httpError (status r)] |}).
Proof.
  intros Hok. unfold fetchData_response, try_catch, mbind, eff_bind, bind. simpl.
  rewrite Hok. simpl. reflexivity.
Qed.

Lemma fetchData_result_rejected (err : Thrown) (w : World E T) :
  fetchData_result toError (Rejected err) w = catch_block toError err w.
Proof. reflexivity. Qed.

Lemma fetchData_result_fulfilled (v : option T) (w : World E T) :
  fetchData_result toError (Fulfilled v) w =
    (inl Returned,
     {| hook := {| data := v; isLoading := false; error := error (hook w) |};
        console := console w |}).
Proof. reflexivity. Qed.

Lemma fetchData_response_returns (p : Settled (Fetched T)) (w : World E T) :
  exists ph w', fetchData_response toError p w = (inl ph, w').
Proof.
  destruct p as [[r| |message]|err].
  - destruct (ok r) eqn:Hok.
    + eexists _, _. by apply fetchData_response_ok.
    + eexists _, _. by apply fetchData_response_not_ok.
  - eexists _, _. apply fetchData_response_other.
  - eexists _, _. apply fetchData_response_undefined.
  - destruct (catch_block_returns err w) as [w' Hw']. by exists Returned, w'.
Qed.

Lemma fetchData_result_returns (p : Settled (option T)) (w : World E T) :
  exists ph w', fetchData_result toError p w = (inl ph, w').
Proof.
  destruct p as [v|err].
  - eexists _, _. apply fetchData_result_fulfilled.
  - destruct (catch_block_returns err w) as [w' Hw']. by exists Returned, w'.
Qed.

End Pieces.

End AttemptFacts.

(** ** Calls and settlements on the shared part of an instance *)

Module RuntimeFacts.

Import AttemptFacts.

Section Facts.
Context {E T : Type}.
Context (noError : E) (toError : Thrown -> E).

Implicit Types (rt : Runtime E T) (w : World E T) (a : Pending T).

Lemma run_piece_returns (m : Eff E T (Phase T)) rt ph w' :
  m (world rt) = (inl ph, w') ->
  run_piece m rt =
    (ph, {| world := commit (lifecycle rt) (world rt) w'; lifecycle := lifecycle rt;
            controllers := controllers rt; attempts := attempts rt;
            unhandled := unhandled rt |}).
Proof. intros Hm. unfold run_piece. rewrite Hm. reflexivity. Qed.

Lemma commit_mounted w w' : commit Mounted w w' = w'.
Proof. reflexivity. Qed.

Lemma commit_same lc w : commit lc w w = w.
Proof. unfold commit. destruct (decide (lc = Mounted)); by destruct w. Qed.

Lemma commit_console lc w w' : console (commit lc w w') = console w'.
Proof. unfold commit. by destruct (decide (lc = Mounted)). Qed.

(** A call of [fetchData] whose call of [fetch] returns. *)
Lemma call_fetchData_eq (windowFetch : FetchImpl T) url c rt :
  throws windowFetch (controllers rt) url (Some c) = None ->
  call_fetchData noError toError windowFetch url c rt =
    {| world := commit (lifecycle rt) (world rt)
                  {| hook := {| data := data (hook (world rt)); isLoading := true;
                                error := noError |};
                     console := console (world rt) |};
       lifecycle := lifecycle rt;
       controllers := controllers rt;
       attempts := attempts rt ++
                     [{| att_url := url; att_controller := c; att_phase := AwaitingFetch |}];
       unhandled := unhandled rt |}.
Proof.
  intros Hthrows. unfold call_fetchData. rewrite Hthrows.
  rewrite (run_piece_returns _ rt _ _ (fetchData_begin_eq noError toError (world rt))).
  reflexivity.
Qed.

(** A call of [fetchData] whose call of [fetch] throws: the [catch] block
    runs at once and the attempt has returned. *)
Lemma call_fetchData_throws (windowFetch : FetchImpl T) url c rt err :
  throws windowFetch (controllers rt) url (Some c) = Some err ->
  ∃ w',
    catch_block toError err
      {| hook := {| data := data (hook (world rt)); isLoading := true; error := noError |};
         console := console (world rt) |} = (inl Returned, w') ∧
    call_fetchData noError toError windowFetch url c rt =
      {| world := commit (lifecycle rt) (world rt) w';
         lifecycle := lifecycle rt;
         controllers := controllers rt;
         attempts := attempts rt ++
                       [{| att_url := url; att_controller := c; att_phase := Returned |}];
         unhandled := unhandled rt |}.
Proof.
  intros Hthrows.
  destruct (catch_block_returns toError err
              {| hook := {| data := data (hook (world rt)); isLoading := true;
                            error := noError |};
                 console := console (world rt) |}) as [w' Hw'].
  exists w'. split; [done|].
  unfold call_fetchData. rewrite Hthrows.
  rewrite (run_piece_returns _ rt Returned w'); [done|].
  by rewrite fetchData_begin_throws.
Qed.

(** Either way the call adds one attempt, which awaits [fetch] or has
    returned, and touches nothing but the cells and the console. *)
Lemma call_fetchData_cases (windowFetch : FetchImpl T) url c rt :
  ∃ ph w',
    (ph = AwaitingFetch ∨ ph = Returned) ∧
    fetchData_begin noError toError (throws windowFetch (controllers rt) url (Some c))
      (world rt) = (inl ph, w') ∧
    call_fetchData noError toError windowFetch url c rt =
      {| world := commit (lifecycle rt) (world rt) w';
         lifecycle := lifecycle rt;
         controllers := controllers rt;
         attempts := attempts rt ++
                       [{| att_url := url; att_controller := c; att_phase := ph |}];
         unhandled := unhandled rt |}.
Proof.
  destruct (throws windowFetch (controllers rt) url (Some c)) as [err|] eqn:Hthrows.
  - destruct (call_fetchData_throws windowFetch url c rt err Hthrows) as (w' & Hw' & Heq).
    exists Returned, w'. split_and!; [by right| |done].
    by rewrite fetchData_begin_throws.
  - eexists AwaitingFetch, _. split_and!; [by left|apply fetchData_begin_eq|].
    by apply call_fetchData_eq.
Qed.

(** What the settlement of a [fetch] promise does: nothing, when the
    attempt is not suspended there; otherwise the second piece runs to its
    end and only the phase of that attempt changes. *)
Lemma fetch_settles_cases (windowFetch : FetchImpl T) i net rt :
  fetch_settles toError windowFetch i net rt = rt ∨
  ∃ url c ph w',
    attempts rt !! i = Some {| att_url := url; att_controller := c; att_phase := AwaitingFetch |} ∧
    fetchData_response toError (windowFetch (controllers rt) url (Some c) net) (world rt)
      = (inl ph, w') ∧
    fetch_settles toError windowFetch i net rt =
      {| world := commit (lifecycle rt) (world rt) w'; lifecycle := lifecycle rt;
         controllers := controllers rt;
         attempts := <[i := {| att_url := url; att_controller := c; att_phase := ph |}]> (attempts rt);
         unhandled := unhandled rt |}.
Proof.
  unfold fetch_settles.
  destruct (attempts rt !! i) as [[url c [| |]]|] eqn:Hi; auto.
  right.
  destruct (fetchData_response_returns toError
              (windowFetch (controllers rt) url (Some c) net) (world rt)) as (ph & w' & Hp).
  exists url, c, ph, w'. split_and!; [done..|].
  by rewrite (run_piece_returns _ rt _ _ Hp).
Qed.

Lemma json_settles_cases i rt :
  json_settles toError i rt = rt ∨
  ∃ url c r ph w',
    attempts rt !! i = Some {| att_url := url; att_controller := c; att_phase := AwaitingJson r |} ∧
    fetchData_result toError (json (controllers rt) r) (world rt) = (inl ph, w') ∧
    json_settles toError i rt =
      {| world := commit (lifecycle rt) (world rt) w'; lifecycle := lifecycle rt;
         controllers := controllers rt;
         attempts := <[i := {| att_url := url; att_controller := c; att_phase := ph |}]> (attempts rt);
         unhandled := unhandled rt |}.
Proof.
  unfold json_settles.
  destruct (attempts rt !! i) as [[url c [|r|]]|] eqn:Hi; auto.
  right.
  destruct (fetchData_result_returns toError (json (controllers rt) r) (world rt))
    as (ph & w' & Hp).
  exists url, c, r, ph, w'. split_and!; [done..|].
  by rewrite (run_piece_returns _ rt _ _ Hp).
Qed.




(** Settlements abort nothing, and neither add nor remove attempts. *)
Lemma fetch_settles_controllers (windowFetch : FetchImpl T) i net rt :
  controllers (fetch_settles toError windowFetch i net rt) = controllers rt.
Proof.
  destruct (fetch_settles_cases windowFetch i net rt) as [->|(?&?&?&?&_&_&->)]; done.
Qed.

Lemma json_settles_controllers i rt :
  controllers (json_settles toError i rt) = controllers rt.
Proof.
  destruct (json_settles_cases i rt) as [->|(?&?&?&?&?&_&_&->)]; done.
Qed.

Lemma fetch_settles_lifecycle (windowFetch : FetchImpl T) i net rt :
  lifecycle (fetch_settles toError windowFetch i net rt) = lifecycle rt.
Proof.
  destruct (fetch_settles_cases windowFetch i net rt) as [->|(?&?&?&?&_&_&->)]; done.
Qed.

Lemma json_settles_lifecycle i rt :
  lifecycle (json_settles toError i rt) = lifecycle rt.
Proof.
  destruct (json_settles_cases i rt) as [->|(?&?&?&?&?&_&_&->)]; done.
Qed.

Lemma fetch_settles_length (windowFetch : FetchImpl T) i net rt :
  length (attempts (fetch_settles toError windowFetch i net rt)) = length (attempts rt).
Proof.
  destruct (fetch_settles_cases windowFetch i net rt) as [->|(?&?&?&?&_&_&->)]; [done|].
  simpl. by rewrite length_insert.
Qed.

Lemma json_settles_length i rt :
  length (attempts (json_settles toError i rt)) = length (attempts rt).
Proof.
  destruct (json_settles_cases i rt) as [->|(?&?&?&?&?&_&_&->)]; [done|].
  simpl. by rewrite length_insert.
Qed.

(** A settlement changes no attempt's [url] or controller. *)
Lemma fetch_settles_lookup (windowFetch : FetchImpl T) i net rt j a :
  attempts (fetch_settles toError windowFetch i net rt) !! j = Some a ->
  ∃ a0, attempts rt !! j = Some a0 ∧ att_url a0 = att_url a ∧
        att_controller a0 = att_controller a.
Proof.
  destruct (fetch_settles_cases windowFetch i net rt) as [->|(url&c&ph&w'&Hi&_&->)].
  - intros Hj. by exists a.
  - simpl. intros Hj. destruct (decide (i = j)) as [->|Hne].
    + rewrite list_lookup_insert_eq in Hj by (by eapply lookup_lt_Some).
      injection Hj as <-. by eexists.
    + rewrite list_lookup_insert_ne in Hj by done. by exists a.
Qed.

Lemma json_settles_lookup i rt j a :
  attempts (json_settles toError i rt) !! j = Some a ->
  ∃ a0, attempts rt !! j = Some a0 ∧ att_url a0 = att_url a ∧
        att_controller a0 = att_controller a.
Proof.
  destruct (json_settles_cases i rt) as [->|(url&c&r&ph&w'&Hi&_&->)].
  - intros Hj. by exists a.
  - simpl. intros Hj. destruct (decide (i = j)) as [->|Hne].
    + rewrite list_lookup_insert_eq in Hj by (by eapply lookup_lt_Some).
      injection Hj as <-. by eexists.
    + rewrite list_lookup_insert_ne in Hj by done. by exists a.
Qed.

(** *** What the pieces write *)

Lemma commit_hook lc w w' :
  hook (commit lc w w') = if decide (lc = Mounted) then hook w' else hook w.
Proof. unfold commit. by destruct (decide (lc = Mounted)). Qed.

Lemma catch_block_data err w ph w' :
  catch_block toError err w = (inl ph, w') -> data (hook w') = data (hook w).
Proof.
  destruct (isAbortError err) eqn:Habort.
  - rewrite catch_block_abort by done. by intros [= _ <-].
  - rewrite catch_block_failure by done. by intros [= _ <-].
Qed.

Lemma fetchData_begin_data thrown w ph w' :
  fetchData_begin noError toError thrown w = (inl ph, w') -> data (hook w') = data (hook w).
Proof.
  destruct thrown as [err|].
  - rewrite fetchData_begin_throws. intros H. by apply catch_block_data in H.
  - rewrite fetchData_begin_eq. by intros [= _ <-].
Qed.

Lemma fetchData_response_data p w ph w' :
  fetchData_response toError p w = (inl ph, w') -> data (hook w') = data (hook w).
Proof.
  destruct p as [[r| |message]|err].
  - destruct (ok r) eqn:Hok.
    + rewrite fetchData_response_ok by done. by intros [= _ <-].
    + rewrite fetchData_response_not_ok by done. by intros [= _ <-].
  - rewrite fetchData_response_other. by intros [= _ <-].
  - rewrite fetchData_response_undefined. by intros [= _ <-].
  - rewrite fetchData_response_rejected. apply catch_block_data.
Qed.

Lemma fetchData_result_data p w ph w' :
  fetchData_result toError p w = (inl ph, w') ->
  data (hook w') = data (hook w) ∨ ∃ v, p = Fulfilled v ∧ data (hook w') = v.
Proof.
  destruct p as [v|err].
  - rewrite fetchData_result_fulfilled. intros [= _ <-]. right. by exists v.
  - rewrite fetchData_result_rejected. intros H. left. by eapply catch_block_data.
Qed.

Lemma call_fetchData_data (windowFetch : FetchImpl T) url c rt :
  data (hook (world (call_fetchData noError toError windowFetch url c rt))) =
    data (hook (world rt)).
Proof.
  destruct (call_fetchData_cases windowFetch url c rt) as (ph & w' & _ & Hp & ->).
  simpl. rewrite commit_hook.
  destruct (decide (lifecycle rt = Mounted)); [|done].
  by eapply fetchData_begin_data.
Qed.

Lemma fetch_settles_data (windowFetch : FetchImpl T) i net rt :
  data (hook (world (fetch_settles toError windowFetch i net rt))) = data (hook (world rt)).
Proof.
  destruct (fetch_settles_cases windowFetch i net rt) as [->|(?&?&?&?&_&Hp&->)]; [done|].
  simpl. rewrite commit_hook. destruct (decide (lifecycle rt = Mounted)); [|done].
  by eapply fetchData_response_data.
Qed.

Lemma json_settles_data i rt :
  data (hook (world (json_settles toError i rt))) = data (hook (world rt)) ∨
  ∃ url c r v,
    attempts rt !! i =
      Some {| att_url := url; att_controller := c; att_phase := AwaitingJson r |} ∧
    json (controllers rt) r = Fulfilled v ∧
    data (hook (world (json_settles toError i rt))) = v.
Proof.
  destruct (json_settles_cases i rt) as [->|(url&c&r&?&?&Hi&Hp&->)]; [by left|].
  simpl. rewrite commit_hook. destruct (decide (lifecycle rt = Mounted)); [|by left].
  destruct (fetchData_result_data _ _ _ _ Hp) as [?|(v & Hv & ?)]; [by left|].
  right. by exists url, c, r, v.
Qed.

(** An attempt that starts on a mounted component shows [isLoading] and
    no error, and leaves [data] alone. *)
Lemma call_fetchData_mounted (windowFetch : FetchImpl T) url c rt :
  lifecycle rt = Mounted ->
  throws windowFetch (controllers rt) url (Some c) = None ->
  hook (world (call_fetchData noError toError windowFetch url c rt)) =
    {| data := data (hook (world rt)); isLoading := true; error := noError |}.
Proof. intros Hlc Hthrows. rewrite call_fetchData_eq by done. simpl. by rewrite Hlc. Qed.

(** When the call of [fetch] throws anything but an [AbortError], the
    attempt leaves the error behind and [isLoading] off. *)
Lemma call_fetchData_thrown (windowFetch : FetchImpl T) url c rt err :
  lifecycle rt = Mounted ->
  throws windowFetch (controllers rt) url (Some c) = Some err ->
  isAbortError err = false ->
  world (call_fetchData noError toError windowFetch url c rt) =
    {| hook := {| data := data (hook (world rt)); isLoading := false;
                  error := toError err |};
       console := console (world rt) ++ [err] |}.
Proof.
  intros Hlc Hthrows Ha.
  destruct (call_fetchData_throws windowFetch url c rt err Hthrows) as (w' & Hw' & ->).
  rewrite catch_block_failure in Hw' by done. injection Hw' as <-.
  simpl. by rewrite Hlc.
Qed.

Lemma call_fetchData_length (windowFetch : FetchImpl T) url c rt :
  length (attempts (call_fetchData noError toError windowFetch url c rt)) =
    S (length (attempts rt)).
Proof.
  destruct (call_fetchData_cases windowFetch url c rt) as (?&?&_&_&->).
  simpl. rewrite length_app. simpl. lia.
Qed.

Lemma call_fetchData_controllers (windowFetch : FetchImpl T) url c rt :
  controllers (call_fetchData noError toError windowFetch url c rt) = controllers rt.
Proof. by destruct (call_fetchData_cases windowFetch url c rt) as (?&?&_&_&->). Qed.

Lemma call_fetchData_lifecycle (windowFetch : FetchImpl T) url c rt :
  lifecycle (call_fetchData noError toError windowFetch url c rt) = lifecycle rt.
Proof. by destruct (call_fetchData_cases windowFetch url c rt) as (?&?&_&_&->). Qed.

(** The attempts made before a call are still there, and the new one is
    the last. *)
Lemma call_fetchData_attempts (windowFetch : FetchImpl T) url c rt :
  ∃ ph, (ph = AwaitingFetch ∨ ph = Returned) ∧
        attempts (call_fetchData noError toError windowFetch url c rt) =
          attempts rt ++ [{| att_url := url; att_controller := c; att_phase := ph |}].
Proof.
  destruct (call_fetchData_cases windowFetch url c rt) as (ph & ? & Hph & _ & ->).
  by exists ph.
Qed.

(** *** Settlement of an aborted request under the browser's [fetch] *)

Lemma browserFetch_aborted cs url c (net : Settled (Reply T)) :
  aborted cs (Some c) = true ->
  browserFetch cs url (Some c) net = Rejected AbortError.
Proof. intros Ha. unfold browserFetch. cbn [settled]. by rewrite Ha. Qed.

Lemma json_aborted cs (r : Response T) :
  aborted cs (signal r) = true -> json cs r = Rejected AbortError.
Proof. intros Ha. unfold json. by rewrite Ha. Qed.

(** A promise rejected with an [AbortError] changes nothing but the phase
    of its attempt. *)
Lemma fetch_settles_abort (windowFetch : FetchImpl T) i net rt url c err :
  attempts rt !! i = Some {| att_url := url; att_controller := c; att_phase := AwaitingFetch |} ->
  windowFetch (controllers rt) url (Some c) net = Rejected err ->
  isAbortError err = true ->
  fetch_settles toError windowFetch i net rt =
    set_attempts (<[i := {| att_url := url; att_controller := c; att_phase := Returned |}]>
                    (attempts rt)) rt.
Proof.
  intros Hi Hp Habort.
  destruct (fetch_settles_cases windowFetch i net rt) as [Heq|(url'&c'&ph&w'&Hi'&Hr&->)].
  - unfold fetch_settles in *. rewrite Hi in *. rewrite Hp in *.
    rewrite (run_piece_returns _ rt Returned (world rt)) in *
      by (rewrite fetchData_response_rejected; by apply catch_block_abort).
    by rewrite commit_same in *.
  - rewrite Hi in Hi'. injection Hi' as <- <-. rewrite Hp in Hr.
    rewrite fetchData_response_rejected, catch_block_abort in Hr by done.
    injection Hr as <- <-. by rewrite commit_same.
Qed.

Lemma json_settles_abort i rt url c r err :
  attempts rt !! i = Some {| att_url := url; att_controller := c; att_phase := AwaitingJson r |} ->
  json (controllers rt) r = Rejected err ->
  isAbortError err = true ->
  json_settles toError i rt =
    set_attempts (<[i := {| att_url := url; att_controller := c; att_phase := Returned |}]>
                    (attempts rt)) rt.
Proof.
  intros Hi Hp Habort.
  destruct (json_settles_cases i rt) as [Heq|(url'&c'&r'&ph&w'&Hi'&Hr&->)].
  - unfold json_settles in *. rewrite Hi in *. rewrite Hp in *.
    rewrite (run_piece_returns _ rt Returned (world rt)) in *
      by (rewrite fetchData_result_rejected; by apply catch_block_abort).
    by rewrite commit_same in *.
  - rewrite Hi in Hi'. injection Hi' as <- <- <-. rewrite Hp in Hr.
    rewrite fetchData_result_rejected, catch_block_abort in Hr by done.
    injection Hr as <- <-. by rewrite commit_same.
Qed.

(** *** The browser's [fetch] ties every response to the attempt's signal *)

Lemma responses_tied_call (windowFetch : FetchImpl T) url c rt :
  responses_tied rt ->
  responses_tied (call_fetchData noError toError windowFetch url c rt).
Proof.
  intros Htied i a r.
  destruct (call_fetchData_attempts windowFetch url c rt)
    as (ph & Hph & ->).
  intros Hi Ha.
  apply lookup_app_Some in Hi as [Hi|[_ Hi]].
  - by eapply Htied.
  - apply list_lookup_singleton_Some in Hi as [_ <-]. simpl in Ha.
    destruct Hph as [-> | ->]; done.
Qed.

Lemma responses_tied_fetch_settles i net rt :
  responses_tied rt -> responses_tied (fetch_settles toError browserFetch i net rt).
Proof.
  intros Htied.
  destruct (fetch_settles_cases browserFetch i net rt) as [->|(url&c&ph&w'&Hi&Hp&->)];
    [done|].
  intros j a r. simpl. intros Hj Hph.
  destruct (decide (i = j)) as [->|Hne].
  - rewrite list_lookup_insert_eq in Hj by (by eapply lookup_lt_Some).
    injection Hj as <-. simpl in *. subst ph.
    unfold browserFetch in Hp; cbn [settled aborted] in Hp.
    destruct (default false (controllers rt !! c)).
    { rewrite fetchData_response_rejected, catch_block_abort in Hp by done. done. }
    destruct net as [rp|err].
    + destruct (ok {| status := reply_status rp; body := reply_body rp; signal := Some c |})
        eqn:Hok.
      * rewrite fetchData_response_ok in Hp by done. by injection Hp as <- _.
      * rewrite fetchData_response_not_ok in Hp by done. done.
    + rewrite fetchData_response_rejected in Hp.
      destruct (catch_block_returns toError err (world rt)) as [w'' Hw''].
      rewrite Hw'' in Hp. done.
  - rewrite list_lookup_insert_ne in Hj by done. by eapply Htied.
Qed.

Lemma responses_tied_json_settles i rt :
  responses_tied rt -> responses_tied (json_settles toError i rt).
Proof.
  intros Htied.
  destruct (json_settles_cases i rt) as [->|(url&c&r0&ph&w'&Hi&Hp&->)]; [done|].
  intros j a r. simpl. intros Hj Hph.
  destruct (decide (i = j)) as [->|Hne].
  - rewrite list_lookup_insert_eq in Hj by (by eapply lookup_lt_Some).
    injection Hj as <-. simpl in *. subst ph.
    destruct (json (controllers rt) r0) as [v|err].
    + rewrite fetchData_result_fulfilled in Hp. done.
    + rewrite fetchData_result_rejected in Hp.
      destruct (catch_block_returns toError err (world rt)) as [w'' Hw''].
      rewrite Hw'' in Hp. done.
  - rewrite list_lookup_insert_ne in Hj by done. by eapply Htied.
Qed.

(** Under the browser's [fetch], the settlement of an attempt whose
    controller has been aborted changes neither the cells nor the
    console. *)
Lemma browser_settles_aborted i a rt :
  responses_tied rt ->
  attempts rt !! i = Some a ->
  aborted (controllers rt) (Some (att_controller a)) = true ->
  (∀ net, world (fetch_settles toError browserFetch i net rt) = world rt) ∧
  world (json_settles toError i rt) = world rt.
Proof.
  intros Htied Hi Ha. destruct a as [url c ph]. simpl in Ha. split.
  - intros net.
    destruct (fetch_settles_cases browserFetch i net rt) as [->|(url'&c'&ph'&w'&Hi'&_&_)];
      [done|].
    rewrite Hi in Hi'. injection Hi' as <- <- ->.
    by rewrite (fetch_settles_abort _ i net rt url c AbortError Hi
                  (browserFetch_aborted _ _ _ _ Ha) eq_refl).
  - destruct (json_settles_cases i rt) as [->|(url'&c'&r&ph'&w'&Hi'&_&_)]; [done|].
    rewrite Hi in Hi'. injection Hi' as <- <- ->.
    assert (signal r = Some c) as Hsig by (by eapply (Htied i _ r Hi)).
    assert (aborted (controllers rt) (signal r) = true) as Ha' by (by rewrite Hsig).
    by rewrite (json_settles_abort i rt url c r AbortError Hi (json_aborted _ _ Ha') eq_refl).
Qed.

(** *** A response whose status is not 2xx *)

Lemma fetch_settles_not_ok (windowFetch : FetchImpl T) i net rt url c r :
  lifecycle rt = Mounted ->
  attempts rt !! i = Some {| att_url := url; att_controller := c; att_phase := AwaitingFetch |} ->
  windowFetch (controllers rt) url (Some c) net = Fulfilled (FetchedResponse r) ->
  ok r = false ->
  fetch_settles toError windowFetch i net rt =
    {| world := {| hook := {| data := data (hook (world rt)); isLoading := false;
                              error := toError (httpError (status r)) |};
                   console := console (world rt) ++ [httpError (status r)] |};
       lifecycle := lifecycle rt;
       controllers := controllers rt;
       attempts := <[i := {| att_url := url; att_controller := c; att_phase := Returned |}]>
                     (attempts rt);
       unhandled := unhandled rt |}.
Proof.
  intros Hlc Hi Hp Hok. unfold fetch_settles. rewrite Hi, Hp.
  rewrite (run_piece_returns _ rt _ _ (fetchData_response_not_ok toError r (world rt) Hok)).
  rewrite Hlc. reflexivity.
Qed.

(** *** A body that parses *)

Lemma json_settles_fulfilled i rt url c r v :
  lifecycle rt = Mounted ->
  attempts rt !! i = Some {| att_url := url; att_controller := c; att_phase := AwaitingJson r |} ->
  json (controllers rt) r = Fulfilled v ->
  json_settles toError i rt =
    {| world := {| hook := {| data := v; isLoading := false;
                              error := error (hook (world rt)) |};
                   console := console (world rt) |};
       lifecycle := lifecycle rt;
       controllers := controllers rt;
       attempts := <[i := {| att_url := url; att_controller := c; att_phase := Returned |}]>
                     (attempts rt);
       unhandled := unhandled rt |}.
Proof.
  intros Hlc Hi Hp. unfold json_settles. rewrite Hi, Hp.
  rewrite (run_piece_returns _ rt _ _ (fetchData_result_fulfilled toError v (world rt))).
  rewrite Hlc. reflexivity.
Qed.

End Facts.

End RuntimeFacts.

(** ** Unit A *)

Module GridDataFacts.

Import AttemptFacts RuntimeFacts UseGridData Samples.

Implicit Types (s : Instance) (ev : Event) (evs : list Event).
Implicit Types (windowFetch : FetchImpl (list Product)).

Lemma grid_run_snoc windowFetch s evs ev :
  run windowFetch s (evs ++ [ev]) = step windowFetch (run windowFetch s evs) ev.
Proof. unfold run. by rewrite foldl_snoc. Qed.

Lemma grid_run_cons windowFetch s ev evs :
  run windowFetch s (ev :: evs) = run windowFetch (step windowFetch s ev) evs.
Proof. reflexivity. Qed.

Lemma grid_run_app windowFetch s evs1 evs2 :
  run windowFetch s (evs1 ++ evs2) = run windowFetch (run windowFetch s evs1) evs2.
Proof. unfold run. by rewrite foldl_app. Qed.

(** A render whose dependency array is the one of the last effect runs no
    effect. *)
Lemma useGridData_same_deps windowFetch apiUrl s :
  deps_changed apiUrl (refetchTrigger s) (effect s) = false ->
  useGridData windowFetch apiUrl s =
    {| rt := set_lifecycle Mounted (rt s); refetchTrigger := refetchTrigger s;
       effect := effect s; memo := Some (default (closures s) (memo s));
       closures := S (closures s);
       renders := renders s ++
         [{| res_data := data (state s); res_isLoading := isLoading (state s);
             res_error := error (state s);
             res_refetchData := default (closures s) (memo s) |}] |}.
Proof. intros Hd. unfold useGridData. rewrite Hd. reflexivity. Qed.

(** A render with a new dependency array runs the cleanup of the last
    effect, then the effect. *)
Lemma useGridData_new_deps windowFetch apiUrl s :
  deps_changed apiUrl (refetchTrigger s) (effect s) = true ->
  useGridData windowFetch apiUrl s =
    let r := cleanup (effect s) (set_lifecycle Mounted (rt s)) in
    let c := length (controllers r) in
    {| rt := call_fetchData noError errorMessage windowFetch apiUrl c
               (set_controllers (controllers r ++ [false]) r);
       refetchTrigger := refetchTrigger s;
       effect := Some {| dep_apiUrl := apiUrl; dep_refetchTrigger := refetchTrigger s;
                         abortController := c |};
       memo := Some (default (closures s) (memo s));
       closures := S (closures s);
       renders := renders s ++
         [{| res_data := data (state s); res_isLoading := isLoading (state s);
             res_error := error (state s);
             res_refetchData := default (closures s) (memo s) |}] |}.
Proof. intros Hd. unfold useGridData. rewrite Hd. reflexivity. Qed.

Lemma grid_deps_changed_false apiUrl trigger e :
  deps_changed apiUrl trigger e = false <->
  ∃ e', e = Some e' ∧ dep_apiUrl e' = apiUrl ∧ dep_refetchTrigger e' = trigger.
Proof.
  unfold deps_changed. destruct e as [e'|].
  - rewrite negb_false_iff, bool_decide_eq_true. split.
    + intros [? ?]. by exists e'.
    + intros (? & [= <-] & ? & ?). done.
  - split; [done|]. by intros (? & ? & _).
Qed.

Lemma grid_cleanup_attempts e (r : Runtime (option string) (list Product)) :
  attempts (cleanup e r) = attempts r.
Proof. by destruct e. Qed.

Lemma grid_cleanup_lifecycle e (r : Runtime (option string) (list Product)) :
  lifecycle (cleanup e r) = lifecycle r.
Proof. by destruct e. Qed.

Lemma grid_cleanup_world e (r : Runtime (option string) (list Product)) :
  world (cleanup e r) = world r.
Proof. by destruct e. Qed.


Lemma grid_cleanup_length e (r : Runtime (option string) (list Product)) :
  length (controllers (cleanup e r)) = length (controllers r).
Proof. destruct e; [|done]. simpl. unfold abort. apply length_insert. Qed.

Lemma grid_well_formed_initial : well_formed initial.
Proof.
  unfold well_formed. simpl. split_and!; try done.
  - intros j Hj. lia.
  - intros j Hj. lia.
Qed.

Lemma grid_well_formed_render windowFetch apiUrl s :
  lifecycle (rt s) ≠ Unmounted -> well_formed s -> well_formed (useGridData windowFetch apiUrl s).
Proof.
  intros Hlc (Hlen & Hctl & Hold & Heff).
  destruct (deps_changed apiUrl (refetchTrigger s) (effect s)) eqn:Hd.
  - rewrite useGridData_new_deps by done. cbv zeta.
    destruct (call_fetchData_cases noError errorMessage windowFetch apiUrl
                (length (controllers (cleanup (effect s) (set_lifecycle Mounted (rt s)))))
                (set_controllers
                   (controllers (cleanup (effect s) (set_lifecycle Mounted (rt s))) ++ [false])
                   (cleanup (effect s) (set_lifecycle Mounted (rt s)))))
      as (ph & w' & _ & _ & ->).
    pose proof (grid_cleanup_length (effect s) (set_lifecycle Mounted (rt s))) as Hcl.
    simpl in Hcl. rewrite Hlen in Hcl.
    assert (Hall : ∀ j, (j < length (attempts (rt s)))%nat ->
               controllers (cleanup (effect s) (set_lifecycle Mounted (rt s))) !! j = Some true).
    { intros j Hj. destruct (effect s) as [e|] eqn:He; simpl.
      - destruct Heff as (_ & Hlast & Hlive). unfold abort.
        destruct (decide (abortController e = j)) as [->|Hne].
        + apply list_lookup_insert_eq. rewrite Hlen. lia.
        + rewrite list_lookup_insert_ne by done. apply Hold. lia.
      - destruct Heff as (_ & Hall). by apply Hall. }
    unfold well_formed. simpl. rewrite grid_cleanup_attempts. simpl.
    rewrite !length_app, Hcl. simpl.
    split_and!.
    + done.
    + intros j a Hj. apply lookup_app_Some in Hj as [Hj|[Hge Hj]].
      * by apply Hctl.
      * apply list_lookup_singleton_Some in Hj as [Hj <-]. simpl. lia.
    + intros j Hj. rewrite lookup_app_l by lia. apply Hall. lia.
    + by rewrite grid_cleanup_lifecycle.
    + lia.
    + rewrite lookup_app_r by lia. by rewrite Hcl, Nat.sub_diag.
  - rewrite useGridData_same_deps by done.
    apply grid_deps_changed_false in Hd as (e & He & _).
    unfold well_formed. simpl. rewrite He in Heff |- *. destruct Heff as (? & ? & ?).
    split_and!; done.
Qed.

Lemma grid_well_formed_unmount s :
  lifecycle (rt s) = Mounted -> well_formed s -> well_formed (unmount s).
Proof.
  intros Hlc (Hlen & Hctl & Hold & Heff).
  assert (Hall : ∀ j, (j < length (attempts (rt s)))%nat ->
             controllers (cleanup (effect s) (rt s)) !! j = Some true).
  { intros j Hj. destruct (effect s) as [e|]; simpl.
    - destruct Heff as (_ & Hlast & Hlive). unfold abort.
      destruct (decide (abortController e = j)) as [->|Hne].
      + apply list_lookup_insert_eq. lia.
      + rewrite list_lookup_insert_ne by done. apply Hold. lia.
    - destruct Heff as (Hn & _). by destruct Hn. }
  unfold well_formed, unmount. simpl.
  rewrite grid_cleanup_attempts, grid_cleanup_length. split_and!; try done.
  intros j Hj. apply Hall. lia.
Qed.

Lemma grid_well_formed_settle s (r : Runtime (option string) (list Product)) :
  controllers r = controllers (rt s) ->
  lifecycle r = lifecycle (rt s) ->
  length (attempts r) = length (attempts (rt s)) ->
  (∀ j a, attempts r !! j = Some a ->
     ∃ a0, attempts (rt s) !! j = Some a0 ∧ att_url a0 = att_url a ∧
           att_controller a0 = att_controller a) ->
  well_formed s -> well_formed (set_rt r s).
Proof.
  intros Hc Hl Hn Hlook (Hlen & Hctl & Hold & Heff). unfold well_formed. simpl.
  rewrite Hc, Hl, Hn. split_and!; try done.
  intros j a Hj. destruct (Hlook j a Hj) as (a0 & Hj0 & _ & <-). by apply Hctl.
Qed.

Lemma grid_well_formed_step windowFetch s ev :
  well_formed s -> well_formed (step windowFetch s ev).
Proof.
  intros Hwf. destruct ev as [apiUrl| |i net|i|]; simpl.
  - destruct (decide (lifecycle (rt s) = Unmounted)); [done|]. by apply grid_well_formed_render.
  - destruct (decide (lifecycle (rt s) = Mounted)); [|done].
    destruct Hwf as (? & ? & ? & ?). unfold well_formed. by simpl.
  - apply grid_well_formed_settle; [..|done].
    + apply fetch_settles_controllers.
    + apply fetch_settles_lifecycle.
    + apply fetch_settles_length.
    + intros j a. apply fetch_settles_lookup.
  - apply grid_well_formed_settle; [..|done].
    + apply json_settles_controllers.
    + apply json_settles_lifecycle.
    + apply json_settles_length.
    + intros j a. apply json_settles_lookup.
  - destruct (decide (lifecycle (rt s) = Mounted)); [|done]. by apply grid_well_formed_unmount.
Qed.

Lemma grid_well_formed_run windowFetch s evs :
  well_formed s -> well_formed (run windowFetch s evs).
Proof.
  revert s. induction evs as [|ev evs IH]; intros s Hwf; [done|].
  simpl. apply IH. by apply grid_well_formed_step.
Qed.

(** *** What a step can do to the cells *)


Lemma callback_stable_step windowFetch s ev :
  callback_stable s -> callback_stable (step windowFetch s ev).
Proof.
  intros [Hr Hm]. destruct ev as [apiUrl| |i net|i|]; simpl; try done.
  - destruct (decide (lifecycle (rt s) = Unmounted)); [done|].
    assert (Hf : default (closures s) (memo s) = 0%nat).
    { by destruct (memo s). }
    destruct (deps_changed apiUrl (refetchTrigger s) (effect s)) eqn:Hd.
    + rewrite useGridData_new_deps by done. split; simpl; [|done].
      apply Forall_app. split; [done|]. by apply Forall_singleton.
    + rewrite useGridData_same_deps by done. split; simpl; [|done].
      apply Forall_app. split; [done|]. by apply Forall_singleton.
  - by destruct (decide (lifecycle (rt s) = Mounted)).
  - by destruct (decide (lifecycle (rt s) = Mounted)).
Qed.

Lemma callback_stable_run windowFetch s evs :
  callback_stable s -> callback_stable (run windowFetch s evs).
Proof.
  revert s. induction evs as [|ev evs IH]; intros s Hs; [done|].
  simpl. apply IH. by apply callback_stable_step.
Qed.

(** [data] changes only when the body of a response has been parsed. *)
Lemma grid_step_data windowFetch s ev :
  data (state (step windowFetch s ev)) = data (state s) ∨
  ∃ i url c r v,
    ev = JsonSettles i ∧
    attempts (rt s) !! i =
      Some {| att_url := url; att_controller := c; att_phase := AwaitingJson r |} ∧
    json (controllers (rt s)) r = Fulfilled v ∧
    data (state (step windowFetch s ev)) = v.
Proof.
  unfold state. destruct ev as [apiUrl| |i net|i|]; simpl.
  - left. destruct (decide (lifecycle (rt s) = Unmounted)); [done|].
    destruct (deps_changed apiUrl (refetchTrigger s) (effect s)) eqn:Hd.
    + rewrite useGridData_new_deps by done. cbv zeta. cbn [rt].
      rewrite call_fetchData_data. simpl. by rewrite grid_cleanup_world.
    + by rewrite useGridData_same_deps.
  - left. by destruct (decide (lifecycle (rt s) = Mounted)).
  - left. apply fetch_settles_data.
  - destruct (json_settles_data errorMessage i (rt s)) as [?|(url&c&r&v&?&?&?)];
      [by left|].
    right. by exists i, url, c, r, v.
  - left. destruct (decide (lifecycle (rt s) = Mounted)); [|done].
    simpl. by rewrite grid_cleanup_world.
Qed.

(** A render whose dependency array is new issues one attempt, for the
    key of the render.  When the call of [fetch] returns, the attempt waits
    and the cells are left at [isLoading = true], [error = null]; when it
    throws anything but an [AbortError], the attempt has returned with the
    error.  [data] is as it was. *)
Lemma grid_render_issues windowFetch apiUrl s :
  lifecycle (rt s) ≠ Unmounted ->
  deps_changed apiUrl (refetchTrigger s) (effect s) = true ->
  let s' := step windowFetch s (Render apiUrl) in
  let c := length (controllers (rt s)) in
  ∃ ph,
    attempts (rt s') =
      attempts (rt s) ++ [{| att_url := apiUrl; att_controller := c; att_phase := ph |}] ∧
    controllers (rt s') !! c = Some false ∧
    match throws windowFetch (controllers (rt s')) apiUrl (Some c) with
    | None =>
        ph = AwaitingFetch ∧
        state s' = {| data := data (state s); isLoading := true; error := None |}
    | Some err =>
        ph = Returned ∧
        (isAbortError err = false ->
         state s' = {| data := data (state s); isLoading := false;
                       error := errorMessage err |})
    end.
Proof.
  intros Hlc Hd s' c. unfold s', state. simpl.
  destruct (decide (lifecycle (rt s) = Unmounted)); [done|].
  rewrite useGridData_new_deps by done. cbv zeta. cbn [rt].
  set (r := cleanup (effect s) (set_lifecycle Mounted (rt s))).
  assert (Hc : length (controllers r) = c) by apply grid_cleanup_length.
  rewrite Hc. rewrite call_fetchData_controllers. cbn [controllers set_controllers].
  set (r' := set_controllers (controllers r ++ [false]) r).
  assert (Hlc' : lifecycle r' = Mounted) by (unfold r', r; simpl; by rewrite grid_cleanup_lifecycle).
  assert (Hw : world r' = world (rt s)) by (unfold r', r; simpl; by rewrite grid_cleanup_world).
  assert (Ha : attempts r' = attempts (rt s)) by (unfold r', r; simpl; by rewrite grid_cleanup_attempts).
  assert (Hcs : controllers r' = controllers r ++ [false]) by done.
  rewrite <- Hcs.
  destruct (throws windowFetch (controllers r') apiUrl (Some c)) as [err|] eqn:Hthrows.
  - destruct (call_fetchData_throws noError errorMessage windowFetch apiUrl c r' err Hthrows)
      as (w' & Hw' & Heq).
    exists Returned. split_and!.
    + by rewrite Heq, <- Ha.
    + rewrite Hcs, lookup_app_r by lia. by rewrite Hc, Nat.sub_diag.
    + done.
    + intros Hne. rewrite (call_fetchData_thrown noError errorMessage windowFetch apiUrl c r' err)
        by done. cbn [hook]. by rewrite Hw.
  - exists AwaitingFetch. split_and!.
    + rewrite call_fetchData_eq by done. cbn [attempts]. by rewrite Ha.
    + rewrite Hcs, lookup_app_r by lia. by rewrite Hc, Nat.sub_diag.
    + done.
    + rewrite call_fetchData_mounted by done. by rewrite Hw.
Qed.

(** Any other step that is not a settlement issues no attempt and leaves
    the cells as they were. *)
Lemma grid_step_quiet windowFetch s ev :
  is_settlement ev = false ->
  (∀ apiUrl, ev = Render apiUrl ->
     lifecycle (rt s) = Unmounted ∨
     deps_changed apiUrl (refetchTrigger s) (effect s) = false) ->
  let s' := step windowFetch s ev in
  attempts (rt s') = attempts (rt s) ∧ state s' = state s.
Proof.
  unfold state. destruct ev as [apiUrl| |i net|i|]; simpl; try done.
  - intros _ Hr. destruct (decide (lifecycle (rt s) = Unmounted)); [done|].
    destruct (Hr apiUrl eq_refl) as [?|Hd]; [done|].
    by rewrite useGridData_same_deps.
  - intros _ _. by destruct (decide (lifecycle (rt s) = Mounted)).
  - intros _ _. destruct (decide (lifecycle (rt s) = Mounted)); [|done].
    simpl. by rewrite grid_cleanup_attempts, grid_cleanup_world.
Qed.

(** *** Calls of [refetchData] *)

Lemma rendered_with_render windowFetch apiUrl s :
  lifecycle (rt s) ≠ Unmounted -> rendered_with apiUrl (useGridData windowFetch apiUrl s).
Proof.
  intros Hlc. destruct (deps_changed apiUrl (refetchTrigger s) (effect s)) eqn:Hd.
  - rewrite useGridData_new_deps by done. cbv zeta. split; cbn [rt effect refetchTrigger].
    + rewrite call_fetchData_lifecycle. simpl. by rewrite grid_cleanup_lifecycle.
    + by eexists.
  - rewrite useGridData_same_deps by done.
    apply grid_deps_changed_false in Hd as (e & He & ? & ?).
    split; [done|]. by exists e.
Qed.

(** A call that the next render sees alone starts one attempt. *)
Lemma refetch_then_render windowFetch apiUrl s :
  rendered_with apiUrl s ->
  let s' := run windowFetch s [Refetch; Render apiUrl] in
  rendered_with apiUrl s' ∧
  refetchTrigger s' = S (refetchTrigger s) ∧
  length (attempts (rt s')) = S (length (attempts (rt s))).
Proof.
  intros (Hlc & e & He & Hu & Ht). simpl.
  destruct (decide (lifecycle (rt s) = Mounted)); [|done].
  destruct (decide (lifecycle (rt (refetchData s)) = Unmounted)) as [Hun|Hun].
  { simpl in Hun. congruence. }
  split; [by apply rendered_with_render|].
  rewrite useGridData_new_deps.
  - cbv zeta. cbn [rt refetchTrigger]. split; [done|].
    rewrite call_fetchData_length. simpl. by rewrite grid_cleanup_attempts.
  - simpl. rewrite He. simpl. apply negb_true_iff, bool_decide_eq_false. lia.
Qed.

Lemma refetch_render_each windowFetch apiUrl n s :
  rendered_with apiUrl s ->
  let s' := run windowFetch s (concat (replicate n [Refetch; Render apiUrl])) in
  rendered_with apiUrl s' ∧
  refetchTrigger s' = (refetchTrigger s + n)%nat ∧
  length (attempts (rt s')) = (length (attempts (rt s)) + n)%nat.
Proof.
  revert s. induction n as [|n IH]; intros s Hs.
  - simpl. split_and!; [done|lia..].
  - cbn [replicate concat]. cbv zeta. rewrite grid_run_app.
    destruct (refetch_then_render windowFetch apiUrl s Hs) as (Hs' & Ht & Hn).
    destruct (IH _ Hs') as (Hs'' & Ht' & Hn').
    split_and!; [done|..].
    + rewrite Ht', Ht. lia.
    + rewrite Hn', Hn. lia.
Qed.

Lemma refetch_only windowFetch n s :
  lifecycle (rt s) = Mounted ->
  run windowFetch s (replicate n Refetch) =
    {| rt := rt s; refetchTrigger := (n + refetchTrigger s)%nat; effect := effect s;
       memo := memo s; closures := closures s; renders := renders s |}.
Proof.
  revert s. induction n as [|n IH]; intros s Hlc.
  - by destruct s.
  - cbn [replicate]. rewrite grid_run_cons. cbn [step].
    destruct (decide (lifecycle (rt s) = Mounted)); [|done].
    rewrite IH by done. simpl. f_equal. lia.
Qed.

(** Calls that one render sees together start one attempt between them. *)
Lemma refetch_batch windowFetch apiUrl n s :
  rendered_with apiUrl s ->
  let s' := run windowFetch s (replicate (S n) Refetch ++ [Render apiUrl]) in
  rendered_with apiUrl s' ∧
  refetchTrigger s' = (refetchTrigger s + S n)%nat ∧
  length (attempts (rt s')) = S (length (attempts (rt s))).
Proof.
  intros (Hlc & e & He & Hu & Ht). cbv zeta.
  rewrite grid_run_snoc, refetch_only by done. simpl.
  destruct (decide (lifecycle (rt s) = Unmounted)); [congruence|].
  split; [apply rendered_with_render; simpl; congruence|].
  rewrite useGridData_new_deps.
  - cbv zeta. cbn [rt refetchTrigger]. split; [lia|].
    rewrite call_fetchData_length. simpl. by rewrite grid_cleanup_attempts.
  - simpl. rewrite He. simpl. apply negb_true_iff, bool_decide_eq_false. lia.
Qed.

(** *** Stale attempts under the browser's [fetch] *)

Lemma responses_tied_step s ev :
  responses_tied (rt s) -> responses_tied (rt (step browserFetch s ev)).
Proof.
  intros Htied. destruct ev as [apiUrl| |i net|i|]; simpl.
  - destruct (decide (lifecycle (rt s) = Unmounted)); [done|].
    destruct (deps_changed apiUrl (refetchTrigger s) (effect s)) eqn:Hd.
    + rewrite useGridData_new_deps by done. cbv zeta. cbn [rt].
      apply responses_tied_call. intros i a r. simpl. rewrite grid_cleanup_attempts.
      apply Htied.
    + by rewrite useGridData_same_deps.
  - by destruct (decide (lifecycle (rt s) = Mounted)).
  - by apply responses_tied_fetch_settles.
  - by apply responses_tied_json_settles.
  - destruct (decide (lifecycle (rt s) = Mounted)); [|done].
    intros i a r. simpl. rewrite grid_cleanup_attempts. apply Htied.
Qed.

Lemma responses_tied_run s evs :
  responses_tied (rt s) -> responses_tied (rt (run browserFetch s evs)).
Proof.
  revert s. induction evs as [|ev evs IH]; intros s Hs; [done|].
  rewrite grid_run_cons. apply IH. by apply responses_tied_step.
Qed.

(** With the browser's [fetch], whatever has happened to an instance, the
    settlement of any attempt but the newest changes neither the cells nor
    the console. *)
Lemma browser_ignores_stale_attempts evs i ev :
  let s := run browserFetch initial evs in
  (S i < length (attempts (rt s)))%nat ->
  (ev = JsonSettles i ∨ ∃ net, ev = FetchSettles i net) ->
  world (rt (step browserFetch s ev)) = world (rt s).
Proof.
  intros s Hi Hev.
  assert (Hwf : well_formed s) by apply grid_well_formed_run, grid_well_formed_initial.
  assert (Htied : responses_tied (rt s)) by (by apply responses_tied_run).
  destruct Hwf as (Hlen & Hctl & Hold & _).
  destruct (lookup_lt_is_Some_2 (attempts (rt s)) i) as [a Ha]; [lia|].
  assert (Habort : aborted (controllers (rt s)) (Some (att_controller a)) = true).
  { simpl. rewrite (Hctl i a Ha), (Hold i Hi). done. }
  destruct (browser_settles_aborted errorMessage i a (rt s) Htied Ha Habort) as [Hf Hj].
  destruct Hev as [->|[net ->]]; simpl; [apply Hj|apply Hf].
Qed.

(** *** The race the hook is written against

    The key changes from [/a] to [/b] while the request for [/a] is
    pending; [/b] answers first, [/a] afterwards. *)

(** On the browser's [fetch] the answer for [/a] is discarded. *)
Example key_change_on_browser_fetch :
  state (run browserFetch initial
           [Render "/a"; Render "/b";
            FetchSettles 1 (reply_ok products2); JsonSettles 1;
            FetchSettles 0 (reply_ok products1); JsonSettles 0]) =
    {| data := Some products2; isLoading := false; error := None |}.
Proof. vm_compute. reflexivity. Qed.

(** With two mock endpoints for keys, on the [window.fetch] of the
    application, the late answer for the old key overwrites [data]. *)
Example key_change_on_app_fetch :
  state (run (appFetch v8) initial
           [Render "/api/products/widgets"; Render "/api/products/featured";
            FetchSettles 1 (reply_ok products2); JsonSettles 1;
            FetchSettles 0 (reply_ok products1); JsonSettles 0]) =
    {| data := Some products1; isLoading := false; error := None |}.
Proof. vm_compute. reflexivity. Qed.

(** *** [data] before the first success *)

(** What a render returns is the cells at the time of the render. *)
Lemma grid_step_renders windowFetch s ev :
  renders (step windowFetch s ev) = renders s ∨
  ∃ f, renders (step windowFetch s ev) =
         renders s ++
           [{| res_data := data (state s); res_isLoading := isLoading (state s);
               res_error := error (state s); res_refetchData := f |}].
Proof.
  destruct ev as [apiUrl| |i net|i|]; simpl; try by left.
  - destruct (decide (lifecycle (rt s) = Unmounted)); [by left|].
    right. destruct (deps_changed apiUrl (refetchTrigger s) (effect s)) eqn:Hd.
    + rewrite useGridData_new_deps by done. by eexists.
    + rewrite useGridData_same_deps by done. by eexists.
  - left. by destruct (decide (lifecycle (rt s) = Mounted)).
  - left. by destruct (decide (lifecycle (rt s) = Mounted)).
Qed.

Lemma grid_renders_null_run windowFetch evs :
  (∀ i, JsonSettles i ∉ evs) ->
  Forall (λ r, res_data r = None) (renders (run windowFetch initial evs)).
Proof.
  intros Hevs.
  assert (H : ∀ s, data (state s) = None -> Forall (λ r, res_data r = None) (renders s) ->
              Forall (λ r, res_data r = None) (renders (run windowFetch s evs))).
  { induction evs as [|ev evs IH]; intros s Hd Hr; [done|].
    rewrite grid_run_cons. apply IH.
    - intros i Hi. apply (Hevs i). by right.
    - destruct (grid_step_data windowFetch s ev) as [->|(i & _ & _ & _ & _ & -> & _)]; [done|].
      destruct (Hevs i). by left.
    - destruct (grid_step_renders windowFetch s ev) as [->|(f & ->)]; [done|].
      apply Forall_app. split; [done|]. by apply Forall_singleton. }
  by apply H.
Qed.

(** *** The counter of [refetchData] *)

(** The counter an effect has seen is never ahead of the counter. *)
Lemma trigger_bound_step windowFetch s ev :
  (∀ e, effect s = Some e -> (dep_refetchTrigger e <= refetchTrigger s)%nat) ->
  ∀ e, effect (step windowFetch s ev) = Some e ->
       (dep_refetchTrigger e <= refetchTrigger (step windowFetch s ev))%nat.
Proof.
  intros Hs. destruct ev as [apiUrl| |i net|i|]; simpl; try done.
  - destruct (decide (lifecycle (rt s) = Unmounted)); [done|].
    destruct (deps_changed apiUrl (refetchTrigger s) (effect s)) eqn:Hd.
    + rewrite useGridData_new_deps by done. simpl. by intros e [= <-].
    + by rewrite useGridData_same_deps.
  - destruct (decide (lifecycle (rt s) = Mounted)) as [_|]; [|done].
    simpl. intros e He. specialize (Hs e He). lia.
  - by destruct (decide (lifecycle (rt s) = Mounted)).
Qed.

Lemma trigger_bound_run windowFetch evs e :
  effect (run windowFetch initial evs) = Some e ->
  (dep_refetchTrigger e <= refetchTrigger (run windowFetch initial evs))%nat.
Proof.
  assert (H : ∀ s, (∀ e, effect s = Some e -> (dep_refetchTrigger e <= refetchTrigger s)%nat) ->
              ∀ e, effect (run windowFetch s evs) = Some e ->
                   (dep_refetchTrigger e <= refetchTrigger (run windowFetch s evs))%nat).
  { induction evs as [|ev evs IH]; intros s Hs; [done|].
    rewrite grid_run_cons. apply IH. by apply trigger_bound_step. }
  revert e. apply H. done.
Qed.

(** After a call of [refetchData] on a mounted component the dependency
    array of the next render is new, whatever the key. *)
Lemma refetch_changes_deps windowFetch evs apiUrl :
  let s := run windowFetch initial evs in
  lifecycle (rt s) = Mounted ->
  let s' := step windowFetch s Refetch in
  refetchTrigger s' = S (refetchTrigger s) ∧
  deps_changed apiUrl (refetchTrigger s') (effect s') = true.
Proof.
  intros s Hlc s'. unfold s'. simpl.
  destruct (decide (lifecycle (rt s) = Mounted)) as [_|]; [|done]. simpl. split; [done|].
  destruct (effect s) as [e|] eqn:He; [|done]. simpl.
  pose proof (trigger_bound_run windowFetch evs e He). fold s in H.
  rewrite bool_decide_eq_false_2; [done|]. intros [_ ?]. lia.
Qed.

End GridDataFacts.

(** ** Unit B *)

Module PollingFacts.

Import AttemptFacts RuntimeFacts UsePollingFetch.

Section WithData.
Context {T : Type}.

Implicit Types (s : Instance T) (ev : Event T) (evs : list (Event T)).
Implicit Types (windowFetch : FetchImpl T) (r : Runtime bool T) (ts : list Timer).

Lemma poll_run_cons windowFetch s ev evs :
  run windowFetch s (ev :: evs) = run windowFetch (step windowFetch s ev) evs.
Proof. reflexivity. Qed.

Lemma poll_run_snoc windowFetch s evs ev :
  run windowFetch s (evs ++ [ev]) = step windowFetch (run windowFetch s evs) ev.
Proof. unfold run. by rewrite foldl_snoc. Qed.

Lemma poll_run_app windowFetch s evs1 evs2 :
  run windowFetch s (evs1 ++ evs2) = run windowFetch (run windowFetch s evs1) evs2.
Proof. unfold run. by rewrite foldl_app. Qed.

(** *** Numbers and delays *)

Lemma Qc_of_Z_num (n : Z) : Qnum (Qc_of_Z n) = n.
Proof.
  unfold Qc_of_Z, Q2Qc, inject_Z. cbn [this Qnum].
  unfold Qred. pose proof (Z.ggcd_correct_divisors n 1) as Hdiv.
  pose proof (Z.ggcd_gcd n 1) as Hgcd. rewrite Z.gcd_1_r in Hgcd.
  destruct (Z.ggcd n 1) as [g [a b]]. cbn [fst snd] in *. subst g.
  destruct Hdiv as [-> _]. cbn [Qnum]. lia.
Qed.

Lemma Qc_of_Z_den (n : Z) : Qden (Qc_of_Z n) = 1%positive.
Proof.
  unfold Qc_of_Z, Q2Qc, inject_Z. cbn [this Qden].
  unfold Qred. pose proof (Z.ggcd_correct_divisors n 1) as Hdiv.
  pose proof (Z.ggcd_gcd n 1) as Hgcd. rewrite Z.gcd_1_r in Hgcd.
  destruct (Z.ggcd n 1) as [g [a b]]. cbn [fst snd] in *. subst g.
  destruct Hdiv as [_ Hb]. cbn [Qden].
  assert (b = 1) as -> by lia. done.
Qed.

Lemma truncate_whole (n : Z) : truncate (Qc_of_Z n) = n.
Proof. unfold truncate. rewrite Qc_of_Z_num, Qc_of_Z_den. apply Z.quot_1_r. Qed.

Lemma wrap32_small (z : Z) : - 2 ^ 31 <= z < 2 ^ 31 -> wrap32 z = z.
Proof.
  intros Hz. unfold wrap32.
  destruct (decide (0 <= z)).
  - rewrite Z.mod_small by lia. destruct (2 ^ 31 <=? z) eqn:Hc; [|done].
    apply Z.leb_le in Hc. lia.
  - replace (z mod 2 ^ 32) with (z + 2 ^ 32).
    + destruct (2 ^ 31 <=? z + 2 ^ 32) eqn:Hc; [lia|]. apply Z.leb_gt in Hc. lia.
    + apply (Z.mod_unique _ _ (-1)); lia.
Qed.

(** A whole delay that fits 31 bits is the delay of the timer. *)
Lemma timer_delay_whole (n : Z) :
  0 <= n < 2 ^ 31 -> timer_delay (whole n) = n.
Proof.
  intros Hn. unfold timer_delay, whole. rewrite truncate_whole, wrap32_small by lia. lia.
Qed.

Lemma timer_delay_nonneg (n : Number) : 0 <= timer_delay n.
Proof. destruct n; simpl; lia. Qed.


Lemma polls_Some interval : polls interval = true -> ∃ n, interval = Some n.
Proof. destruct interval as [n|]; [by exists n|done]. Qed.

(** *** Timers *)

Lemma clearInterval_newest old t :
  Forall (λ t', cleared t' = true) old ->
  Forall (λ t', cleared t' = true) (clearInterval (length (old ++ [t])) (old ++ [t])).
Proof.
  intros Hold. rewrite length_app. simpl.
  replace (length old + 1)%nat with (S (length old + 0)) by lia.
  unfold clearInterval. rewrite alter_app_r. simpl.
  apply Forall_app. split; [done|]. by apply Forall_singleton.
Qed.

(** *** Renders *)

Lemma usePollingFetch_same_deps windowFetch url interval s :
  deps_changed url interval (effect s) = false ->
  usePollingFetch windowFetch url interval s =
    {| rt := set_lifecycle Mounted (rt s); effect := effect s; timers := timers s;
       now := now s;
       renders := renders s ++
         [{| res_data := data (state s); res_isLoading := isLoading (state s);
             res_error := error (state s) |}] |}.
Proof. intros Hd. unfold usePollingFetch. rewrite Hd. reflexivity. Qed.

Lemma usePollingFetch_new_deps windowFetch url interval s :
  deps_changed url interval (effect s) = true ->
  usePollingFetch windowFetch url interval s =
    let cl := cleanup (effect s) (set_lifecycle Mounted (rt s)) (timers s) in
    let c := length (controllers cl.1) in
    {| rt := call_fetchData noError errorFlag windowFetch url c
               (set_controllers (controllers cl.1 ++ [false]) cl.1);
       effect := Some {| dep_url := url; dep_interval := interval; abortController := c;
                         intervalId := if polls interval then Some (S (length cl.2))
                                       else None |};
       timers := if polls interval then
                   cl.2 ++ [{| delay := timer_delay (default NaN interval);
                               due := now s + timer_delay (default NaN interval);
                               timer_url := url; timer_controller := c; cleared := false |}]
                 else cl.2;
       now := now s;
       renders := renders s ++
         [{| res_data := data (state s); res_isLoading := isLoading (state s);
             res_error := error (state s) |}] |}.
Proof.
  intros Hd. unfold usePollingFetch. rewrite Hd. unfold run_effect.
  destruct (cleanup (effect s) (set_lifecycle Mounted (rt s)) (timers s)) as [r1 ts1].
  simpl. by destruct (polls interval).
Qed.

Lemma poll_deps_changed_false url interval e :
  deps_changed url interval e = false <->
  ∃ e', e = Some e' ∧ dep_url e' = url ∧ dep_interval e' = interval.
Proof.
  unfold deps_changed. destruct e as [e'|].
  - rewrite negb_false_iff, bool_decide_eq_true. split.
    + intros [? ?]. by exists e'.
    + intros (? & [= <-] & ? & ?). done.
  - split; [done|]. by intros (? & ? & _).
Qed.

Lemma poll_cleanup_attempts e r ts : attempts (cleanup e r ts).1 = attempts r.
Proof. by destruct e. Qed.

Lemma poll_cleanup_lifecycle e r ts : lifecycle (cleanup e r ts).1 = lifecycle r.
Proof. by destruct e. Qed.

Lemma poll_cleanup_world e r ts : world (cleanup e r ts).1 = world r.
Proof. by destruct e. Qed.


Lemma poll_cleanup_length e r ts :
  length (controllers (cleanup e r ts).1) = length (controllers r).
Proof. destruct e; [|done]. simpl. unfold abort. apply length_insert. Qed.

(** *** The tick of a timer *)

(** In a reachable instance the only timer that can run is the one of the
    current effect: a tick does nothing, or issues one attempt for the
    effect's [url] with the effect's controller and sets the timer back by
    its delay. *)
Lemma tick_cases windowFetch handle s :
  well_formed s ->
  tick windowFetch handle s = s ∨
  ∃ e old t,
    effect s = Some e ∧ polls (dep_interval e) = true ∧
    lifecycle (rt s) = Mounted ∧
    timers s = old ++ [t] ∧ Forall (λ t', cleared t' = true) old ∧
    handle = length (timers s) ∧ intervalId e = Some handle ∧
    cleared t = false ∧ due t <= now s ∧
    delay t = timer_delay (default NaN (dep_interval e)) ∧
    tick windowFetch handle s =
      {| rt := call_fetchData noError errorFlag windowFetch
                 (dep_url e) (abortController e) (rt s);
         effect := effect s;
         timers := old ++ [{| delay := delay t; due := due t + delay t;
                              timer_url := timer_url t;
                              timer_controller := timer_controller t;
                              cleared := false |}];
         now := now s;
         renders := renders s |}.
Proof.
  intros (Hctl & Hold & Heff). unfold tick.
  destruct handle as [|i]; [by left|].
  destruct (timers s !! i) as [t|] eqn:Hi; [|by left].
  destruct (cleared t) eqn:Hcl; [by left|]. simpl.
  destruct (due t <=? now s) eqn:Hdue; [|by left].
  apply Z.leb_le in Hdue. right.
  assert (Hlive : ¬ Forall (λ t', cleared t' = true) (timers s)).
  { intros Hall. rewrite Forall_lookup in Hall. specialize (Hall i t Hi). congruence. }
  destruct (effect s) as [e|]; [|by destruct Heff as (_ & _ & ?)].
  destruct Heff as (Hlc & Hlast & Hc & Hurl & Hpoll).
  destruct (polls (dep_interval e)) eqn:Hp; [|by destruct Hpoll].
  destruct Hpoll as (old & t0 & Hts & Hcls & Ht0 & Hid & Htc & Htu & Hdl & Hd0).
  rewrite Hts in Hi.
  apply lookup_app_Some in Hi as [Hi|[Hge Hi]].
  { rewrite Forall_lookup in Hcls. specialize (Hcls i t Hi). congruence. }
  apply list_lookup_singleton_Some in Hi as [Hi <-].
  assert (i = length old) as -> by lia.
  exists e, old, t0. split_and!; try done.
  - rewrite Hts, length_app. simpl. lia.
  - rewrite Hid, Hts, length_app. simpl. f_equal. lia.
  - rewrite Htu, Htc, Hts. f_equal.
    rewrite insert_app_r_alt by lia. by rewrite Nat.sub_diag.
Qed.

(** *** The shape of reachable instances *)

Lemma poll_well_formed_initial : well_formed (initial (T:=T)).
Proof.
  unfold well_formed. simpl. split_and!; try done.
  - intros c Hc. lia.
  - intros c Hc. lia.
Qed.

(** After the cleanup of the last effect every controller is aborted and
    every timer is cleared. *)
Lemma cleanup_spec s r :
  well_formed s ->
  controllers r = controllers (rt s) ->
  (∀ c, (c < length (controllers (rt s)))%nat ->
        controllers (cleanup (effect s) r (timers s)).1 !! c = Some true) ∧
  Forall (λ t, cleared t = true) (cleanup (effect s) r (timers s)).2.
Proof.
  intros (Hctl & Hold & Heff) Hr. destruct (effect s) as [e|]; simpl.
  - destruct Heff as (_ & Hlast & Hlive & _ & Hpoll). split.
    + intros c Hc. rewrite Hr. unfold abort.
      destruct (decide (abortController e = c)) as [->|Hne].
      * by apply list_lookup_insert_eq.
      * rewrite list_lookup_insert_ne by done. apply Hold. lia.
    + destruct (polls (dep_interval e)).
      * destruct Hpoll as (old & t & Hts & Hcl & _ & Hid & _).
        rewrite Hid, Hts. rewrite length_app at 1. simpl.
        replace (length old + 1)%nat with (S (length old)) by lia.
        change (Forall (λ t0, cleared t0 = true)
                  (clearInterval (S (length old)) (old ++ [t]))).
        replace (S (length old)) with (length (old ++ [t]))
          by (rewrite length_app; simpl; lia).
        by apply clearInterval_newest.
      * destruct Hpoll as [-> ?]. done.
  - destruct Heff as (_ & Hall & Hts). split; [|done].
    intros c Hc. rewrite Hr. by apply Hall.
Qed.

Lemma poll_well_formed_render windowFetch url interval s :
  lifecycle (rt s) ≠ Unmounted -> well_formed s ->
  well_formed (usePollingFetch windowFetch url interval s).
Proof.
  intros Hlc Hwf.
  destruct (deps_changed url interval (effect s)) eqn:Hd.
  - rewrite usePollingFetch_new_deps by done. cbv zeta.
    destruct (cleanup_spec s (set_lifecycle Mounted (rt s)) Hwf eq_refl) as [Hall Hts].
    pose proof (poll_cleanup_length (effect s) (set_lifecycle Mounted (rt s)) (timers s)) as Hcl.
    pose proof (poll_cleanup_attempts (effect s) (set_lifecycle Mounted (rt s)) (timers s)) as Hat.
    pose proof (poll_cleanup_lifecycle (effect s) (set_lifecycle Mounted (rt s)) (timers s)) as Hlf.
    destruct (cleanup (effect s) (set_lifecycle Mounted (rt s)) (timers s)) as [r1 ts1].
    simpl in Hall, Hts, Hcl, Hat, Hlf.
    destruct Hwf as (Hctl & _ & _). cbn [fst snd].
    destruct (call_fetchData_cases noError errorFlag windowFetch url (length (controllers r1))
                (set_controllers (controllers r1 ++ [false]) r1)) as (ph & w' & _ & _ & ->).
    unfold well_formed. simpl.
    rewrite Hat, !length_app, Hcl. simpl.
    split_and!.
    + intros j a Hj. apply lookup_app_Some in Hj as [Hj|[_ Hj]].
      * specialize (Hctl j a Hj). lia.
      * apply list_lookup_singleton_Some in Hj as [_ <-]. simpl. lia.
    + intros c Hc. rewrite lookup_app_l by lia. apply Hall. lia.
    + done.
    + lia.
    + rewrite lookup_app_r by lia. by rewrite Hcl, Nat.sub_diag.
    + intros j a Hj Hc. apply lookup_app_Some in Hj as [Hj|[_ Hj]].
      * specialize (Hctl j a Hj). lia.
      * by apply list_lookup_singleton_Some in Hj as [_ <-].
    + destruct (polls interval) eqn:Hp; [|done].
      eexists ts1, _. split_and!; try done; try (simpl; lia).
      rewrite length_app. simpl. f_equal. lia.
  - rewrite usePollingFetch_same_deps by done.
    apply poll_deps_changed_false in Hd as (e & He & _).
    destruct Hwf as (Hctl & Hold & Heff).
    unfold well_formed. simpl. rewrite He in Heff |- *.
    destruct Heff as (? & ? & ? & ? & ?). split_and!; done.
Qed.

Lemma poll_well_formed_unmount s :
  lifecycle (rt s) = Mounted -> well_formed s -> well_formed (unmount s).
Proof.
  intros Hlc Hwf. unfold unmount.
  destruct (cleanup_spec s (rt s) Hwf eq_refl) as [Hall Hts].
  pose proof (poll_cleanup_length (effect s) (rt s) (timers s)) as Hcl.
  pose proof (poll_cleanup_attempts (effect s) (rt s) (timers s)) as Hat.
  destruct (cleanup (effect s) (rt s) (timers s)) as [r1 ts1].
  simpl in Hall, Hts, Hcl, Hat.
  destruct Hwf as (Hctl & _ & _).
  unfold well_formed. simpl. rewrite Hat, Hcl. split_and!; try done.
  - intros c Hc. apply Hall. lia.
Qed.

Lemma poll_well_formed_settle s r :
  controllers r = controllers (rt s) ->
  lifecycle r = lifecycle (rt s) ->
  (∀ j a, attempts r !! j = Some a ->
     ∃ a0, attempts (rt s) !! j = Some a0 ∧ att_url a0 = att_url a ∧
           att_controller a0 = att_controller a) ->
  well_formed s -> well_formed (set_rt r s).
Proof.
  intros Hc Hl Hlook (Hctl & Hold & Heff). unfold well_formed. simpl.
  rewrite Hc, Hl. split_and!; try done.
  - intros j a Hj. destruct (Hlook j a Hj) as (a0 & Hj0 & _ & <-). by eapply Hctl.
  - destruct (effect s) as [e|]; [|done].
    destruct Heff as (? & ? & ? & Hurl & ?). split_and!; try done.
    intros j a Hj Ha. destruct (Hlook j a Hj) as (a0 & Hj0 & <- & Hc0).
    eapply Hurl; [done|]. congruence.
Qed.

Lemma well_formed_elapse ms s : well_formed s -> well_formed (elapse ms s).
Proof.
  intros (Hctl & Hold & Heff). unfold well_formed, elapse. simpl.
  split_and!; try done.
  destruct (effect s) as [e|]; [|done].
  destruct Heff as (Hlc & Hlast & Hlive & Hurl & Hpoll). split_and!; try done.
  destruct (polls (dep_interval e)); [|done].
  destruct Hpoll as (old & t & Hts & Hcl & Ht & Hid & Htc & Htu & Hdl & Hdue).
  exists old, t. split_and!; try done. lia.
Qed.

Lemma well_formed_tick windowFetch handle s :
  well_formed s -> well_formed (tick windowFetch handle s).
Proof.
  intros Hwf.
  destruct (tick_cases windowFetch handle s Hwf)
    as [->|(e & old & t & He & Hp & Hlc & Hts & Hcls & Hh & Hid & Hcl & Hdue & Hdl & ->)];
    [done|].
  destruct Hwf as (Hctl & Hold & Heff). rewrite He in Heff.
  destruct Heff as (_ & Hlast & Hlive & Hurl & Hpoll). rewrite Hp in Hpoll.
  destruct Hpoll as (old' & t' & Hts' & _ & _ & _ & Htc & Htu & _ & _).
  rewrite Hts in Hts'. apply app_inj_tail in Hts' as [<- <-].
  destruct (call_fetchData_cases noError errorFlag windowFetch (dep_url e) (abortController e)
              (rt s)) as (ph & w' & _ & _ & ->).
  unfold well_formed. simpl. rewrite He, Hp.
  split_and!; try done.
  - intros j a Hj. apply lookup_app_Some in Hj as [Hj|[_ Hj]].
    + by eapply Hctl.
    + apply list_lookup_singleton_Some in Hj as [_ <-]. simpl. lia.
  - intros j a Hj Ha. apply lookup_app_Some in Hj as [Hj|[_ Hj]].
    + by eapply Hurl.
    + by apply list_lookup_singleton_Some in Hj as [_ <-].
  - eexists old, _. split_and!; try done; try (simpl; lia).
    by rewrite Hid, Hh, Hts, !length_app.
Qed.

Lemma poll_well_formed_step windowFetch s ev :
  well_formed s -> well_formed (step windowFetch s ev).
Proof.
  intros Hwf. destruct ev as [url interval|i net|i|ms|handle|]; simpl.
  - destruct (decide (lifecycle (rt s) = Unmounted)); [done|]. by apply poll_well_formed_render.
  - apply poll_well_formed_settle; [..|done].
    + apply fetch_settles_controllers.
    + apply fetch_settles_lifecycle.
    + intros j a. apply fetch_settles_lookup.
  - apply poll_well_formed_settle; [..|done].
    + apply json_settles_controllers.
    + apply json_settles_lifecycle.
    + intros j a. apply json_settles_lookup.
  - by apply well_formed_elapse.
  - by apply well_formed_tick.
  - destruct (decide (lifecycle (rt s) = Mounted)); [|done]. by apply poll_well_formed_unmount.
Qed.

Lemma poll_well_formed_run windowFetch s evs :
  well_formed s -> well_formed (run windowFetch s evs).
Proof.
  revert s. induction evs as [|ev evs IH]; intros s Hwf; [done|].
  rewrite poll_run_cons. apply IH. by apply poll_well_formed_step.
Qed.

(** *** What a step can do to the cells *)


(** [data] changes only when the body of a response has been parsed, and
    then to what the body parsed to. *)
Lemma poll_step_data windowFetch s ev :
  data (state (step windowFetch s ev)) = data (state s) ∨
  ∃ i url c resp v,
    ev = JsonSettles i ∧
    attempts (rt s) !! i =
      Some {| att_url := url; att_controller := c; att_phase := AwaitingJson resp |} ∧
    json (controllers (rt s)) resp = Fulfilled v ∧
    data (state (step windowFetch s ev)) = v.
Proof.
  unfold state. destruct ev as [url interval|i net|i|ms|handle|]; simpl.
  - left. destruct (decide (lifecycle (rt s) = Unmounted)); [done|].
    destruct (deps_changed url interval (effect s)) eqn:Hd.
    + rewrite usePollingFetch_new_deps by done. cbv zeta. cbn [rt].
      rewrite call_fetchData_data. simpl. by rewrite poll_cleanup_world.
    + by rewrite usePollingFetch_same_deps.
  - left. apply fetch_settles_data.
  - destruct (json_settles_data errorFlag i (rt s)) as [?|(url&c&resp&v&?&?&?)];
      [by left|].
    right. by exists i, url, c, resp, v.
  - by left.
  - left. unfold tick. destruct handle as [|i]; [done|].
    destruct (timers s !! i) as [t|]; [|done].
    destruct (negb (cleared t) && (due t <=? now s)); [|done].
    apply call_fetchData_data.
  - left. destruct (decide (lifecycle (rt s) = Mounted)); [|done].
    unfold unmount. pose proof (poll_cleanup_world (effect s) (rt s) (timers s)) as Hw.
    destruct (cleanup _ _ _). simpl in *. by rewrite Hw.
Qed.

(** What a call of [fetchData] on a mounted component leaves behind. *)
Lemma call_issues windowFetch url c r :
  lifecycle r = Mounted ->
  ∃ ph,
    attempts (call_fetchData noError errorFlag windowFetch url c r) =
      attempts r ++ [{| att_url := url; att_controller := c; att_phase := ph |}] ∧
    match throws windowFetch (controllers r) url (Some c) with
    | None =>
        ph = AwaitingFetch ∧
        hook (world (call_fetchData noError errorFlag windowFetch url c r)) =
          {| data := data (hook (world r)); isLoading := true; error := false |}
    | Some err =>
        ph = Returned ∧
        (isAbortError err = false ->
         hook (world (call_fetchData noError errorFlag windowFetch url c r)) =
           {| data := data (hook (world r)); isLoading := false; error := true |})
    end.
Proof.
  intros Hlc.
  destruct (throws windowFetch (controllers r) url (Some c)) as [err|] eqn:Hthrows.
  - destruct (call_fetchData_throws noError errorFlag windowFetch url c r err Hthrows)
      as (w' & Hw' & Heq).
    exists Returned. split_and!; [by rewrite Heq|done|].
    intros Hne.
    by rewrite (call_fetchData_thrown noError errorFlag windowFetch url c r err).
  - exists AwaitingFetch. split_and!.
    + by rewrite call_fetchData_eq.
    + done.
    + by rewrite call_fetchData_mounted.
Qed.

(** A render whose dependency array is new issues one attempt, for the
    [url] of the render. *)
Lemma poll_render_issues windowFetch url interval s :
  lifecycle (rt s) ≠ Unmounted ->
  deps_changed url interval (effect s) = true ->
  let s' := step windowFetch s (Render url interval) in
  let c := length (controllers (rt s)) in
  ∃ ph,
    attempts (rt s') =
      attempts (rt s) ++ [{| att_url := url; att_controller := c; att_phase := ph |}] ∧
    controllers (rt s') !! c = Some false ∧
    match throws windowFetch (controllers (rt s')) url (Some c) with
    | None =>
        ph = AwaitingFetch ∧
        state s' = {| data := data (state s); isLoading := true; error := false |}
    | Some err =>
        ph = Returned ∧
        (isAbortError err = false ->
         state s' = {| data := data (state s); isLoading := false; error := true |})
    end.
Proof.
  intros Hlc Hd s' c. unfold s', state. simpl.
  destruct (decide (lifecycle (rt s) = Unmounted)); [done|].
  rewrite usePollingFetch_new_deps by done. cbv zeta. cbn [rt].
  pose proof (poll_cleanup_length (effect s) (set_lifecycle Mounted (rt s)) (timers s)) as Hc.
  pose proof (poll_cleanup_lifecycle (effect s) (set_lifecycle Mounted (rt s)) (timers s)) as Hl.
  pose proof (poll_cleanup_world (effect s) (set_lifecycle Mounted (rt s)) (timers s)) as Hw.
  pose proof (poll_cleanup_attempts (effect s) (set_lifecycle Mounted (rt s)) (timers s)) as Ha.
  destruct (cleanup (effect s) (set_lifecycle Mounted (rt s)) (timers s)) as [r ts].
  cbn [fst snd] in *. simpl in Hc, Hl, Hw, Ha. fold c in Hc. rewrite Hc.
  rewrite call_fetchData_controllers. cbn [controllers set_controllers].
  set (r' := set_controllers (controllers r ++ [false]) r).
  destruct (call_issues windowFetch url c r') as (ph & Hatt & Hst); [done|].
  exists ph. split_and!.
  - by rewrite Hatt, <- Ha.
  - rewrite lookup_app_r by lia. by rewrite Hc, Nat.sub_diag.
  - change (controllers r ++ [false]) with (controllers r').
    destruct (throws windowFetch (controllers r') url (Some c)) as [err|].
    + destruct Hst as [-> Hst]. split; [done|]. intros Hne. rewrite Hst by done.
      by rewrite <- Hw.
    + destruct Hst as [-> Hst]. split; [done|]. rewrite Hst. by rewrite <- Hw.
Qed.

(** The tick of a live timer that is due issues one attempt, for the [url]
    and with the controller its closure captured. *)
Lemma poll_tick_issues windowFetch i t s :
  lifecycle (rt s) = Mounted ->
  timers s !! i = Some t -> cleared t = false -> due t <= now s ->
  let s' := step windowFetch s (Tick (S i)) in
  ∃ ph,
    attempts (rt s') =
      attempts (rt s) ++
        [{| att_url := timer_url t; att_controller := timer_controller t;
            att_phase := ph |}] ∧
    controllers (rt s') = controllers (rt s) ∧
    match throws windowFetch (controllers (rt s)) (timer_url t) (Some (timer_controller t))
    with
    | None =>
        ph = AwaitingFetch ∧
        state s' = {| data := data (state s); isLoading := true; error := false |}
    | Some err =>
        ph = Returned ∧
        (isAbortError err = false ->
         state s' = {| data := data (state s); isLoading := false; error := true |})
    end.
Proof.
  intros Hlc Hi Hcl Hdue s'. unfold s', state. simpl. unfold tick.
  rewrite Hi, Hcl. simpl. apply Z.leb_le in Hdue. rewrite Hdue. cbn [rt].
  rewrite call_fetchData_controllers.
  destruct (call_issues windowFetch (timer_url t) (timer_controller t) (rt s) Hlc)
    as (ph & Hatt & Hst).
  by exists ph.
Qed.

(** A step that is neither a settlement, nor a render with a new
    dependency array, nor the tick of a live timer that is due, issues no
    attempt and leaves the cells as they were. *)
Lemma poll_step_quiet windowFetch s ev :
  is_settlement ev = false ->
  (∀ url interval, ev = Render url interval ->
     lifecycle (rt s) = Unmounted ∨ deps_changed url interval (effect s) = false) ->
  (∀ i t, ev = Tick (S i) -> timers s !! i = Some t ->
     cleared t = true ∨ now s < due t) ->
  let s' := step windowFetch s ev in
  attempts (rt s') = attempts (rt s) ∧ state s' = state s.
Proof.
  unfold state. destruct ev as [url interval|i net|i|ms|handle|]; simpl; try done.
  - intros _ Hr _. destruct (decide (lifecycle (rt s) = Unmounted)); [done|].
    destruct (Hr url interval eq_refl) as [?|Hd]; [done|].
    by rewrite usePollingFetch_same_deps.
  - intros _ _ Ht. unfold tick. destruct handle as [|i]; [done|].
    destruct (timers s !! i) as [t|] eqn:Hi; [|done].
    destruct (Ht i t eq_refl Hi) as [->|Hlt]; [done|].
    destruct (cleared t); [done|]. simpl.
    destruct (due t <=? now s) eqn:Hd; [|done]. apply Z.leb_le in Hd. lia.
  - intros _ _ _. destruct (decide (lifecycle (rt s) = Mounted)); [|done].
    unfold unmount.
    pose proof (poll_cleanup_world (effect s) (rt s) (timers s)) as Hw.
    pose proof (poll_cleanup_attempts (effect s) (rt s) (timers s)) as Ha.
    destruct (cleanup _ _ _). simpl in *. by rewrite Hw, Ha.
Qed.

(** A step adds at most one attempt, and it adds one only by a render or
    a tick. *)
Lemma poll_step_length windowFetch s ev :
  let n := length (attempts (rt s)) in
  let n' := length (attempts (rt (step windowFetch s ev))) in
  n' = n ∨ (n' = S n ∧ ((∃ url interval, ev = Render url interval) ∨ ∃ h, ev = Tick h)).
Proof.
  destruct ev as [url interval|i net|i|ms|handle|]; simpl.
  - destruct (decide (lifecycle (rt s) = Unmounted)); [by left|].
    destruct (deps_changed url interval (effect s)) eqn:Hd.
    + right. rewrite usePollingFetch_new_deps by done. cbv zeta. cbn [rt].
      rewrite call_fetchData_length. simpl. rewrite poll_cleanup_attempts.
      split; [done|]. left. by eexists _, _.
    + left. by rewrite usePollingFetch_same_deps.
  - left. apply fetch_settles_length.
  - left. apply json_settles_length.
  - by left.
  - unfold tick. destruct handle as [|i]; [by left|].
    destruct (timers s !! i) as [t|]; [|by left].
    destruct (negb (cleared t) && (due t <=? now s)); [|by left].
    right. cbn [rt]. rewrite call_fetchData_length. split; [done|]. right. by eexists.
  - left. destruct (decide (lifecycle (rt s) = Mounted)); [|done].
    unfold unmount.
    pose proof (poll_cleanup_attempts (effect s) (rt s) (timers s)) as Ha.
    destruct (cleanup _ _ _). simpl in *. by rewrite Ha.
Qed.

(** *** Ticks and cancellation *)


(** In a reachable instance an attempt is cancelled exactly when it does
    not carry the controller of the current effect. *)
Lemma cancelled_iff_superseded s j a :
  well_formed s ->
  attempts (rt s) !! j = Some a ->
  aborted (controllers (rt s)) (Some (att_controller a)) =
    match effect s with
    | Some e => negb (bool_decide (att_controller a = abortController e))
    | None => true
    end.
Proof.
  intros (Hctl & Hold & Heff) Hj. specialize (Hctl j a Hj). simpl.
  destruct (effect s) as [e|].
  - destruct Heff as (_ & Hlast & Hlive & _).
    destruct (decide (att_controller a = abortController e)) as [->|Hne].
    + rewrite Hlive. simpl. by rewrite bool_decide_eq_true_2.
    + rewrite Hold by lia. simpl. by rewrite bool_decide_eq_false_2.
  - destruct Heff as (_ & Hall & _). by rewrite Hall.
Qed.

(** *** Events that keep the parameters *)

Lemma tick_effect windowFetch handle s : effect (tick windowFetch handle s) = effect s.
Proof.
  unfold tick. destruct handle as [|i]; [done|].
  destruct (timers s !! i) as [t|]; [|done].
  by destruct (negb (cleared t) && (due t <=? now s)).
Qed.

Lemma keeps_effect windowFetch url interval e s ev :
  effect s = Some e -> dep_url e = url -> dep_interval e = interval ->
  keeps url interval ev ->
  effect (step windowFetch s ev) = Some e.
Proof.
  intros He Hu Hi Hk. destruct ev as [url' interval'|i net|i|ms|handle|]; simpl in *.
  - destruct Hk as [-> ->].
    destruct (decide (lifecycle (rt s) = Unmounted)); [done|].
    rewrite usePollingFetch_same_deps; [done|].
    apply poll_deps_changed_false. by exists e.
  - done.
  - done.
  - done.
  - by rewrite tick_effect.
  - done.
Qed.



(** *** Counting the attempts of a polling effect *)

Lemma elapsed_cons ev evs : elapsed (ev :: evs) = elapsed [ev] + elapsed evs.
Proof. destruct ev; simpl; lia. Qed.

Lemma elapsed_nonneg evs : 0 <= elapsed evs.
Proof. induction evs as [|[] evs IH]; simpl; lia. Qed.

Lemma elapsed_app evs1 evs2 : elapsed (evs1 ++ evs2) = elapsed evs1 + elapsed evs2.
Proof.
  induction evs1 as [|ev evs1 IH]; [done|].
  rewrite <- app_comm_cons, (elapsed_cons ev (evs1 ++ evs2)), (elapsed_cons ev evs1), IH. lia.
Qed.

(** What the render that starts an effect leaves behind. *)
Lemma render_new_deps windowFetch url interval s :
  deps_changed url interval (effect s) = true ->
  let s1 := usePollingFetch windowFetch url interval s in
  ∃ e1, effect s1 = Some e1 ∧ dep_url e1 = url ∧ dep_interval e1 = interval ∧
        length (attempts (rt s1)) = S (length (attempts (rt s))) ∧
        now s1 = now s ∧
        (polls interval = true ->
         ∃ t, last (timers s1) = Some t ∧
              due t = now s + timer_delay (default NaN interval)).
Proof.
  intros Hd. cbv zeta. rewrite usePollingFetch_new_deps by done. cbv zeta.
  eexists. cbn [effect rt now timers]. split_and!; try done.
  - rewrite call_fetchData_length. simpl. by rewrite poll_cleanup_attempts.
  - intros ->. eexists. by rewrite last_snoc.
Qed.


Lemma keeps_run_effect_aux windowFetch url interval e evs s :
  effect s = Some e -> dep_url e = url -> dep_interval e = interval ->
  Forall (keeps url interval) evs ->
  effect (run windowFetch s evs) = Some e.
Proof.
  intros He Hu Hi Hevs. revert s He.
  induction Hevs as [|ev evs Hk _ IH]; intros s He; [done|].
  rewrite poll_run_cons. apply IH. by eapply keeps_effect.
Qed.





(** *** Teardown and change of parameters *)




Lemma keeps_run_effect windowFetch url interval e evs s :
  effect s = Some e -> dep_url e = url -> dep_interval e = interval ->
  Forall (keeps url interval) evs ->
  effect (run windowFetch s evs) = Some e.
Proof. apply keeps_run_effect_aux. Qed.


(** *** [data] before the first success *)

(** What a render returns is the cells at the time of the render. *)
Lemma poll_step_renders windowFetch s ev :
  renders (step windowFetch s ev) = renders s ∨
  renders (step windowFetch s ev) =
    renders s ++
      [{| res_data := data (state s); res_isLoading := isLoading (state s);
          res_error := error (state s) |}].
Proof.
  destruct ev as [url interval|i net|i|ms|handle|]; simpl; try by left.
  - destruct (decide (lifecycle (rt s) = Unmounted)); [by left|].
    right. destruct (deps_changed url interval (effect s)) eqn:Hd.
    + by rewrite usePollingFetch_new_deps.
    + by rewrite usePollingFetch_same_deps.
  - left. unfold tick. destruct handle as [|i]; [done|].
    destruct (timers s !! i) as [t|]; [|done].
    by destruct (negb (cleared t) && (due t <=? now s)).
  - left. destruct (decide (lifecycle (rt s) = Mounted)); [|done].
    unfold unmount. by destruct (cleanup _ _ _).
Qed.

Lemma poll_renders_null_run windowFetch evs :
  (∀ i, JsonSettles i ∉ evs) ->
  Forall (λ res, res_data res = None) (renders (run windowFetch initial evs)).
Proof.
  intros Hevs.
  assert (H : ∀ s, data (state s) = None ->
              Forall (λ res, res_data res = None) (renders s) ->
              Forall (λ res, res_data res = None) (renders (run windowFetch s evs))).
  { induction evs as [|ev evs IH]; intros s Hd Hr; [done|].
    rewrite poll_run_cons. apply IH.
    - intros i Hi. apply (Hevs i). by right.
    - destruct (poll_step_data windowFetch s ev) as [->|(i & _ & _ & _ & _ & -> & _)]; [done|].
      destruct (Hevs i). by left.
    - destruct (poll_step_renders windowFetch s ev) as [->| ->]; [done|].
      apply Forall_app. split; [done|]. by apply Forall_singleton. }
  by apply H.
Qed.

(** A timer that has not been cleared is the timer of the current effect. *)
Lemma live_timer_is_current s i t :
  well_formed s ->
  timers s !! i = Some t -> cleared t = false ->
  ∃ e, effect s = Some e ∧ lifecycle (rt s) = Mounted ∧
       polls (dep_interval e) = true ∧
       intervalId e = Some (S i) ∧
       timer_url t = dep_url e ∧ timer_controller t = abortController e ∧
       delay t = timer_delay (default NaN (dep_interval e)) ∧
       due t <= now s + delay t.
Proof.
  intros (_ & _ & Heff) Hi Hcl.
  destruct (effect s) as [e|].
  - destruct Heff as (Hlc & _ & _ & _ & Hts). exists e.
    destruct (polls (dep_interval e)).
    + destruct Hts as (old & t' & Hts & Hold & Hcl' & Hid & Hc & Hu & Hd & Hdue).
      rewrite Hts in Hi. apply lookup_app_Some in Hi as [Hi|[Hlen Hi]].
      * rewrite Forall_forall in Hold. apply list_elem_of_lookup_2 in Hi.
        specialize (Hold t Hi). congruence.
      * apply list_lookup_singleton_Some in Hi as [Hi <-].
        split_and!; try done. rewrite Hid, Hts, length_app. simpl. f_equal. lia.
    + destruct Hts as [_ Hts]. rewrite Forall_forall in Hts.
      apply list_elem_of_lookup_2 in Hi. specialize (Hts t Hi). congruence.
  - destruct Heff as (_ & _ & Hts). rewrite Forall_forall in Hts.
    apply list_elem_of_lookup_2 in Hi. specialize (Hts t Hi). congruence.
Qed.

End WithData.

End PollingFacts.

(** * The claims *)

Import AttemptFacts RuntimeFacts Samples.

(** C1 (code evaluated at the failing input).  Unit A, running on the
    [window.fetch] the application installs, with the key
    [/api/products/featured]: after the mount and one [refetchData()] that
    the next render has seen, attempt 0 is cancelled (its controller is
    aborted) and attempt 1 is the newest, still waiting for its response.
    When the mock handler of attempt 0 answers, attempt 0 stores its body
    in [data] and sets [isLoading] to [false]: the interceptor calls the
    handler without the signal, so no [AbortError] ever reaches the
    [catch] block.  A stale attempt has mutated the result state.  This
    holds for the messages of every engine. *)
Theorem stale_attempt_mutates_state_through_mock (engine : Engine) :
  let s := UseGridData.run (appFetch engine) UseGridData.initial
             [UseGridData.Render featured; UseGridData.Refetch; UseGridData.Render featured] in
  attempts (UseGridData.rt s) =
    [{| att_url := featured; att_controller := 0; att_phase := AwaitingFetch |};
     {| att_url := featured; att_controller := 1; att_phase := AwaitingFetch |}] ∧
  controllers (UseGridData.rt s) = [true; false] ∧
  UseGridData.state s = {| data := None; isLoading := true; error := None |} ∧
  UseGridData.state
    (UseGridData.run (appFetch engine) s
       [UseGridData.FetchSettles 0 (reply_ok products1); UseGridData.JsonSettles 0]) =
    {| data := Some products1; isLoading := false; error := None |}.
Proof. vm_compute. split_and!; reflexivity. Qed.

(** C8 (counterexample).  Two calls of [refetchData()] that one render sees
    together start one attempt, not two: after the mount there is one
    attempt, after the two calls and the render there are two, and the
    counter stands at 2. *)
Lemma batched_refetch_calls_issue_one_attempt :
  let s := UseGridData.run browserFetch UseGridData.initial [UseGridData.Render featured] in
  let s' := UseGridData.run browserFetch s
              [UseGridData.Refetch; UseGridData.Refetch; UseGridData.Render featured] in
  length (attempts (UseGridData.rt s)) = 1%nat ∧
  length (attempts (UseGridData.rt s')) = 2%nat ∧
  UseGridData.refetchTrigger s' = 2%nat.
Proof. vm_compute. split_and!; reflexivity. Qed.

(** C8 (amended).  Unit A, on an instance that has just rendered with key
    [apiUrl]: a call of [refetchData()] changes nothing but the counter,
    which it increments by one; [n] calls, each followed by a render before
    the next call, issue exactly [n] new attempts, and afterwards every
    attempt but the newest has had its controller aborted; calls that one
    render sees together ([n + 1] of them) advance the counter by one each
    and issue one new attempt between them. *)
Theorem refetch_issues_one_attempt_per_render
    (windowFetch : FetchImpl (list UseGridData.Product))
    (evs : list UseGridData.Event) (apiUrl : string) (n : nat) :
  let s0 := UseGridData.run windowFetch UseGridData.initial evs in
  lifecycle (UseGridData.rt s0) ≠ Unmounted ->
  let s := UseGridData.step windowFetch s0 (UseGridData.Render apiUrl) in
  let each := UseGridData.run windowFetch s
                (concat (replicate n [UseGridData.Refetch; UseGridData.Render apiUrl])) in
  let batch := UseGridData.run windowFetch s
                 (replicate (S n) UseGridData.Refetch ++ [UseGridData.Render apiUrl]) in
  UseGridData.step windowFetch s UseGridData.Refetch =
    {| UseGridData.rt := UseGridData.rt s;
       UseGridData.refetchTrigger := S (UseGridData.refetchTrigger s);
       UseGridData.effect := UseGridData.effect s;
       UseGridData.memo := UseGridData.memo s;
       UseGridData.closures := UseGridData.closures s;
       UseGridData.renders := UseGridData.renders s |} ∧
  length (attempts (UseGridData.rt each)) = (length (attempts (UseGridData.rt s)) + n)%nat ∧
  UseGridData.refetchTrigger each = (UseGridData.refetchTrigger s + n)%nat ∧
  (∀ j, (S j < length (attempts (UseGridData.rt each)))%nat ->
        aborted (controllers (UseGridData.rt each))
          (att_controller <$> attempts (UseGridData.rt each) !! j) = true) ∧
  length (attempts (UseGridData.rt batch)) = S (length (attempts (UseGridData.rt s))) ∧
  UseGridData.refetchTrigger batch = (UseGridData.refetchTrigger s + S n)%nat.
Proof.
  intros s0 Hlc s each batch.
  assert (Hs : UseGridData.rendered_with apiUrl s).
  { unfold s. simpl. destruct (decide (lifecycle (UseGridData.rt s0) = Unmounted)); [done|].
    by apply GridDataFacts.rendered_with_render. }
  destruct (GridDataFacts.refetch_render_each windowFetch apiUrl n s Hs) as (_ & Ht & Hn).
  destruct (GridDataFacts.refetch_batch windowFetch apiUrl n s Hs) as (_ & Ht' & Hn').
  split_and!; try done.
  - simpl. destruct Hs as [-> _]. done.
  - intros j Hj.
    assert (Hwf : UseGridData.well_formed each).
    { unfold each, s, s0. rewrite <- GridDataFacts.grid_run_snoc, <- GridDataFacts.grid_run_app.
      apply GridDataFacts.grid_well_formed_run, GridDataFacts.grid_well_formed_initial. }
    destruct Hwf as (_ & Hctl & Hold & _).
    destruct (lookup_lt_is_Some_2 (attempts (UseGridData.rt each)) j) as [a Ha]; [lia|].
    rewrite Ha. simpl. by rewrite (Hctl j a Ha), (Hold j Hj).
Qed.

(** C8 (witness): the instance is the freshly created one, the key
    [/api/products/featured], and [n = 3]. *)
Lemma refetch_issues_one_attempt_per_render_witness :
  lifecycle (UseGridData.rt (UseGridData.run browserFetch UseGridData.initial [])) ≠ Unmounted ∧
  length (attempts (UseGridData.rt
    (UseGridData.run browserFetch
       (UseGridData.step browserFetch UseGridData.initial (UseGridData.Render featured))
       (concat (replicate 3 [UseGridData.Refetch; UseGridData.Render featured]))))) = 4%nat.
Proof.
  split; [done|].
  exact (proj1 (proj2 (refetch_issues_one_attempt_per_render browserFetch [] featured 3
                         ltac:(done)))).
Defined.

(** C9.  Unit A: whatever happens to an instance (renders with the same or
    another key, calls of [refetchData], settlements, updates of [data],
    [isLoading] and [error]), every render returns as [refetchData] the
    function object that the first render created. *)
Theorem refetchData_identity_stable
    (windowFetch : FetchImpl (list UseGridData.Product)) (evs : list UseGridData.Event) :
  Forall (λ r, UseGridData.res_refetchData r = 0%nat)
    (UseGridData.renders (UseGridData.run windowFetch UseGridData.initial evs)).
Proof.
  apply (GridDataFacts.callback_stable_run windowFetch UseGridData.initial evs).
  split; [constructor|done].
Qed.
(** C2 (code evaluated at the failing input).  Unit B on the browser's
    [fetch], polling [/posts] every 1000 ms: the mount starts attempt 0;
    after 1000 ms the timer runs and starts attempt 1 while attempt 0 is
    still waiting for its response.  Both attempts carry controller 0,
    which is not aborted: the tick has cancelled nothing.  Attempt 1 then
    succeeds with ["new"]; attempt 0 succeeds afterwards with ["old"] and
    overwrites [data].  A stale attempt has mutated the result state. *)
Theorem tick_leaves_earlier_attempt_live :
  let s := UsePollingFetch.run browserFetch UsePollingFetch.initial
             [UsePollingFetch.Render "/posts" (Some (whole 1000));
              UsePollingFetch.Elapse 1000; UsePollingFetch.Tick 1] in
  attempts (UsePollingFetch.rt s) =
    [{| att_url := "/posts"; att_controller := 0; att_phase := AwaitingFetch |};
     {| att_url := "/posts"; att_controller := 0; att_phase := AwaitingFetch |}] ∧
  controllers (UsePollingFetch.rt s) = [false] ∧
  UsePollingFetch.state
    (UsePollingFetch.run browserFetch s
       [UsePollingFetch.FetchSettles 1 (reply_ok "new"); UsePollingFetch.JsonSettles 1]) =
    {| data := Some "new"; isLoading := false; error := false |} ∧
  UsePollingFetch.state
    (UsePollingFetch.run browserFetch s
       [UsePollingFetch.FetchSettles 1 (reply_ok "new"); UsePollingFetch.JsonSettles 1;
        UsePollingFetch.FetchSettles 0 (reply_ok "old"); UsePollingFetch.JsonSettles 0]) =
    {| data := Some "old"; isLoading := false; error := false |}.
Proof. vm_compute. split_and!; reflexivity. Qed.

(** C3 (counterexample).  The first render of either hook returns
    [data = null]. *)
Lemma data_is_null_before_first_success :
  UseGridData.renders
    (UseGridData.run browserFetch UseGridData.initial [UseGridData.Render featured]) =
    [{| UseGridData.res_data := None; UseGridData.res_isLoading := true;
        UseGridData.res_error := None; UseGridData.res_refetchData := 0 |}] ∧
  UsePollingFetch.renders
    (UsePollingFetch.run (T:=string) browserFetch UsePollingFetch.initial
       [UsePollingFetch.Render "/posts" None]) =
    [{| UsePollingFetch.res_data := None; UsePollingFetch.res_isLoading := true;
        UsePollingFetch.res_error := false |}].
Proof. vm_compute. split; reflexivity. Qed.

(** C3 (amended).  In both hooks, whatever [window.fetch] is: the first
    render returns [data = null]; a step changes [data] only when it is the
    parsing of the body of a response an attempt was waiting for, and
    [data] is then what the body parsed to; so every render returns
    [data = null] as long as no body has been parsed.  In the product-grid
    case [ProductGrid] puts the empty list in place of [null] in the
    render state it hands on. *)
Theorem data_null_until_first_success :
  (∀ windowFetch apiUrl,
     UseGridData.res_data <$>
       UseGridData.renders (UseGridData.useGridData windowFetch apiUrl UseGridData.initial) =
       [None]) ∧
  (∀ windowFetch s ev,
     data (UseGridData.state (UseGridData.step windowFetch s ev)) = data (UseGridData.state s) ∨
     ∃ i url c r v,
       ev = UseGridData.JsonSettles i ∧
       attempts (UseGridData.rt s) !! i =
         Some {| att_url := url; att_controller := c; att_phase := AwaitingJson r |} ∧
       json (controllers (UseGridData.rt s)) r = Fulfilled v ∧
       data (UseGridData.state (UseGridData.step windowFetch s ev)) = v) ∧
  (∀ windowFetch evs,
     (∀ i, UseGridData.JsonSettles i ∉ evs) ->
     Forall (λ r, UseGridData.res_data r = None ∧
                  UseGridData.grid_data (UseGridData.ProductGrid r) = [])
       (UseGridData.renders (UseGridData.run windowFetch UseGridData.initial evs))) ∧
  (∀ T (windowFetch : FetchImpl T) url interval,
     UsePollingFetch.res_data <$>
       UsePollingFetch.renders
         (UsePollingFetch.usePollingFetch windowFetch url interval UsePollingFetch.initial) =
       [None]) ∧
  (∀ T (windowFetch : FetchImpl T) s ev,
     data (UsePollingFetch.state (UsePollingFetch.step windowFetch s ev)) =
       data (UsePollingFetch.state s) ∨
     ∃ i url c r v,
       ev = UsePollingFetch.JsonSettles i ∧
       attempts (UsePollingFetch.rt s) !! i =
         Some {| att_url := url; att_controller := c; att_phase := AwaitingJson r |} ∧
       json (controllers (UsePollingFetch.rt s)) r = Fulfilled v ∧
       data (UsePollingFetch.state (UsePollingFetch.step windowFetch s ev)) = v) ∧
  (∀ T (windowFetch : FetchImpl T) evs,
     (∀ i, UsePollingFetch.JsonSettles i ∉ evs) ->
     Forall (λ r, UsePollingFetch.res_data r = None)
       (UsePollingFetch.renders
          (UsePollingFetch.run windowFetch UsePollingFetch.initial evs))).
Proof.
  split_and!.
  - intros windowFetch apiUrl. reflexivity.
  - apply GridDataFacts.grid_step_data.
  - intros windowFetch evs Hevs.
    eapply Forall_impl; [by apply GridDataFacts.grid_renders_null_run|].
    intros r Hr. split; [done|]. unfold UseGridData.ProductGrid. simpl.
    by rewrite Hr.
  - intros T windowFetch url interval.
    by rewrite PollingFacts.usePollingFetch_new_deps.
  - intros T. apply PollingFacts.poll_step_data.
  - intros T windowFetch evs Hevs. by apply PollingFacts.poll_renders_null_run.
Qed.

(** C3 (witness): each hook mounted, its request answered with status
    500, and rendered again. *)
Lemma data_null_until_first_success_witness :
  (∀ i, UseGridData.JsonSettles i ∉
     [UseGridData.Render "/api/error"; UseGridData.FetchSettles 0 reply_500;
      UseGridData.Render "/api/error"]) ∧
  Forall (λ r, UseGridData.res_data r = None ∧
               UseGridData.grid_data (UseGridData.ProductGrid r) = [])
    (UseGridData.renders
       (UseGridData.run browserFetch UseGridData.initial
          [UseGridData.Render "/api/error"; UseGridData.FetchSettles 0 reply_500;
           UseGridData.Render "/api/error"])).
Proof.
  assert (H : ∀ i, UseGridData.JsonSettles i ∉
                [UseGridData.Render "/api/error"; UseGridData.FetchSettles 0 reply_500;
                 UseGridData.Render "/api/error"]).
  { intros i Hin. repeat (apply elem_of_cons in Hin as [Hin|Hin]; [discriminate|]).
    by apply elem_of_nil in Hin. }
  split; [exact H|].
  exact (proj1 (proj2 (proj2 data_null_until_first_success)) browserFetch _ H).
Defined.
(** C4.  In either hook, on a mounted component and whatever
    [window.fetch] is: when the [fetch] promise of a waiting attempt is
    fulfilled with a response whose status is not 2xx, the attempt returns
    and leaves [isLoading = false], [error] set (in Unit A the message
    ["HTTP error! status: "] followed by the status code, in Unit B
    [true]) and [data] as it was; the start of an attempt does not touch
    [data] either. *)
Theorem non_2xx_settles_with_error :
  (∀ (windowFetch : FetchImpl (list UseGridData.Product)) s i net url c r,
     lifecycle (UseGridData.rt s) = Mounted ->
     attempts (UseGridData.rt s) !! i =
       Some {| att_url := url; att_controller := c; att_phase := AwaitingFetch |} ->
     windowFetch (controllers (UseGridData.rt s)) url (Some c) net =
       Fulfilled (FetchedResponse r) ->
     ok r = false ->
     let s' := UseGridData.step windowFetch s (UseGridData.FetchSettles i net) in
     UseGridData.state s' =
       {| data := data (UseGridData.state s); isLoading := false;
          error := Some ("HTTP error! status: " +:+ pretty (status r)) |} ∧
     attempts (UseGridData.rt s') !! i =
       Some {| att_url := url; att_controller := c; att_phase := Returned |}) ∧
  (∀ T (windowFetch : FetchImpl T) (s : UsePollingFetch.Instance T) i net url c r,
     lifecycle (UsePollingFetch.rt s) = Mounted ->
     attempts (UsePollingFetch.rt s) !! i =
       Some {| att_url := url; att_controller := c; att_phase := AwaitingFetch |} ->
     windowFetch (controllers (UsePollingFetch.rt s)) url (Some c) net =
       Fulfilled (FetchedResponse r) ->
     ok r = false ->
     let s' := UsePollingFetch.step windowFetch s (UsePollingFetch.FetchSettles i net) in
     UsePollingFetch.state s' =
       {| data := data (UsePollingFetch.state s); isLoading := false; error := true |} ∧
     attempts (UsePollingFetch.rt s') !! i =
       Some {| att_url := url; att_controller := c; att_phase := Returned |}) ∧
  (∀ E T (noError : E) toError (windowFetch : FetchImpl T) url c (rt : Runtime E T),
     data (hook (world (call_fetchData noError toError windowFetch url c rt))) =
       data (hook (world rt))).
Proof.
  split_and!.
  - intros windowFetch s i net url c r Hlc Hi Hp Hok. simpl. unfold UseGridData.state. simpl.
    rewrite (fetch_settles_not_ok UseGridData.errorMessage windowFetch i net _ url c r)
      by done.
    simpl. split; [done|]. apply list_lookup_insert_eq. by eapply lookup_lt_Some.
  - intros T windowFetch s i net url c r Hlc Hi Hp Hok. simpl.
    unfold UsePollingFetch.state. simpl.
    rewrite (fetch_settles_not_ok UsePollingFetch.errorFlag windowFetch i net _ url c r)
      by done.
    simpl. split; [done|]. apply list_lookup_insert_eq. by eapply lookup_lt_Some.
  - intros E T noError toError windowFetch url c rt. apply call_fetchData_data.
Qed.

(** C4 (witness): both hooks, mounted on an endpoint that answers 500. *)
Lemma non_2xx_settles_with_error_witness :
  UseGridData.state
    (UseGridData.run browserFetch UseGridData.initial
       [UseGridData.Render "/api/error"; UseGridData.FetchSettles 0 reply_500]) =
    {| data := None; isLoading := false; error := Some "HTTP error! status: 500" |} ∧
  UsePollingFetch.state
    (UsePollingFetch.run (T:=string) (appFetch v8) UsePollingFetch.initial
       [UsePollingFetch.Render "/api/error" None; UsePollingFetch.FetchSettles 0 reply_500]) =
    {| data := None; isLoading := false; error := true |}.
Proof.
  split.
  - exact (proj1 (proj1 non_2xx_settles_with_error browserFetch
             (UseGridData.run browserFetch UseGridData.initial [UseGridData.Render "/api/error"])
             0%nat reply_500 "/api/error" 0%nat
             {| status := 500; body := NotJson "Unexpected token I in JSON at position 0";
                signal := Some 0%nat |}
             eq_refl eq_refl eq_refl eq_refl)).
  - exact (proj1 (proj1 (proj2 non_2xx_settles_with_error) string (appFetch v8)
             (UsePollingFetch.run (appFetch v8) UsePollingFetch.initial
                [UsePollingFetch.Render "/api/error" None])
             0%nat reply_500 "/api/error" 0%nat
             {| status := 500; body := NotJson "Unexpected token I in JSON at position 0";
                signal := None |}
             eq_refl eq_refl eq_refl eq_refl)).
Defined.

(** C5 (code evaluated at the failing input).  Unit B as [PollingDemo]
    runs it, on the [window.fetch] the application installs: the component
    fetches [/api/error] and, while that request is pending, is switched
    to [/api/posts].  The cleanup aborts controller 0, so attempt 0 is
    cancelled, and attempt 1 waits with [isLoading = true] and no error.
    When the handler of [/api/error] answers 500, the cancelled attempt
    sets [error] and puts [isLoading] back to [false], while attempt 1 is
    still waiting: the interceptor called the handler without the signal,
    so no [AbortError] was there to swallow.  When attempt 1 then
    succeeds, the error stays on screen beside its data. *)
Theorem cancelled_attempt_surfaces_error_through_mock (engine : Engine) (post : PollingDemo.Data) :
  let s := UsePollingFetch.run (appFetch engine) UsePollingFetch.initial
             [UsePollingFetch.Render "/api/error" None;
              UsePollingFetch.Render "/api/posts" None] in
  let s' := UsePollingFetch.step (appFetch engine) s
              (UsePollingFetch.FetchSettles 0 reply_500) in
  attempts (UsePollingFetch.rt s) =
    [{| att_url := "/api/error"; att_controller := 0; att_phase := AwaitingFetch |};
     {| att_url := "/api/posts"; att_controller := 1; att_phase := AwaitingFetch |}] ∧
  controllers (UsePollingFetch.rt s) = [true; false] ∧
  UsePollingFetch.state s = {| data := None; isLoading := true; error := false |} ∧
  UsePollingFetch.state s' = {| data := None; isLoading := false; error := true |} ∧
  attempts (UsePollingFetch.rt s') =
    [{| att_url := "/api/error"; att_controller := 0; att_phase := Returned |};
     {| att_url := "/api/posts"; att_controller := 1; att_phase := AwaitingFetch |}] ∧
  UsePollingFetch.state
    (UsePollingFetch.run (appFetch engine) s'
       [UsePollingFetch.FetchSettles 1 (reply_ok post); UsePollingFetch.JsonSettles 1]) =
    {| data := Some post; isLoading := false; error := true |}.
Proof. vm_compute. split_and!; reflexivity. Qed.


(** C10.  In both hooks, whatever has happened to an instance and whatever
    [window.fetch] is.  A render whose dependency array is new issues one
    attempt, and so does, in Unit B, the run of a timer that has not been
    cleared and is due.  The dependency array is new on the mount, when
    the key or URL (in Unit B also the interval) differs from the one of
    the last effect, and, in Unit A, after a call of [refetchData()].
    When the call of [fetch] returns, the attempt waits and the step
    leaves the cells at [isLoading = true] and [error] cleared ([null] in
    Unit A, [false] in Unit B), with [data] as it was, whatever [error]
    held before.  (When the call of [fetch] itself throws, the attempt has
    returned within the step, and what it threw is in [error].)  Any other
    step that is not a settlement issues no attempt and leaves the cells as
    they were, so the cleared [error] stays until a promise settles. *)
Theorem attempt_start_shows_loading_and_clears_error :
  (∀ (windowFetch : FetchImpl (list UseGridData.Product)) evs apiUrl,
     let s := UseGridData.run windowFetch UseGridData.initial evs in
     lifecycle (UseGridData.rt s) ≠ Unmounted ->
     UseGridData.deps_changed apiUrl (UseGridData.refetchTrigger s) (UseGridData.effect s) =
       true ->
     let s' := UseGridData.step windowFetch s (UseGridData.Render apiUrl) in
     let c := length (controllers (UseGridData.rt s)) in
     ∃ ph,
       attempts (UseGridData.rt s') =
         attempts (UseGridData.rt s) ++
           [{| att_url := apiUrl; att_controller := c; att_phase := ph |}] ∧
       match throws windowFetch (controllers (UseGridData.rt s')) apiUrl (Some c) with
       | None =>
           ph = AwaitingFetch ∧
           UseGridData.state s' =
             {| data := data (UseGridData.state s); isLoading := true; error := None |}
       | Some err =>
           ph = Returned ∧
           (isAbortError err = false ->
            UseGridData.state s' =
              {| data := data (UseGridData.state s); isLoading := false;
                 error := UseGridData.errorMessage err |})
       end) ∧
  (∀ apiUrl trigger e,
     UseGridData.deps_changed apiUrl trigger e = true <->
     e = None ∨
     ∃ e', e = Some e' ∧
           (UseGridData.dep_apiUrl e' ≠ apiUrl ∨ UseGridData.dep_refetchTrigger e' ≠ trigger)) ∧
  (∀ (windowFetch : FetchImpl (list UseGridData.Product)) evs apiUrl,
     let s := UseGridData.run windowFetch UseGridData.initial evs in
     lifecycle (UseGridData.rt s) = Mounted ->
     let s' := UseGridData.step windowFetch s UseGridData.Refetch in
     UseGridData.deps_changed apiUrl (UseGridData.refetchTrigger s') (UseGridData.effect s') =
       true) ∧
  (∀ (windowFetch : FetchImpl (list UseGridData.Product)) s ev,
     UseGridData.is_settlement ev = false ->
     (∀ apiUrl, ev = UseGridData.Render apiUrl ->
        lifecycle (UseGridData.rt s) = Unmounted ∨
        UseGridData.deps_changed apiUrl (UseGridData.refetchTrigger s) (UseGridData.effect s) =
          false) ->
     let s' := UseGridData.step windowFetch s ev in
     attempts (UseGridData.rt s') = attempts (UseGridData.rt s) ∧
     UseGridData.state s' = UseGridData.state s) ∧
  (∀ T (windowFetch : FetchImpl T) evs url interval,
     let s := UsePollingFetch.run windowFetch UsePollingFetch.initial evs in
     lifecycle (UsePollingFetch.rt s) ≠ Unmounted ->
     UsePollingFetch.deps_changed url interval (UsePollingFetch.effect s) = true ->
     let s' := UsePollingFetch.step windowFetch s (UsePollingFetch.Render url interval) in
     let c := length (controllers (UsePollingFetch.rt s)) in
     ∃ ph,
       attempts (UsePollingFetch.rt s') =
         attempts (UsePollingFetch.rt s) ++
           [{| att_url := url; att_controller := c; att_phase := ph |}] ∧
       match throws windowFetch (controllers (UsePollingFetch.rt s')) url (Some c) with
       | None =>
           ph = AwaitingFetch ∧
           UsePollingFetch.state s' =
             {| data := data (UsePollingFetch.state s); isLoading := true; error := false |}
       | Some err =>
           ph = Returned ∧
           (isAbortError err = false ->
            UsePollingFetch.state s' =
              {| data := data (UsePollingFetch.state s); isLoading := false;
                 error := true |})
       end) ∧
  (∀ url interval e,
     UsePollingFetch.deps_changed url interval e = true <->
     e = None ∨
     ∃ e', e = Some e' ∧
           (UsePollingFetch.dep_url e' ≠ url ∨ UsePollingFetch.dep_interval e' ≠ interval)) ∧
  (∀ T (windowFetch : FetchImpl T) evs i t,
     let s := UsePollingFetch.run windowFetch UsePollingFetch.initial evs in
     UsePollingFetch.timers s !! i = Some t ->
     UsePollingFetch.cleared t = false ->
     UsePollingFetch.due t <= UsePollingFetch.now s ->
     let s' := UsePollingFetch.step windowFetch s (UsePollingFetch.Tick (S i)) in
     ∃ e ph,
       UsePollingFetch.effect s = Some e ∧
       attempts (UsePollingFetch.rt s') =
         attempts (UsePollingFetch.rt s) ++
           [{| att_url := UsePollingFetch.dep_url e;
               att_controller := UsePollingFetch.abortController e; att_phase := ph |}] ∧
       match throws windowFetch (controllers (UsePollingFetch.rt s))
               (UsePollingFetch.dep_url e) (Some (UsePollingFetch.abortController e)) with
       | None =>
           ph = AwaitingFetch ∧
           UsePollingFetch.state s' =
             {| data := data (UsePollingFetch.state s); isLoading := true; error := false |}
       | Some err =>
           ph = Returned ∧
           (isAbortError err = false ->
            UsePollingFetch.state s' =
              {| data := data (UsePollingFetch.state s); isLoading := false;
                 error := true |})
       end) ∧
  (∀ T (windowFetch : FetchImpl T) (s : UsePollingFetch.Instance T) ev,
     UsePollingFetch.is_settlement ev = false ->
     (∀ url interval, ev = UsePollingFetch.Render url interval ->
        lifecycle (UsePollingFetch.rt s) = Unmounted ∨
        UsePollingFetch.deps_changed url interval (UsePollingFetch.effect s) = false) ->
     (∀ i t, ev = UsePollingFetch.Tick (S i) -> UsePollingFetch.timers s !! i = Some t ->
        UsePollingFetch.cleared t = true ∨ UsePollingFetch.now s < UsePollingFetch.due t) ->
     let s' := UsePollingFetch.step windowFetch s ev in
     attempts (UsePollingFetch.rt s') = attempts (UsePollingFetch.rt s) ∧
     UsePollingFetch.state s' = UsePollingFetch.state s).
Proof.
  split_and!.
  - intros windowFetch evs apiUrl s Hlc Hd s' c.
    destruct (GridDataFacts.grid_render_issues windowFetch apiUrl s Hlc Hd)
      as (ph & Ha & _ & Hst).
    by exists ph.
  - intros apiUrl trigger [e|]; simpl.
    + rewrite negb_true_iff, bool_decide_eq_false. split.
      * intros Hn. right. exists e. split; [done|].
        destruct (decide (UseGridData.dep_apiUrl e = apiUrl)); [|by left].
        destruct (decide (UseGridData.dep_refetchTrigger e = trigger)); [|by right].
        by destruct Hn.
      * intros [?|(e' & [= <-] & [?|?])]; [done|..]; by intros [? ?].
    + split; [by left|done].
  - intros windowFetch evs apiUrl s Hlc s'.
    by destruct (GridDataFacts.refetch_changes_deps windowFetch evs apiUrl Hlc).
  - intros windowFetch s ev. apply GridDataFacts.grid_step_quiet.
  - intros T windowFetch evs url interval s Hlc Hd s' c.
    destruct (PollingFacts.poll_render_issues windowFetch url interval s Hlc Hd)
      as (ph & Ha & _ & Hst).
    by exists ph.
  - intros url interval [e|]; simpl.
    + rewrite negb_true_iff, bool_decide_eq_false. split.
      * intros Hn. right. exists e. split; [done|].
        destruct (decide (UsePollingFetch.dep_url e = url)); [|by left].
        destruct (decide (UsePollingFetch.dep_interval e = interval)); [|by right].
        by destruct Hn.
      * intros [?|(e' & [= <-] & [?|?])]; [done|..]; by intros [? ?].
    + split; [by left|done].
  - intros T windowFetch evs i t s Hi Hcl Hdue s'.
    assert (Hwf : UsePollingFetch.well_formed s)
      by apply PollingFacts.poll_well_formed_run, PollingFacts.poll_well_formed_initial.
    destruct (PollingFacts.live_timer_is_current s i t Hwf Hi Hcl)
      as (e & He & Hlc & _ & _ & Hu & Hc & _).
    destruct (PollingFacts.poll_tick_issues windowFetch i t s Hlc Hi Hcl Hdue)
      as (ph & Ha & _ & Hst).
    exists e, ph. rewrite <- Hu, <- Hc. done.
  - intros T windowFetch s ev. apply PollingFacts.poll_step_quiet.
Qed.

(** C10 (witness): Unit A on the browser's [fetch]; the first attempt has
    failed with status 500 and [refetchData()] has been called.  The next
    render starts attempt 1 and the error is gone. *)
Lemma attempt_start_shows_loading_and_clears_error_witness :
  let evs := [UseGridData.Render "/api/error"; UseGridData.FetchSettles 0 reply_500;
              UseGridData.Refetch] in
  let s := UseGridData.run browserFetch UseGridData.initial evs in
  let s' := UseGridData.step browserFetch s (UseGridData.Render "/api/error") in
  lifecycle (UseGridData.rt s) ≠ Unmounted ∧
  UseGridData.deps_changed "/api/error" (UseGridData.refetchTrigger s) (UseGridData.effect s) =
    true ∧
  UseGridData.state s =
    {| data := None; isLoading := false; error := Some "HTTP error! status: 500" |} ∧
  UseGridData.state s' = {| data := None; isLoading := true; error := None |}.
Proof.
  intros evs s s'.
  assert (Hlc : lifecycle (UseGridData.rt s) ≠ Unmounted) by (by vm_compute).
  assert (Hd : UseGridData.deps_changed "/api/error" (UseGridData.refetchTrigger s)
                 (UseGridData.effect s) = true) by (by vm_compute).
  split_and!; [done|done|by vm_compute|].
  destruct (proj1 attempt_start_shows_loading_and_clears_error browserFetch evs "/api/error"
              Hlc Hd) as (ph & _ & Hst).
  exact (proj2 Hst).
Defined.


(** * Further properties *)

(** ** The two [window.fetch] interceptors *)

Module TransportFacts.

Section WithData.
Context {T : Type}.

Implicit Types (cs : Controllers) (f g : FetchImpl T) (net : Settled (Reply T)).

Lemma interceptFetch_miss engine eps f cs url sig net :
  url ∉ eps -> objectPrototype url = None ->
  interceptFetch engine eps f cs url sig net = f cs url sig net.
Proof.
  intros Hn Hp. unfold interceptFetch. cbn [settled].
  by rewrite bool_decide_eq_false_2, Hp.
Qed.

Lemma interceptFetch_miss_throws engine eps f cs url sig :
  url ∉ eps -> objectPrototype url = None ->
  throws (interceptFetch engine eps f) cs url sig = throws f cs url sig.
Proof.
  intros Hn Hp. unfold interceptFetch. cbn [throws].
  by rewrite bool_decide_eq_false_2, Hp.
Qed.

Lemma interceptFetch_hit engine eps f cs url sig net :
  url ∈ eps ->
  interceptFetch engine eps f cs url sig net =
    match net with
    | Fulfilled rp =>
        Fulfilled (FetchedResponse
                     {| status := reply_status rp; body := reply_body rp; signal := None |})
    | Rejected err => Rejected err
    end.
Proof. intros Hin. unfold interceptFetch. cbn [settled]. by rewrite bool_decide_eq_true_2. Qed.

Lemma interceptFetch_hit_throws engine eps f cs url sig :
  url ∈ eps -> throws (interceptFetch engine eps f) cs url sig = None.
Proof. intros Hin. unfold interceptFetch. cbn [throws]. by rewrite bool_decide_eq_true_2. Qed.

(** A response carries the status and the body of the reply. *)
Lemma browserFetch_response cs url sig net r :
  browserFetch cs url sig net = Fulfilled (FetchedResponse r) ->
  ∃ rp, net = Fulfilled rp ∧ status r = reply_status rp ∧ body r = reply_body rp.
Proof.
  unfold browserFetch. cbn [settled].
  destruct (aborted cs sig); [done|]. destruct net as [rp|err]; [|done].
  intros [= <-]. by exists rp.
Qed.

Lemma interceptFetch_response engine eps f cs url sig net r :
  (∀ r', f cs url sig net = Fulfilled (FetchedResponse r') ->
         ∃ rp, net = Fulfilled rp ∧ status r' = reply_status rp ∧ body r' = reply_body rp) ->
  interceptFetch engine eps f cs url sig net = Fulfilled (FetchedResponse r) ->
  ∃ rp, net = Fulfilled rp ∧ status r = reply_status rp ∧ body r = reply_body rp.
Proof.
  intros Hf. unfold interceptFetch. cbn [settled].
  destruct (bool_decide (url ∈ eps)).
  - destruct net as [rp|err]; [|done]. intros [= <-]. by exists rp.
  - destruct (objectPrototype url) as [[| |]|]; try done. apply Hf.
Qed.

Lemma appFetch_response engine cs url sig net r :
  appFetch engine cs url sig net = Fulfilled (FetchedResponse r) ->
  ∃ rp, net = Fulfilled rp ∧ status r = reply_status rp ∧ body r = reply_body rp.
Proof.
  unfold appFetch, initializeMockProductApi.
  apply interceptFetch_response. intros r'.
  apply interceptFetch_response. intros r''.
  apply browserFetch_response.
Qed.

End WithData.

End TransportFacts.

(** X1.  A request for a URL that is in neither table of mock endpoints and
    is not the name of a property the tables inherit goes to the browser's
    [fetch] with its signal: on the [window.fetch] of the application the
    call does not throw, and the request settles exactly as it would
    without the interceptors. *)
Theorem app_fetch_passes_other_urls_through
    (T : Type) (engine : Engine) (cs : Controllers) (url : string) (sig : option nat)
    (net : Settled (Reply T)) :
  url ∉ productEndpoints -> url ∉ pollingEndpoints -> objectPrototype url = None ->
  throws (appFetch (T:=T) engine) cs url sig = None ∧
  appFetch engine cs url sig net = browserFetch cs url sig net.
Proof.
  intros Hp Hq Ho. unfold appFetch, initializeMockProductApi. split.
  - by rewrite !TransportFacts.interceptFetch_miss_throws.
  - by rewrite !TransportFacts.interceptFetch_miss.
Qed.

(** X1 (witness): a request with an aborted signal for a URL outside the
    tables is rejected with an [AbortError]. *)
Lemma app_fetch_passes_other_urls_through_witness :
  appFetch v8 [true] "https://example.com/items" (Some 0%nat)
    (reply_ok (T:=string) "body") = Rejected AbortError.
Proof.
  exact (proj2 (app_fetch_passes_other_urls_through string v8 [true]
                  "https://example.com/items" (Some 0%nat) (reply_ok "body")
                  ltac:(compute_done) ltac:(compute_done) eq_refl)).
Defined.

(** X2.  A request for a mock endpoint cannot be cancelled: on the
    [window.fetch] of the application the call does not throw, the request
    settles the same way whatever the signal it was given and whatever has
    been aborted, what it is fulfilled with is a response, and reading the
    body of that response never fails for an abort: it gives what the body
    parses to, or a [SyntaxError]. *)
Theorem mock_endpoint_ignores_the_signal
    (T : Type) (engine : Engine) (url : string) (net : Settled (Reply T)) :
  url ∈ productEndpoints ++ pollingEndpoints ->
  ∀ cs sig,
    throws (appFetch (T:=T) engine) cs url sig = None ∧
    appFetch engine cs url sig net = appFetch engine [] url None net ∧
    ∀ f, appFetch engine cs url sig net = Fulfilled f ->
         ∃ r, f = FetchedResponse r ∧
              ∀ cs', json cs' r =
                       match body r with
                       | Json v => Fulfilled v
                       | NotJson message => Rejected (SyntaxError message)
                       end.
Proof.
  intros Hin cs sig.
  assert (Heq : ∀ cs0 sig0, appFetch engine cs0 url sig0 net =
            match net with
            | Fulfilled rp =>
                Fulfilled (FetchedResponse
                             {| status := reply_status rp; body := reply_body rp;
                                signal := None |})
            | Rejected err => Rejected err
            end).
  { intros cs0 sig0. unfold appFetch, initializeMockProductApi.
    destruct (decide (url ∈ productEndpoints)) as [Hp|Hp].
    - by rewrite TransportFacts.interceptFetch_hit.
    - apply elem_of_app in Hin as [?|Hq]; [done|].
      unfold interceptFetch at 1. cbn [settled]. rewrite bool_decide_eq_false_2 by done.
      destruct (objectPrototype url) eqn:Ho.
      + exfalso. revert Ho. clear -Hq. unfold pollingEndpoints in Hq.
        repeat (apply elem_of_cons in Hq as [->|Hq]; [done|]). by apply elem_of_nil in Hq.
      + by rewrite TransportFacts.interceptFetch_hit. }
  split_and!.
  - unfold appFetch, initializeMockProductApi.
    destruct (decide (url ∈ productEndpoints)) as [Hp|Hp].
    + by rewrite TransportFacts.interceptFetch_hit_throws.
    + apply elem_of_app in Hin as [?|Hq]; [done|].
      unfold interceptFetch at 1. cbn [throws]. rewrite bool_decide_eq_false_2 by done.
      destruct (objectPrototype url) eqn:Ho.
      * exfalso. revert Ho. clear -Hq. unfold pollingEndpoints in Hq.
        repeat (apply elem_of_cons in Hq as [->|Hq]; [done|]). by apply elem_of_nil in Hq.
      * by rewrite TransportFacts.interceptFetch_hit_throws.
  - by rewrite !Heq.
  - intros f Hf. rewrite Heq in Hf. destruct net as [rp|err]; [|done].
    injection Hf as <-. eexists. split; [done|]. intros cs'. reflexivity.
Qed.

(** X2 (witness): [/api/users], requested with a signal that is aborted. *)
Lemma mock_endpoint_ignores_the_signal_witness :
  appFetch v8 [true] "/api/users" (Some 0%nat) (reply_ok (T:=string) "body") =
    appFetch v8 [] "/api/users" None (reply_ok "body").
Proof.
  exact (proj1 (proj2 (mock_endpoint_ignores_the_signal string v8 "/api/users"
                         (reply_ok "body") ltac:(compute_done) [true] (Some 0%nat)))).
Defined.
(** ** The cells of the hooks *)

Module StateFacts.

Import Notions.

(** A condition on the cells that the start of an attempt and the [catch]
    block keep is kept by every piece of [fetchData] but the one that
    stores a parsed body. *)
Section Kept.
Context {E T : Type}.
Context (noError : E) (toError : Thrown -> E).
Context (P : HookState E T -> Prop).
Context (P_start : ∀ h : HookState E T,
           P {| data := data h; isLoading := true; error := noError |}).
Context (P_failure : ∀ (h : HookState E T) err,
           P {| data := data h; isLoading := false; error := toError err |}).

Implicit Types (rt : Runtime E T) (w : World E T).

Lemma kept_commit lc w w' : P (hook w) -> P (hook w') -> P (hook (commit lc w w')).
Proof using All. intros Hw Hw'. rewrite commit_hook. by destruct (decide (lc = Mounted)). Qed.

Lemma kept_catch_block err w ph w' :
  P (hook w) -> catch_block toError err w = (inl ph, w') -> P (hook w').
Proof using All.
  intros Hw. destruct (isAbortError err) eqn:Ha.
  - rewrite catch_block_abort by done. by intros [= _ <-].
  - rewrite catch_block_failure by done. intros [= _ <-]. apply P_failure.
Qed.

Lemma kept_call (windowFetch : FetchImpl T) url c rt :
  P (hook (world rt)) ->
  P (hook (world (call_fetchData noError toError windowFetch url c rt))).
Proof using All.
  intros Hw.
  destruct (throws windowFetch (controllers rt) url (Some c)) as [err|] eqn:Hthrows.
  - destruct (call_fetchData_throws noError toError windowFetch url c rt err Hthrows)
      as (w' & Hw' & ->).
    cbn [world]. apply kept_commit; [done|].
    eapply kept_catch_block; [|done]. apply P_start.
  - rewrite call_fetchData_eq by done. cbn [world].
    apply kept_commit; [done|]. apply P_start.
Qed.

Lemma kept_fetch_settles (windowFetch : FetchImpl T) i net rt :
  P (hook (world rt)) ->
  P (hook (world (fetch_settles toError windowFetch i net rt))).
Proof using All.
  intros Hw.
  destruct (fetch_settles_cases toError windowFetch i net rt)
    as [->|(url&c&ph&w'&_&Hp&->)]; [done|].
  cbn [world]. apply kept_commit; [done|].
  destruct (windowFetch (controllers rt) url (Some c) net) as [[r| |message]|err].
  - destruct (ok r) eqn:Hok.
    + rewrite fetchData_response_ok in Hp by done. by injection Hp as _ <-.
    + rewrite fetchData_response_not_ok in Hp by done. injection Hp as _ <-.
      apply P_failure.
  - rewrite fetchData_response_other in Hp. injection Hp as _ <-. apply P_failure.
  - rewrite fetchData_response_undefined in Hp. injection Hp as _ <-. apply P_failure.
  - rewrite fetchData_response_rejected in Hp. by eapply kept_catch_block.
Qed.

Lemma kept_json_settles i rt :
  (∀ url c r v h,
     attempts rt !! i =
       Some {| att_url := url; att_controller := c; att_phase := AwaitingJson r |} ->
     json (controllers rt) r = Fulfilled v ->
     P h -> P {| data := v; isLoading := false; error := error h |}) ->
  P (hook (world rt)) ->
  P (hook (world (json_settles toError i rt))).
Proof using All.
  intros Hdone Hw.
  destruct (json_settles_cases toError i rt) as [->|(url&c&r&ph&w'&Hi&Hp&->)]; [done|].
  cbn [world]. apply kept_commit; [done|].
  destruct (json (controllers rt) r) as [v|err] eqn:Hj.
  - rewrite fetchData_result_fulfilled in Hp. injection Hp as _ <-.
    simpl. by eapply Hdone.
  - rewrite fetchData_result_rejected in Hp. by eapply kept_catch_block.
Qed.

End Kept.

Section Shared.
Context {E T : Type}.
Context (noError : E) (toError : Thrown -> E).

Implicit Types (rt : Runtime E T) (w : World E T).

Lemma coherent_start (h : HookState E T) :
  coherent noError toError {| data := data h; isLoading := true; error := noError |}.
Proof. by left. Qed.

Lemma coherent_failure (h : HookState E T) err :
  coherent noError toError {| data := data h; isLoading := false; error := toError err |}.
Proof. right. split; [done|]. left. by exists err. Qed.

Lemma loading_start (h : HookState E T) :
  loading_without_error noError {| data := data h; isLoading := true; error := noError |}.
Proof. done. Qed.

Lemma loading_failure (h : HookState E T) err :
  loading_without_error noError
    {| data := data h; isLoading := false; error := toError err |}.
Proof. done. Qed.

(** A body that is not [null] parses to a value, if it parses. *)
Lemma json_not_null cs (r : Response T) v :
  body r ≠ Json None -> json cs r = Fulfilled v -> is_Some v.
Proof.
  intros Hb. unfold json. destruct (aborted cs (signal r)); [done|].
  destruct (body r) as [[x|]|message]; [|done..]. intros [= <-]. by eexists.
Qed.

Lemma coherent_json_settles i rt :
  bodies_not_null rt ->
  coherent noError toError (hook (world rt)) ->
  coherent noError toError (hook (world (json_settles toError i rt))).
Proof.
  intros Hb. apply (kept_json_settles noError).
  - apply coherent_start.
  - apply coherent_failure.
  - intros url c r v h Hi Hj _. right. split; [done|]. right. simpl.
    eapply json_not_null; [|done]. by eapply (Hb i _ r Hi).
Qed.

Lemma loading_json_settles i rt :
  loading_without_error noError (hook (world rt)) ->
  loading_without_error noError (hook (world (json_settles toError i rt))).
Proof.
  apply (kept_json_settles noError toError (loading_without_error noError)).
  - done.
  - done.
  - done.
Qed.

(** *** Attempts never wait for a [null] body *)

Lemma bodies_call (windowFetch : FetchImpl T) url c rt :
  bodies_not_null rt ->
  bodies_not_null (call_fetchData noError toError windowFetch url c rt).
Proof.
  intros Hb i a r Hi Hph.
  destruct (call_fetchData_cases noError toError windowFetch url c rt)
    as (ph & w' & Hcase & _ & Heq).
  rewrite Heq in Hi. cbn [attempts] in Hi.
  apply lookup_app_Some in Hi as [Hi|[_ Hi]]; [by eapply Hb|].
  apply list_lookup_singleton_Some in Hi as [_ <-]. simpl in Hph.
  destruct Hcase; congruence.
Qed.

Lemma bodies_fetch_settles (windowFetch : FetchImpl T) i net rt :
  no_null_body windowFetch net ->
  bodies_not_null rt ->
  bodies_not_null (fetch_settles toError windowFetch i net rt).
Proof.
  intros Hn Hb.
  destruct (fetch_settles_cases toError windowFetch i net rt)
    as [->|(url&c&ph&w'&Hi&Hp&->)]; [done|].
  intros j a r Hj Hph. cbn [attempts] in Hj.
  destruct (decide (j = i)) as [->|Hne].
  - rewrite list_lookup_insert_eq in Hj by (by eapply lookup_lt_Some).
    injection Hj as <-. simpl in Hph. subst ph.
    destruct (windowFetch (controllers rt) url (Some c) net) as [[r'| |message]|err] eqn:Hf.
    + destruct (ok r') eqn:Hok.
      * rewrite fetchData_response_ok in Hp by done. injection Hp as <- _.
        by eapply Hn.
      * rewrite fetchData_response_not_ok in Hp by done. done.
    + by rewrite fetchData_response_other in Hp.
    + by rewrite fetchData_response_undefined in Hp.
    + rewrite fetchData_response_rejected in Hp.
      destruct (catch_block_returns toError err (world rt)) as [w'' Hw''].
      rewrite Hw'' in Hp. done.
  - rewrite list_lookup_insert_ne in Hj by done. by eapply Hb.
Qed.

Lemma bodies_json_settles i rt :
  bodies_not_null rt -> bodies_not_null (json_settles toError i rt).
Proof.
  intros Hb.
  destruct (json_settles_cases toError i rt) as [->|(url&c&r&ph&w'&Hi&Hp&->)]; [done|].
  intros j a r' Hj Hph. cbn [attempts] in Hj.
  destruct (decide (j = i)) as [->|Hne].
  - rewrite list_lookup_insert_eq in Hj by (by eapply lookup_lt_Some).
    injection Hj as <-. simpl in Hph. subst ph.
    destruct (fetchData_result_returns toError (json (controllers rt) r) (world rt))
      as (ph' & w'' & Hp').
    destruct (json (controllers rt) r) as [v|err].
    + by rewrite fetchData_result_fulfilled in Hp.
    + rewrite fetchData_result_rejected in Hp.
      destruct (catch_block_returns toError err (world rt)) as [w3 Hw3].
      rewrite Hw3 in Hp. done.
  - rewrite list_lookup_insert_ne in Hj by done. by eapply Hb.
Qed.

End Shared.

(** Unit A. *)

Lemma grid_loading_step windowFetch s ev :
  loading_without_error UseGridData.noError (UseGridData.state s) ->
  loading_without_error UseGridData.noError
    (UseGridData.state (UseGridData.step windowFetch s ev)).
Proof.
  intros Hs. unfold UseGridData.state in *.
  destruct ev as [apiUrl| |i net|i|]; simpl.
  - destruct (decide (lifecycle (UseGridData.rt s) = Unmounted)); [done|].
    destruct (UseGridData.deps_changed apiUrl (UseGridData.refetchTrigger s)
                (UseGridData.effect s)) eqn:Hd.
    + rewrite GridDataFacts.useGridData_new_deps by done. cbv zeta.
      cbn [UseGridData.rt].
      apply (kept_call UseGridData.noError UseGridData.errorMessage
               (loading_without_error UseGridData.noError)); [done|done|].
      simpl. by rewrite GridDataFacts.grid_cleanup_world.
    + by rewrite GridDataFacts.useGridData_same_deps.
  - by destruct (decide (lifecycle (UseGridData.rt s) = Mounted)).
  - by apply (kept_fetch_settles UseGridData.noError UseGridData.errorMessage
                (loading_without_error UseGridData.noError)).
  - by apply loading_json_settles.
  - destruct (decide (lifecycle (UseGridData.rt s) = Mounted)); [|done].
    simpl. by rewrite GridDataFacts.grid_cleanup_world.
Qed.

Lemma grid_coherent_step windowFetch s ev :
  grid_no_null windowFetch ev ->
  bodies_not_null (UseGridData.rt s) ∧
  coherent UseGridData.noError UseGridData.errorMessage (UseGridData.state s) ->
  bodies_not_null (UseGridData.rt (UseGridData.step windowFetch s ev)) ∧
  coherent UseGridData.noError UseGridData.errorMessage
    (UseGridData.state (UseGridData.step windowFetch s ev)).
Proof.
  intros Hev [Hb Hs]. unfold UseGridData.state in *.
  destruct ev as [apiUrl| |i net|i|]; simpl.
  - destruct (decide (lifecycle (UseGridData.rt s) = Unmounted)); [done|].
    destruct (UseGridData.deps_changed apiUrl (UseGridData.refetchTrigger s)
                (UseGridData.effect s)) eqn:Hd.
    + rewrite GridDataFacts.useGridData_new_deps by done. cbv zeta.
      cbn [UseGridData.rt]. split.
      * apply bodies_call. intros j a r. cbn [attempts set_controllers].
        rewrite GridDataFacts.grid_cleanup_attempts. apply Hb.
      * apply (kept_call UseGridData.noError UseGridData.errorMessage
                 (coherent UseGridData.noError UseGridData.errorMessage));
          [apply coherent_start|apply coherent_failure|].
        simpl. by rewrite GridDataFacts.grid_cleanup_world.
    + by rewrite GridDataFacts.useGridData_same_deps.
  - by destruct (decide (lifecycle (UseGridData.rt s) = Mounted)).
  - split.
    + by apply bodies_fetch_settles.
    + apply (kept_fetch_settles UseGridData.noError UseGridData.errorMessage
               (coherent UseGridData.noError UseGridData.errorMessage));
        [apply coherent_start|apply coherent_failure|done].
  - split.
    + by apply bodies_json_settles.
    + by apply coherent_json_settles.
  - destruct (decide (lifecycle (UseGridData.rt s) = Mounted)); [|done].
    simpl. split.
    + intros j a r. cbn [attempts set_lifecycle].
      rewrite GridDataFacts.grid_cleanup_attempts. apply Hb.
    + by rewrite GridDataFacts.grid_cleanup_world.
Qed.

Lemma grid_loading_run windowFetch evs :
  loading_without_error UseGridData.noError
    (UseGridData.state (UseGridData.run windowFetch UseGridData.initial evs)).
Proof.
  assert (H : ∀ s, loading_without_error UseGridData.noError (UseGridData.state s) ->
              loading_without_error UseGridData.noError
                (UseGridData.state (UseGridData.run windowFetch s evs))).
  { induction evs as [|ev evs IH]; intros s Hs; [done|].
    rewrite GridDataFacts.grid_run_cons. apply IH. by apply grid_loading_step. }
  by apply H.
Qed.

Lemma grid_coherent_run windowFetch evs :
  Forall (grid_no_null windowFetch) evs ->
  coherent UseGridData.noError UseGridData.errorMessage
    (UseGridData.state (UseGridData.run windowFetch UseGridData.initial evs)).
Proof.
  intros Hevs.
  assert (H : ∀ s,
            bodies_not_null (UseGridData.rt s) ∧
            coherent UseGridData.noError UseGridData.errorMessage (UseGridData.state s) ->
            bodies_not_null (UseGridData.rt (UseGridData.run windowFetch s evs)) ∧
            coherent UseGridData.noError UseGridData.errorMessage
              (UseGridData.state (UseGridData.run windowFetch s evs))).
  { induction Hevs as [|ev evs Hev _ IH]; intros s Hs; [done|].
    rewrite GridDataFacts.grid_run_cons. apply IH. by apply grid_coherent_step. }
  apply H. split; [done|by left].
Qed.

(** Unit B. *)

Lemma poll_loading_step {T} (windowFetch : FetchImpl T) s ev :
  loading_without_error UsePollingFetch.noError (UsePollingFetch.state s) ->
  loading_without_error UsePollingFetch.noError
    (UsePollingFetch.state (UsePollingFetch.step windowFetch s ev)).
Proof.
  intros Hs. unfold UsePollingFetch.state in *.
  destruct ev as [url interval|i net|i|ms|handle|]; simpl.
  - destruct (decide (lifecycle (UsePollingFetch.rt s) = Unmounted)); [done|].
    destruct (UsePollingFetch.deps_changed url interval (UsePollingFetch.effect s)) eqn:Hd.
    + rewrite PollingFacts.usePollingFetch_new_deps by done. cbv zeta.
      cbn [UsePollingFetch.rt].
      apply (kept_call UsePollingFetch.noError UsePollingFetch.errorFlag
               (loading_without_error UsePollingFetch.noError)); [done|done|].
      simpl. by rewrite PollingFacts.poll_cleanup_world.
    + by rewrite PollingFacts.usePollingFetch_same_deps.
  - by apply (kept_fetch_settles UsePollingFetch.noError UsePollingFetch.errorFlag
                (loading_without_error UsePollingFetch.noError)).
  - by apply loading_json_settles.
  - done.
  - unfold UsePollingFetch.tick. destruct handle as [|j]; [done|].
    destruct (UsePollingFetch.timers s !! j) as [t|]; [|done].
    destruct (negb (UsePollingFetch.cleared t) &&
              (UsePollingFetch.due t <=? UsePollingFetch.now s)); [|done].
    cbn [UsePollingFetch.rt].
    by apply (kept_call UsePollingFetch.noError UsePollingFetch.errorFlag
                (loading_without_error UsePollingFetch.noError)).
  - destruct (decide (lifecycle (UsePollingFetch.rt s) = Mounted)); [|done].
    unfold UsePollingFetch.unmount.
    pose proof (PollingFacts.poll_cleanup_world (UsePollingFetch.effect s)
                  (UsePollingFetch.rt s) (UsePollingFetch.timers s)) as Hw.
    destruct (UsePollingFetch.cleanup _ _ _). simpl in *. by rewrite Hw.
Qed.

Lemma poll_coherent_step {T} (windowFetch : FetchImpl T) s ev :
  poll_no_null windowFetch ev ->
  bodies_not_null (UsePollingFetch.rt s) ∧
  coherent UsePollingFetch.noError UsePollingFetch.errorFlag (UsePollingFetch.state s) ->
  bodies_not_null (UsePollingFetch.rt (UsePollingFetch.step windowFetch s ev)) ∧
  coherent UsePollingFetch.noError UsePollingFetch.errorFlag
    (UsePollingFetch.state (UsePollingFetch.step windowFetch s ev)).
Proof.
  intros Hev [Hb Hs]. unfold UsePollingFetch.state in *.
  destruct ev as [url interval|i net|i|ms|handle|]; simpl.
  - destruct (decide (lifecycle (UsePollingFetch.rt s) = Unmounted)); [done|].
    destruct (UsePollingFetch.deps_changed url interval (UsePollingFetch.effect s)) eqn:Hd.
    + rewrite PollingFacts.usePollingFetch_new_deps by done. cbv zeta.
      cbn [UsePollingFetch.rt]. split.
      * apply bodies_call. intros j a r. cbn [attempts set_controllers].
        rewrite PollingFacts.poll_cleanup_attempts. apply Hb.
      * apply (kept_call UsePollingFetch.noError UsePollingFetch.errorFlag
                 (coherent UsePollingFetch.noError UsePollingFetch.errorFlag));
          [apply coherent_start|apply coherent_failure|].
        simpl. by rewrite PollingFacts.poll_cleanup_world.
    + by rewrite PollingFacts.usePollingFetch_same_deps.
  - split.
    + by apply bodies_fetch_settles.
    + apply (kept_fetch_settles UsePollingFetch.noError UsePollingFetch.errorFlag
               (coherent UsePollingFetch.noError UsePollingFetch.errorFlag));
        [apply coherent_start|apply coherent_failure|done].
  - split.
    + by apply bodies_json_settles.
    + by apply coherent_json_settles.
  - done.
  - unfold UsePollingFetch.tick. destruct handle as [|j]; [done|].
    destruct (UsePollingFetch.timers s !! j) as [t|]; [|done].
    destruct (negb (UsePollingFetch.cleared t) &&
              (UsePollingFetch.due t <=? UsePollingFetch.now s)); [|done].
    cbn [UsePollingFetch.rt]. split.
    + by apply bodies_call.
    + by apply (kept_call UsePollingFetch.noError UsePollingFetch.errorFlag
                  (coherent UsePollingFetch.noError UsePollingFetch.errorFlag));
        [apply coherent_start|apply coherent_failure|].
  - destruct (decide (lifecycle (UsePollingFetch.rt s) = Mounted)); [|done].
    unfold UsePollingFetch.unmount.
    pose proof (PollingFacts.poll_cleanup_world (UsePollingFetch.effect s)
                  (UsePollingFetch.rt s) (UsePollingFetch.timers s)) as Hw.
    pose proof (PollingFacts.poll_cleanup_attempts (UsePollingFetch.effect s)
                  (UsePollingFetch.rt s) (UsePollingFetch.timers s)) as Ha.
    destruct (UsePollingFetch.cleanup _ _ _). simpl in *. split.
    + intros j a resp. cbn [attempts set_lifecycle]. rewrite Ha. apply Hb.
    + by rewrite Hw.
Qed.

Lemma poll_loading_run {T} (windowFetch : FetchImpl T) evs :
  loading_without_error UsePollingFetch.noError
    (UsePollingFetch.state (UsePollingFetch.run windowFetch UsePollingFetch.initial evs)).
Proof.
  assert (H : ∀ s, loading_without_error UsePollingFetch.noError (UsePollingFetch.state s) ->
              loading_without_error UsePollingFetch.noError
                (UsePollingFetch.state (UsePollingFetch.run windowFetch s evs))).
  { induction evs as [|ev evs IH]; intros s Hs; [done|].
    rewrite PollingFacts.poll_run_cons. apply IH. by apply poll_loading_step. }
  by apply H.
Qed.

Lemma poll_coherent_run {T} (windowFetch : FetchImpl T) evs :
  Forall (poll_no_null windowFetch) evs ->
  coherent UsePollingFetch.noError UsePollingFetch.errorFlag
    (UsePollingFetch.state (UsePollingFetch.run windowFetch UsePollingFetch.initial evs)).
Proof.
  intros Hevs.
  assert (H : ∀ s,
            bodies_not_null (UsePollingFetch.rt s) ∧
            coherent UsePollingFetch.noError UsePollingFetch.errorFlag
              (UsePollingFetch.state s) ->
            bodies_not_null (UsePollingFetch.rt (UsePollingFetch.run windowFetch s evs)) ∧
            coherent UsePollingFetch.noError UsePollingFetch.errorFlag
              (UsePollingFetch.state (UsePollingFetch.run windowFetch s evs))).
  { induction Hevs as [|ev evs Hev _ IH]; intros s Hs; [done|].
    rewrite PollingFacts.poll_run_cons. apply IH. by apply poll_coherent_step. }
  apply H. split; [done|by left].
Qed.

(** The responses of the browser's [fetch] and of the interceptors carry
    the body of the reply. *)
Lemma browserFetch_no_null {T} (rp : Reply T) :
  reply_body rp ≠ Json None -> no_null_body browserFetch (Fulfilled rp).
Proof.
  intros Hb cs url sig r Hr.
  apply TransportFacts.browserFetch_response in Hr as (rp' & [= <-] & _ & ->). done.
Qed.

Lemma appFetch_no_null {T} engine (rp : Reply T) :
  reply_body rp ≠ Json None -> no_null_body (appFetch engine) (Fulfilled rp).
Proof.
  intros Hb cs url sig r Hr.
  apply TransportFacts.appFetch_response in Hr as (rp' & [= <-] & _ & ->). done.
Qed.

Lemma rejected_no_null {T} (windowFetch : FetchImpl T) err :
  (∀ cs url sig r, windowFetch cs url sig (Rejected err) ≠ Fulfilled (FetchedResponse r)) ->
  no_null_body windowFetch (Rejected err).
Proof. intros H cs url sig r Hr. by destruct (H cs url sig r). Qed.

End StateFacts.

(** X4.  In both hooks, whatever has happened to an instance and whatever
    [window.fetch] is: while [isLoading] is set there is no error, so an
    error is never shown together with the loading flag.  And as long as
    no request has been answered with the body [null], a hook that is not
    loading has an error or has data: the cells are loading with no error,
    or not loading with an error or with data. *)
Theorem cells_are_loading_or_settled :
  (∀ (windowFetch : FetchImpl (list UseGridData.Product)) evs,
     let st := UseGridData.state (UseGridData.run windowFetch UseGridData.initial evs) in
     (isLoading st = true -> error st = None) ∧
     (Forall (Notions.grid_no_null windowFetch) evs ->
      (isLoading st = true ∧ error st = None) ∨
      (isLoading st = false ∧ (is_Some (error st) ∨ is_Some (data st))))) ∧
  (∀ T (windowFetch : FetchImpl T) evs,
     let st := UsePollingFetch.state
                 (UsePollingFetch.run windowFetch UsePollingFetch.initial evs) in
     (isLoading st = true -> error st = false) ∧
     (Forall (Notions.poll_no_null windowFetch) evs ->
      (isLoading st = true ∧ error st = false) ∨
      (isLoading st = false ∧ (error st = true ∨ is_Some (data st))))).
Proof.
  split.
  - intros windowFetch evs st. split.
    + apply (StateFacts.grid_loading_run windowFetch evs).
    + intros Hevs.
      destruct (StateFacts.grid_coherent_run windowFetch evs Hevs)
        as [?|[? [[err He]|?]]]; [by left|..].
      * right. split; [done|]. left. fold st in He. rewrite He.
        unfold UseGridData.errorMessage. by destruct err as [[? ?]|].
      * right. split; [done|]. by right.
  - intros T windowFetch evs st. split.
    + apply (StateFacts.poll_loading_run windowFetch evs).
    + intros Hevs.
      destruct (StateFacts.poll_coherent_run windowFetch evs Hevs)
        as [?|[? [[err He]|?]]]; [by left|..].
      * right. split; [done|]. by left.
      * right. split; [done|]. by right.
Qed.

(** X4 (witness): Unit A on the browser's [fetch], after an answer with
    status 200 and an empty list. *)
Lemma cells_are_loading_or_settled_witness :
  let evs := [UseGridData.Render featured; UseGridData.FetchSettles 0 (reply_ok []);
              UseGridData.JsonSettles 0] in
  let st := UseGridData.state (UseGridData.run browserFetch UseGridData.initial evs) in
  Forall (Notions.grid_no_null browserFetch) evs ∧
  ((isLoading st = true ∧ error st = None) ∨
   (isLoading st = false ∧ (is_Some (error st) ∨ is_Some (data st)))).
Proof.
  intros evs st.
  assert (H : Forall (Notions.grid_no_null browserFetch) evs).
  { repeat constructor. simpl. by apply StateFacts.browserFetch_no_null. }
  split; [exact H|].
  exact (proj2 (proj1 cells_are_loading_or_settled browserFetch evs) H).
Defined.

(** ** Unit A on the browser's [fetch] *)

Module GridBrowserFacts.

Import Notions UseGridData GridDataFacts.

Implicit Types (s : Instance) (ev : Event) (evs : list Event).

Lemma reachable_well_formed windowFetch evs : well_formed (run windowFetch initial evs).
Proof. apply grid_well_formed_run, grid_well_formed_initial. Qed.

Lemma reachable_tied evs : responses_tied (rt (run browserFetch initial evs)).
Proof. by apply responses_tied_run. Qed.

(** A mounted reachable instance has an effect, whose attempt is the
    newest and whose controller is not aborted. *)
Lemma mounted_newest s :
  well_formed s -> lifecycle (rt s) = Mounted ->
  ∃ a, last (attempts (rt s)) = Some a ∧
       S (att_controller a) = length (attempts (rt s)) ∧
       controllers (rt s) !! att_controller a = Some false.
Proof.
  intros (Hlen & Hctl & Hold & Heff) Hlc.
  destruct (effect s) as [e|]; [|by destruct Heff].
  destruct Heff as (_ & Hlast & Hlive).
  destruct (lookup_lt_is_Some_2 (attempts (rt s)) (abortController e)) as [a Ha]; [lia|].
  exists a. rewrite last_lookup, <- Hlast. simpl.
  rewrite Ha, (Hctl _ _ Ha). done.
Qed.

Lemma last_insert_older {A} (l : list A) (i : nat) (x : A) :
  (S i < length l)%nat -> last (<[i := x]> l) = last l.
Proof.
  intros Hi. rewrite !last_lookup, length_insert.
  apply list_lookup_insert_ne. lia.
Qed.

Lemma last_insert_newest {A} (l : list A) (i : nat) (x : A) :
  S i = length l -> last (<[i := x]> l) = Some x.
Proof.
  intros Hi. rewrite last_lookup, length_insert, <- Hi. simpl.
  apply list_lookup_insert_eq. lia.
Qed.

(** The settlement of an older attempt changes neither the cells nor the
    newest attempt. *)
Lemma older_settles_step evs ev :
  let s := run browserFetch initial evs in
  grid_older (length (attempts (rt s)) - 1) ev ->
  let s' := step browserFetch s ev in
  world (rt s') = world (rt s) ∧ last (attempts (rt s')) = last (attempts (rt s)) ∧
  length (attempts (rt s')) = length (attempts (rt s)) ∧
  lifecycle (rt s') = lifecycle (rt s).
Proof.
  intros s Hev s'.
  destruct ev as [apiUrl| |j net|j|]; try done; simpl in Hev.
  - assert (Hj : (S j < length (attempts (rt s)))%nat) by lia.
    split_and!.
    + apply (browser_ignores_stale_attempts evs j); [done|]. right. by eexists.
    + unfold s'. simpl.
      destruct (fetch_settles_cases errorMessage browserFetch j net (rt s))
        as [->|(?&?&?&?&_&_&->)]; [done|].
      simpl. by apply last_insert_older.
    + apply fetch_settles_length.
    + apply fetch_settles_lifecycle.
  - assert (Hj : (S j < length (attempts (rt s)))%nat) by lia.
    split_and!.
    + apply (browser_ignores_stale_attempts evs j); [done|]. by left.
    + unfold s'. simpl.
      destruct (json_settles_cases errorMessage j (rt s))
        as [->|(?&?&?&?&?&_&_&->)]; [done|].
      simpl. by apply last_insert_older.
    + apply json_settles_length.
    + apply json_settles_lifecycle.
Qed.

Lemma older_settles_run evs mid :
  let s := run browserFetch initial evs in
  Forall (grid_older (length (attempts (rt s)) - 1)) mid ->
  let s' := run browserFetch s mid in
  world (rt s') = world (rt s) ∧ last (attempts (rt s')) = last (attempts (rt s)) ∧
  length (attempts (rt s')) = length (attempts (rt s)) ∧
  lifecycle (rt s') = lifecycle (rt s).
Proof.
  intros s. induction mid as [|ev mid IH] using rev_ind; intros Hmid s'; [done|].
  apply Forall_app in Hmid as [Hmid Hev]. rewrite Forall_singleton in Hev.
  destruct (IH Hmid) as (Hw & Hl & Hn & Hlc).
  unfold s'. rewrite grid_run_snoc. unfold s in *. rewrite <- grid_run_app in *.
  rewrite <- Hn in Hev.
  destruct (older_settles_step (evs ++ mid) ev Hev) as (Hw' & Hl' & Hn' & Hlc').
  split_and!; congruence.
Qed.

(** While the newest attempt of a mounted instance is pending, the cells
    show [isLoading] and no error. *)
Lemma pending_shows_loading evs :
  let s := run browserFetch initial evs in
  lifecycle (rt s) = Mounted ->
  ∀ ph, newest_phase (rt s) = Some ph -> pending ph = true ->
  isLoading (state s) = true ∧ error (state s) = None.
Proof.
  induction evs as [|ev evs IH] using rev_ind; [done|].
  rewrite grid_run_snoc. set (s := run browserFetch initial evs) in *.
  pose proof (reachable_well_formed browserFetch evs) as Hwf. fold s in Hwf.
  cbv zeta in IH. unfold newest_phase, state in *.
  destruct ev as [apiUrl| |j net|j|]; simpl.
  - destruct (decide (lifecycle (rt s) = Unmounted)) as [Hun|Hun]; [done|].
    destruct (deps_changed apiUrl (refetchTrigger s) (effect s)) eqn:Hd.
    + rewrite useGridData_new_deps by done. cbv zeta. cbn [rt].
      intros _ ph _ _. rewrite call_fetchData_mounted; [done| |done].
      simpl. by rewrite grid_cleanup_lifecycle.
    + rewrite useGridData_same_deps by done. cbn [rt]. simpl. intros _.
      apply grid_deps_changed_false in Hd as (e & He & _).
      destruct Hwf as (_ & _ & _ & Heff). rewrite He in Heff.
      apply IH. by destruct Heff.
  - destruct (decide (lifecycle (rt s) = Mounted)); [by apply IH|done].
  - rewrite fetch_settles_lifecycle. intros Hlc ph Hph Hpend.
    destruct (mounted_newest s Hwf Hlc) as (a & Ha & Hidx & Hlive).
    destruct (decide (S j < length (attempts (rt s)))%nat) as [Hold|Hnew].
    + destruct (older_settles_step evs (FetchSettles j net)) as (Hw & Hl & _).
      { simpl. fold s. lia. }
      fold s in Hw, Hl. simpl in Hw, Hl. rewrite Hw. rewrite Hl in Hph. by eapply IH.
    + destruct (fetch_settles_cases errorMessage browserFetch j net (rt s))
        as [Heq|(url&c&ph'&w'&Hj&Hp&Heq)]; rewrite Heq in Hph |- *.
      { by eapply IH. }
      assert (S j = length (attempts (rt s))) as Hjn.
      { apply lookup_lt_Some in Hj. lia. }
      simpl in Hph. rewrite last_insert_newest in Hph by done.
      injection Hph as <-. simpl.
      destruct (browserFetch (controllers (rt s)) url (Some c) net) as [[r| |message]|err].
      * destruct (ok r) eqn:Hok.
        -- rewrite fetchData_response_ok in Hp by done. injection Hp as _ <-.
           rewrite commit_same. eapply (IH Hlc AwaitingFetch); [|done].
           rewrite last_lookup, <- Hjn. simpl. by rewrite Hj.
        -- rewrite fetchData_response_not_ok in Hp by done. by injection Hp as <- _.
      * rewrite fetchData_response_other in Hp. by injection Hp as <- _.
      * rewrite fetchData_response_undefined in Hp. by injection Hp as <- _.
      * rewrite fetchData_response_rejected in Hp.
        destruct (catch_block_returns errorMessage err (world (rt s))) as [w'' Hw''].
        rewrite Hw'' in Hp. by injection Hp as <- _.
  - rewrite json_settles_lifecycle. intros Hlc ph Hph Hpend.
    destruct (decide (S j < length (attempts (rt s)))%nat) as [Hold|Hnew].
    + destruct (older_settles_step evs (JsonSettles j)) as (Hw & Hl & _).
      { simpl. fold s. lia. }
      fold s in Hw, Hl. simpl in Hw, Hl. rewrite Hw. rewrite Hl in Hph. by eapply IH.
    + destruct (json_settles_cases errorMessage j (rt s))
        as [Heq|(url&c&r&ph'&w'&Hj&Hp&Heq)]; rewrite Heq in Hph |- *.
      { by eapply IH. }
      assert (S j = length (attempts (rt s))) as Hjn.
      { apply lookup_lt_Some in Hj. lia. }
      simpl in Hph. rewrite last_insert_newest in Hph by done.
      injection Hph as <-.
      destruct (json (controllers (rt s)) r) as [v|err].
      * rewrite fetchData_result_fulfilled in Hp. by injection Hp as <- _.
      * rewrite fetchData_result_rejected in Hp.
        destruct (catch_block_returns errorMessage err (world (rt s))) as [w'' Hw''].
        rewrite Hw'' in Hp. by injection Hp as <- _.
  - destruct (decide (lifecycle (rt s) = Mounted)); [|by apply IH]. done.
Qed.

(** The answer of the newest attempt, read after any number of older
    settlements, is what the cells hold. *)
Lemma newest_answer evs mid st (v : option (list Product)) url c :
  let s := run browserFetch initial evs in
  lifecycle (rt s) = Mounted ->
  last (attempts (rt s)) =
    Some {| att_url := url; att_controller := c; att_phase := AwaitingFetch |} ->
  200 <= st <= 299 ->
  let i := (length (attempts (rt s)) - 1)%nat in
  Forall (grid_older i) mid ->
  state (run browserFetch s
           (FetchSettles i (Fulfilled {| reply_status := st; reply_body := Json v |})
              :: mid ++ [JsonSettles i])) =
    {| data := v; isLoading := false; error := None |}.
Proof.
  intros s Hlc Hlast Hst i Hmid.
  pose proof (reachable_well_formed browserFetch evs) as Hwf. fold s in Hwf.
  destruct (mounted_newest s Hwf Hlc) as (a & Ha & Hidx & Hlive).
  rewrite Hlast in Ha. injection Ha as <-. simpl in Hidx, Hlive.
  assert (Hi : attempts (rt s) !! i =
            Some {| att_url := url; att_controller := c; att_phase := AwaitingFetch |}).
  { rewrite last_lookup in Hlast.
    replace i with (pred (length (attempts (rt s)))) by (unfold i; lia). done. }
  assert (Hci : c = i) by (unfold i; lia).
  destruct (pending_shows_loading evs Hlc AwaitingFetch) as [_ Herr]; [|done|].
  { unfold newest_phase. fold s. by rewrite Hlast. }
  fold s in Herr. unfold state in Herr.
  set (net := Fulfilled {| reply_status := st; reply_body := Json v |}).
  set (r := {| status := st; body := Json v; signal := Some c |}).
  (* the response arrives *)
  assert (Hs1 : rt (step browserFetch s (FetchSettles i net)) =
            set_attempts (<[i := {| att_url := url; att_controller := c;
                                    att_phase := AwaitingJson r |}]> (attempts (rt s)))
              (rt s)).
  { simpl. unfold fetch_settles. rewrite Hi.
    assert (browserFetch (controllers (rt s)) url (Some c) net =
              Fulfilled (FetchedResponse r)) as ->.
    { unfold browserFetch. simpl. by rewrite Hlive. }
    rewrite (run_piece_returns _ (rt s) (AwaitingJson r) (world (rt s))).
    - by rewrite commit_same.
    - apply fetchData_response_ok. unfold ok. simpl.
      apply andb_true_iff. split; lia. }
  rewrite grid_run_cons, grid_run_app. unfold s. rewrite <- grid_run_snoc.
  set (evs1 := evs ++ [FetchSettles i net]).
  assert (Hrun1 : run browserFetch initial evs1 = step browserFetch s (FetchSettles i net)).
  { unfold evs1. by rewrite grid_run_snoc. }
  assert (Hlen1 : length (attempts (rt (run browserFetch initial evs1))) =
            length (attempts (rt s))).
  { rewrite Hrun1, Hs1. simpl. by rewrite length_insert. }
  destruct (older_settles_run evs1 mid) as (Hw & Hl & Hn & Hlc2).
  { by rewrite Hlen1. }
  set (s2 := run browserFetch (run browserFetch initial evs1) mid) in *.
  assert (Hwf2 : well_formed s2).
  { unfold s2. rewrite <- grid_run_app. apply reachable_well_formed. }
  assert (Hlast2 : last (attempts (rt s2)) =
            Some {| att_url := url; att_controller := c; att_phase := AwaitingJson r |}).
  { rewrite Hl, Hrun1, Hs1. simpl. apply last_insert_newest. lia. }
  assert (Hlcm : lifecycle (rt s2) = Mounted).
  { rewrite Hlc2, Hrun1, Hs1. done. }
  destruct (mounted_newest s2 Hwf2 Hlcm) as (a2 & Ha2 & _ & Hlive2).
  rewrite Hlast2 in Ha2. injection Ha2 as <-. simpl in Hlive2.
  assert (Hi2 : attempts (rt s2) !! i =
            Some {| att_url := url; att_controller := c; att_phase := AwaitingJson r |}).
  { rewrite last_lookup in Hlast2. rewrite Hn, Hlen1 in Hlast2.
    replace i with (pred (length (attempts (rt s)))) by (unfold i; lia). done. }
  unfold state. simpl.
  rewrite (json_settles_fulfilled errorMessage i (rt s2) url c r v Hlcm Hi2).
  - simpl. rewrite Hw, Hrun1, Hs1. simpl. by rewrite Herr.
  - unfold json. simpl. by rewrite Hlive2.
Qed.

End GridBrowserFacts.

(** X5.  Unit A on the browser's [fetch], on a mounted component: as long
    as the newest attempt has not returned, [isLoading] is [true] and
    [error] is [null], whichever older attempts have settled meanwhile. *)
Theorem loading_while_newest_attempt_is_pending
    (evs : list UseGridData.Event) (ph : Phase (list UseGridData.Product)) :
  let s := UseGridData.run browserFetch UseGridData.initial evs in
  lifecycle (UseGridData.rt s) = Mounted ->
  Notions.newest_phase (UseGridData.rt s) = Some ph ->
  Notions.pending ph = true ->
  isLoading (UseGridData.state s) = true ∧ error (UseGridData.state s) = None.
Proof.
  intros s Hlc Hph Hp. by apply (GridBrowserFacts.pending_shows_loading evs Hlc ph).
Qed.

(** X5 (witness): the key changes twice, then the first two requests fail. *)
Lemma loading_while_newest_attempt_is_pending_witness :
  let s := UseGridData.run browserFetch UseGridData.initial
             [UseGridData.Render "/a"; UseGridData.Render "/b"; UseGridData.Render "/c";
              UseGridData.FetchSettles 0 reply_500; UseGridData.FetchSettles 1 reply_500] in
  isLoading (UseGridData.state s) = true ∧ error (UseGridData.state s) = None.
Proof.
  exact (loading_while_newest_attempt_is_pending
           [UseGridData.Render "/a"; UseGridData.Render "/b"; UseGridData.Render "/c";
            UseGridData.FetchSettles 0 reply_500; UseGridData.FetchSettles 1 reply_500]
           AwaitingFetch eq_refl eq_refl eq_refl).
Defined.

(** X6.  Unit A on the browser's [fetch], on a mounted component whose
    newest attempt is waiting for its response: when that response comes
    with a 2xx status and a body that parses to [v] (a list, or [null]), and
    the body has been read, the cells hold [data = v], [isLoading = false]
    and [error = null], whichever older attempts settle in between and
    however they settle. *)
Theorem newest_answer_is_shown
    (evs mid : list UseGridData.Event) (st : Z) (v : option (list UseGridData.Product))
    (url : string) (c : nat) :
  let s := UseGridData.run browserFetch UseGridData.initial evs in
  lifecycle (UseGridData.rt s) = Mounted ->
  last (attempts (UseGridData.rt s)) =
    Some {| att_url := url; att_controller := c; att_phase := AwaitingFetch |} ->
  200 <= st <= 299 ->
  let i := (length (attempts (UseGridData.rt s)) - 1)%nat in
  Forall (Notions.grid_older i) mid ->
  UseGridData.state
    (UseGridData.run browserFetch s
       (UseGridData.FetchSettles i (Fulfilled {| reply_status := st; reply_body := Json v |})
          :: mid ++ [UseGridData.JsonSettles i])) =
    {| data := v; isLoading := false; error := None |}.
Proof. apply GridBrowserFacts.newest_answer. Qed.

(** X6 (witness): the key changes from [/a] to [/b]; [/b] answers, then [/a]
    answers, then the body of [/b] is read. *)
Lemma newest_answer_is_shown_witness :
  UseGridData.state
    (UseGridData.run browserFetch
       (UseGridData.run browserFetch UseGridData.initial
          [UseGridData.Render "/a"; UseGridData.Render "/b"])
       (UseGridData.FetchSettles 1 (reply_ok products2)
          :: [UseGridData.FetchSettles 0 (reply_ok products1); UseGridData.JsonSettles 0]
          ++ [UseGridData.JsonSettles 1])) =
    {| data := Some products2; isLoading := false; error := None |}.
Proof.
  exact (newest_answer_is_shown
           [UseGridData.Render "/a"; UseGridData.Render "/b"]
           [UseGridData.FetchSettles 0 (reply_ok products1); UseGridData.JsonSettles 0]
           200 (Some products2) "/b" 1%nat eq_refl eq_refl ltac:(lia)
           ltac:(repeat constructor)).
Defined.

(** ** Unit A on any [window.fetch] *)

Module GridLifecycleFacts.

Import Notions UseGridData GridDataFacts.

Implicit Types (s : Instance) (ev : Event) (evs : list Event).
Implicit Types (windowFetch : FetchImpl (list Product)).

(** Events that keep the key and call nothing start no effect. *)
Lemma keeps_step windowFetch apiUrl s ev :
  rendered_with apiUrl s -> grid_keeps apiUrl ev ->
  let s' := step windowFetch s ev in
  rendered_with apiUrl s' ∧
  length (attempts (rt s')) = length (attempts (rt s)) ∧
  controllers (rt s') = controllers (rt s) ∧
  refetchTrigger s' = refetchTrigger s.
Proof.
  intros (Hlc & e & He & Hu & Ht) Hk.
  destruct ev as [apiUrl'| |i net|i|]; simpl in *; try done.
  - subst apiUrl'. destruct (decide (lifecycle (rt s) = Unmounted)); [congruence|].
    rewrite useGridData_same_deps by (apply grid_deps_changed_false; by exists e).
    simpl. split_and!; try done. split; [done|]. by exists e.
  - rewrite fetch_settles_length, fetch_settles_controllers. split_and!; try done.
    split; simpl; [by rewrite fetch_settles_lifecycle|by exists e].
  - rewrite json_settles_length, json_settles_controllers. split_and!; try done.
    split; simpl; [by rewrite json_settles_lifecycle|by exists e].
Qed.

Lemma keeps_run windowFetch apiUrl evs s :
  rendered_with apiUrl s -> Forall (grid_keeps apiUrl) evs ->
  let s' := run windowFetch s evs in
  length (attempts (rt s')) = length (attempts (rt s)) ∧
  controllers (rt s') = controllers (rt s) ∧
  refetchTrigger s' = refetchTrigger s.
Proof.
  intros Hs Hevs. revert s Hs.
  induction Hevs as [|ev evs Hk _ IH]; intros s Hs; [done|].
  rewrite grid_run_cons.
  destruct (keeps_step windowFetch apiUrl s ev Hs Hk) as (Hs' & Hn & Hc & Ht).
  destruct (IH _ Hs') as (Hn' & Hc' & Ht').
  split_and!; congruence.
Qed.

(** After the unmount nothing changes but the phases of the attempts. *)
Lemma unmounted_step windowFetch s ev :
  lifecycle (rt s) = Unmounted ->
  let s' := step windowFetch s ev in
  lifecycle (rt s') = Unmounted ∧
  length (attempts (rt s')) = length (attempts (rt s)) ∧
  controllers (rt s') = controllers (rt s) ∧
  state s' = state s ∧ refetchTrigger s' = refetchTrigger s.
Proof.
  intros Hlc. unfold state. destruct ev as [apiUrl| |i net|i|]; simpl.
  - by destruct (decide (lifecycle (rt s) = Unmounted)).
  - destruct (decide (lifecycle (rt s) = Mounted)); [congruence|done].
  - rewrite fetch_settles_lifecycle, fetch_settles_length, fetch_settles_controllers.
    split_and!; try done.
    destruct (fetch_settles_cases errorMessage windowFetch i net (rt s))
      as [->|(?&?&?&?&_&_&->)]; [done|].
    simpl. rewrite commit_hook, Hlc. done.
  - rewrite json_settles_lifecycle, json_settles_length, json_settles_controllers.
    split_and!; try done.
    destruct (json_settles_cases errorMessage i (rt s))
      as [->|(?&?&?&?&?&_&_&->)]; [done|].
    simpl. rewrite commit_hook, Hlc. done.
  - destruct (decide (lifecycle (rt s) = Mounted)); [congruence|done].
Qed.

Lemma unmounted_grid_run windowFetch evs s :
  lifecycle (rt s) = Unmounted ->
  let s' := run windowFetch s evs in
  length (attempts (rt s')) = length (attempts (rt s)) ∧
  controllers (rt s') = controllers (rt s) ∧
  state s' = state s ∧ refetchTrigger s' = refetchTrigger s.
Proof.
  revert s. induction evs as [|ev evs IH]; intros s Hlc; [done|].
  rewrite grid_run_cons.
  destruct (unmounted_step windowFetch s ev Hlc) as (Hlc' & Hn & Hc & Hst & Ht).
  destruct (IH _ Hlc') as (Hn' & Hc' & Hst' & Ht').
  split_and!; congruence.
Qed.

(** The newest attempt is the one of the current effect, for its key. *)
Lemma newest_is_for_key windowFetch evs :
  let s := run windowFetch initial evs in
  ∀ e, effect s = Some e ->
       ∃ a, last (attempts (rt s)) = Some a ∧ att_url a = dep_apiUrl e ∧
            att_controller a = abortController e.
Proof.
  induction evs as [|ev evs IH] using rev_ind; [done|].
  rewrite grid_run_snoc. set (s := run windowFetch initial evs) in *. cbv zeta in IH.
  assert (Hsettle : ∀ r : Runtime (option string) (list Product),
            length (attempts r) = length (attempts (rt s)) ->
            (∀ j a, attempts r !! j = Some a ->
               ∃ a0, attempts (rt s) !! j = Some a0 ∧ att_url a0 = att_url a ∧
                     att_controller a0 = att_controller a) ->
            ∀ e, effect s = Some e ->
                 ∃ a, last (attempts r) = Some a ∧ att_url a = dep_apiUrl e ∧
                      att_controller a = abortController e).
  { intros r Hn Hlook e He. destruct (IH e He) as (a0 & Ha0 & Hu0 & Hc0).
    rewrite last_lookup in Ha0. rewrite last_lookup, Hn.
    destruct (lookup_lt_is_Some_2 (attempts r) (pred (length (attempts (rt s)))))
      as [a Ha].
    { rewrite Hn. by eapply lookup_lt_Some. }
    exists a. split; [done|].
    destruct (Hlook _ _ Ha) as (a0' & Ha0' & <- & <-).
    rewrite Ha0 in Ha0'. by injection Ha0' as <-. }
  destruct ev as [apiUrl| |i net|i|]; simpl.
  - destruct (decide (lifecycle (rt s) = Unmounted)); [done|].
    destruct (deps_changed apiUrl (refetchTrigger s) (effect s)) eqn:Hd.
    + rewrite useGridData_new_deps by done. cbv zeta. cbn [effect rt].
      intros e [= <-].
      destruct (call_fetchData_attempts noError errorMessage windowFetch apiUrl
                  (length (controllers (cleanup (effect s) (set_lifecycle Mounted (rt s)))))
                  (set_controllers
                     (controllers (cleanup (effect s) (set_lifecycle Mounted (rt s))) ++
                      [false])
                     (cleanup (effect s) (set_lifecycle Mounted (rt s)))))
        as (ph & _ & ->).
      eexists. by rewrite last_snoc.
    + rewrite useGridData_same_deps by done. done.
  - by destruct (decide (lifecycle (rt s) = Mounted)).
  - apply Hsettle; [apply fetch_settles_length|]. intros j a. apply fetch_settles_lookup.
  - apply Hsettle; [apply json_settles_length|]. intros j a. apply json_settles_lookup.
  - destruct (decide (lifecycle (rt s) = Mounted)); [|done]. done.
Qed.

End GridLifecycleFacts.

(** X7.  Unit A, whatever [window.fetch] is: once an instance has rendered
    with a key, renders with the same key and settlements of promises, in
    any number and order, start no attempt, abort nothing and leave the
    counter alone: the state updates of the hook do not make its effect
    run again. *)
Theorem rerenders_start_no_attempt
    (windowFetch : FetchImpl (list UseGridData.Product))
    (evs0 evs : list UseGridData.Event) (apiUrl : string) :
  let s0 := UseGridData.run windowFetch UseGridData.initial evs0 in
  lifecycle (UseGridData.rt s0) ≠ Unmounted ->
  Forall (Notions.grid_keeps apiUrl) evs ->
  let s := UseGridData.step windowFetch s0 (UseGridData.Render apiUrl) in
  let s' := UseGridData.run windowFetch s evs in
  length (attempts (UseGridData.rt s')) = length (attempts (UseGridData.rt s)) ∧
  controllers (UseGridData.rt s') = controllers (UseGridData.rt s) ∧
  UseGridData.refetchTrigger s' = UseGridData.refetchTrigger s.
Proof.
  intros s0 Hlc Hevs s s'. apply (GridLifecycleFacts.keeps_run windowFetch apiUrl); [|done].
  unfold s. simpl. destruct (decide (lifecycle (UseGridData.rt s0) = Unmounted)); [done|].
  by apply GridDataFacts.rendered_with_render.
Qed.

(** X7 (witness): after the mount, the response, the body and three more
    renders there is still one attempt. *)
Lemma rerenders_start_no_attempt_witness :
  length (attempts (UseGridData.rt
    (UseGridData.run (appFetch v8)
       (UseGridData.step (appFetch v8) UseGridData.initial (UseGridData.Render featured))
       [UseGridData.Render featured; UseGridData.FetchSettles 0 (reply_ok products1);
        UseGridData.Render featured; UseGridData.JsonSettles 0;
        UseGridData.Render featured]))) = 1%nat.
Proof.
  exact (proj1 (rerenders_start_no_attempt (appFetch v8) []
                  [UseGridData.Render featured; UseGridData.FetchSettles 0 (reply_ok products1);
                   UseGridData.Render featured; UseGridData.JsonSettles 0;
                   UseGridData.Render featured]
                  featured ltac:(done) ltac:(repeat constructor))).
Defined.

(** X8.  Unit A, whatever [window.fetch] is: once the component is
    unmounted, every controller it made is aborted, and whatever happens
    afterwards (late settlements, calls of [refetchData], renders) starts
    no attempt and changes neither the cells nor the counter. *)
Theorem nothing_happens_after_unmount
    (windowFetch : FetchImpl (list UseGridData.Product))
    (evs evs' : list UseGridData.Event) :
  let s := UseGridData.run windowFetch UseGridData.initial evs in
  lifecycle (UseGridData.rt s) = Unmounted ->
  let s' := UseGridData.run windowFetch s evs' in
  Forall (λ b, b = true) (controllers (UseGridData.rt s)) ∧
  controllers (UseGridData.rt s') = controllers (UseGridData.rt s) ∧
  length (attempts (UseGridData.rt s')) = length (attempts (UseGridData.rt s)) ∧
  UseGridData.state s' = UseGridData.state s ∧
  UseGridData.refetchTrigger s' = UseGridData.refetchTrigger s.
Proof.
  intros s Hlc s'.
  destruct (GridLifecycleFacts.unmounted_grid_run windowFetch evs' s Hlc)
    as (Hn & Hc & Hst & Ht).
  split_and!; try done.
  pose proof (GridBrowserFacts.reachable_well_formed windowFetch evs) as Hwf. fold s in Hwf.
  destruct Hwf as (Hlen & _ & _ & Heff).
  destruct (UseGridData.effect s) as [e|].
  { destruct Heff as [? _]. congruence. }
  destruct Heff as [_ Hall]. apply Forall_lookup. intros j b Hj.
  rewrite Hall in Hj; [by injection Hj|]. rewrite <- Hlen. by eapply lookup_lt_Some.
Qed.

(** X8 (witness): the component is unmounted while its request is pending;
    the mock handler answers afterwards, and [refetchData] is called. *)
Lemma nothing_happens_after_unmount_witness :
  UseGridData.state
    (UseGridData.run (appFetch v8)
       (UseGridData.run (appFetch v8) UseGridData.initial
          [UseGridData.Render featured; UseGridData.Unmount])
       [UseGridData.FetchSettles 0 (reply_ok products1); UseGridData.JsonSettles 0;
        UseGridData.Refetch; UseGridData.Render featured]) =
    {| data := None; isLoading := true; error := None |}.
Proof.
  exact (proj1 (proj2 (proj2 (proj2
           (nothing_happens_after_unmount (appFetch v8)
              [UseGridData.Render featured; UseGridData.Unmount]
              [UseGridData.FetchSettles 0 (reply_ok products1); UseGridData.JsonSettles 0;
               UseGridData.Refetch; UseGridData.Render featured]
              eq_refl))))).
Defined.

(** X9.  Unit A, whatever [window.fetch] is: after every render of a
    component that has not been unmounted, the newest attempt is a request
    for the key of that render, its controller is the only one that is not
    aborted, and every older attempt has had its controller aborted. *)
Theorem one_live_request_for_the_rendered_key
    (windowFetch : FetchImpl (list UseGridData.Product))
    (evs : list UseGridData.Event) (apiUrl : string) :
  let s0 := UseGridData.run windowFetch UseGridData.initial evs in
  lifecycle (UseGridData.rt s0) ≠ Unmounted ->
  let s := UseGridData.step windowFetch s0 (UseGridData.Render apiUrl) in
  ∃ a, last (attempts (UseGridData.rt s)) = Some a ∧ att_url a = apiUrl ∧
       ∀ j a', attempts (UseGridData.rt s) !! j = Some a' ->
               aborted (controllers (UseGridData.rt s)) (Some (att_controller a')) =
                 negb (bool_decide (S j = length (attempts (UseGridData.rt s)))).
Proof.
  intros s0 Hlc s.
  assert (Hs : UseGridData.rendered_with apiUrl s).
  { unfold s. simpl. destruct (decide (lifecycle (UseGridData.rt s0) = Unmounted)); [done|].
    by apply GridDataFacts.rendered_with_render. }
  destruct Hs as (Hm & e & He & Hu & _).
  assert (Hwf : UseGridData.well_formed s).
  { unfold s, s0. rewrite <- GridDataFacts.grid_run_snoc.
    apply GridBrowserFacts.reachable_well_formed. }
  destruct (GridLifecycleFacts.newest_is_for_key windowFetch
              (evs ++ [UseGridData.Render apiUrl]) e) as (a & Ha & Hau & _).
  { rewrite GridDataFacts.grid_run_snoc. exact He. }
  rewrite GridDataFacts.grid_run_snoc in Ha. fold s0 s in Ha.
  exists a. split_and!; [done|congruence|].
  destruct Hwf as (_ & Hctl & Hold & Heff). rewrite He in Heff.
  destruct Heff as (_ & Hlast & Hlive).
  intros j a' Hj. rewrite (Hctl j a' Hj). simpl.
  destruct (decide (S j = length (attempts (UseGridData.rt s)))) as [Heq|Hne].
  - rewrite bool_decide_eq_true_2 by done. simpl.
    assert (j = UseGridData.abortController e) as -> by lia. by rewrite Hlive.
  - rewrite bool_decide_eq_false_2 by done. simpl.
    rewrite Hold; [done|]. apply lookup_lt_Some in Hj. lia.
Qed.

(** X9 (witness): three renders with three keys. *)
Lemma one_live_request_for_the_rendered_key_witness :
  ∃ a, last (attempts (UseGridData.rt
         (UseGridData.step browserFetch
            (UseGridData.run browserFetch UseGridData.initial
               [UseGridData.Render "/a"; UseGridData.Render "/b"])
            (UseGridData.Render "/c")))) = Some a ∧ att_url a = "/c".
Proof.
  destruct (one_live_request_for_the_rendered_key browserFetch
              [UseGridData.Render "/a"; UseGridData.Render "/b"] "/c" ltac:(done))
    as (a & Ha & Hu & _).
  by exists a.
Defined.

(** ** Unit B: timers and cancelled attempts *)

Module PollingMoreFacts.

Import Notions UsePollingFetch PollingFacts.

Section WithData.
Context {T : Type}.

Implicit Types (s : Instance T) (ev : Event T) (evs : list (Event T)).
Implicit Types (windowFetch : FetchImpl T) (r : Runtime bool T) (ts : list Timer).

Lemma poll_reachable_well_formed windowFetch evs :
  well_formed (run windowFetch initial evs).
Proof. apply poll_well_formed_run, poll_well_formed_initial. Qed.

Lemma live_timers_cleared ts :
  Forall (λ t, cleared t = true) ts -> live_timers ts = [].
Proof.
  induction 1 as [|t ts Ht _ IH]; [done|].
  unfold live_timers in *. rewrite filter_cons, IH.
  destruct (decide (cleared t = false)); [congruence|done].
Qed.

Lemma live_timers_newest old t :
  Forall (λ t', cleared t' = true) old -> cleared t = false ->
  live_timers (old ++ [t]) = [t].
Proof.
  intros Hold Ht. unfold live_timers. rewrite filter_app.
  fold (live_timers old). rewrite (live_timers_cleared old Hold). simpl.
  rewrite filter_cons. destruct (decide (cleared t = false)); done.
Qed.

(** The live timers of a reachable instance. *)
Lemma live_timers_spec s :
  well_formed s ->
  match effect s with
  | Some e =>
      if polls (dep_interval e) then
        ∃ t, live_timers (timers s) = [t] ∧ timer_url t = dep_url e ∧
             timer_controller t = abortController e ∧
             delay t = timer_delay (default NaN (dep_interval e)) ∧
             due t <= now s + delay t
      else live_timers (timers s) = []
  | None => live_timers (timers s) = []
  end.
Proof.
  intros (_ & _ & Heff). destruct (effect s) as [e|].
  - destruct Heff as (_ & _ & _ & _ & Hpoll). destruct (polls (dep_interval e)).
    + destruct Hpoll as (old & t & Hts & Hold & Ht & _ & Hc & Hu & Hi & Hdue).
      exists t. rewrite Hts. split_and!; try done; try lia. by apply live_timers_newest.
    + destruct Hpoll as [_ Hall]. by apply live_timers_cleared.
  - destruct Heff as (_ & _ & Hall). by apply live_timers_cleared.
Qed.

(** A render leaves the effect of its parameters behind. *)
Lemma render_effect windowFetch url interval s :
  ∃ e, effect (usePollingFetch windowFetch url interval s) = Some e ∧
       dep_url e = url ∧ dep_interval e = interval.
Proof.
  destruct (deps_changed url interval (effect s)) eqn:Hd.
  - destruct (render_new_deps windowFetch url interval s Hd) as (e & He & Hu & Hi & _).
    by exists e.
  - rewrite usePollingFetch_same_deps by done. cbn [effect].
    unfold deps_changed in Hd. destruct (effect s) as [e|]; [|done].
    apply negb_false_iff, bool_decide_eq_true in Hd as [Hu Hi]. by exists e.
Qed.

(** *** The browser's [fetch] *)

Lemma poll_tied_step s ev :
  responses_tied (rt s) -> responses_tied (rt (step browserFetch s ev)).
Proof.
  intros Htied. destruct ev as [url interval|i net|i|ms|handle|]; simpl.
  - destruct (decide (lifecycle (rt s) = Unmounted)); [done|].
    destruct (deps_changed url interval (effect s)) eqn:Hd.
    + rewrite usePollingFetch_new_deps by done. cbv zeta. cbn [rt].
      apply responses_tied_call. intros i a resp. cbn [attempts set_controllers].
      rewrite poll_cleanup_attempts. apply Htied.
    + by rewrite usePollingFetch_same_deps.
  - by apply responses_tied_fetch_settles.
  - by apply responses_tied_json_settles.
  - done.
  - unfold tick. destruct handle as [|j]; [done|].
    destruct (timers s !! j) as [t|]; [|done].
    destruct (negb (cleared t) && (due t <=? now s)); [|done].
    cbn [rt]. by apply responses_tied_call.
  - destruct (decide (lifecycle (rt s) = Mounted)); [|done].
    unfold unmount.
    destruct (cleanup (effect s) (rt s) (timers s)) as [r ts] eqn:Hc.
    intros i a r0. simpl.
    replace (attempts r) with (attempts (cleanup (effect s) (rt s) (timers s)).1)
      by (by rewrite Hc).
    rewrite poll_cleanup_attempts. apply Htied.
Qed.

Lemma poll_tied_run s evs :
  responses_tied (rt s) -> responses_tied (rt (run browserFetch s evs)).
Proof.
  revert s. induction evs as [|ev evs IH]; intros s Hs; [done|].
  rewrite poll_run_cons. apply IH. by apply poll_tied_step.
Qed.

End WithData.

End PollingMoreFacts.

(** ** Failures other than the HTTP status *)

Module FailureFacts.

Import AttemptFacts RuntimeFacts.

Section Facts.
Context {E T : Type}.
Context (toError : Thrown -> E).

Implicit Types (rt : Runtime E T).

Lemma fetch_settles_failure (windowFetch : FetchImpl T) i net rt url c err :
  lifecycle rt = Mounted ->
  attempts rt !! i = Some {| att_url := url; att_controller := c; att_phase := AwaitingFetch |} ->
  windowFetch (controllers rt) url (Some c) net = Rejected err ->
  isAbortError err = false ->
  world (fetch_settles toError windowFetch i net rt) =
    {| hook := {| data := data (hook (world rt)); isLoading := false;
                  error := toError err |};
       console := console (world rt) ++ [err] |}.
Proof.
  intros Hlc Hi Hp Ha. unfold fetch_settles. rewrite Hi, Hp.
  rewrite (run_piece_returns _ rt Returned _
             (eq_trans (fetchData_response_rejected toError err (world rt))
                       (catch_block_failure toError err (world rt) Ha))).
  rewrite Hlc. reflexivity.
Qed.

Lemma fetch_settles_ok (windowFetch : FetchImpl T) i net rt url c r :
  attempts rt !! i = Some {| att_url := url; att_controller := c; att_phase := AwaitingFetch |} ->
  windowFetch (controllers rt) url (Some c) net = Fulfilled (FetchedResponse r) ->
  ok r = true ->
  fetch_settles toError windowFetch i net rt =
    set_attempts (<[i := {| att_url := url; att_controller := c;
                            att_phase := AwaitingJson r |}]> (attempts rt)) rt.
Proof.
  intros Hi Hp Hok. unfold fetch_settles. rewrite Hi, Hp.
  rewrite (run_piece_returns _ rt _ _ (fetchData_response_ok toError r (world rt) Hok)).
  by rewrite commit_same.
Qed.

Lemma fetch_settles_other (windowFetch : FetchImpl T) i net rt url c :
  lifecycle rt = Mounted ->
  attempts rt !! i = Some {| att_url := url; att_controller := c; att_phase := AwaitingFetch |} ->
  windowFetch (controllers rt) url (Some c) net = Fulfilled FetchedOther ->
  world (fetch_settles toError windowFetch i net rt) =
    {| hook := {| data := data (hook (world rt)); isLoading := false;
                  error := toError httpErrorUndefined |};
       console := console (world rt) ++ [httpErrorUndefined] |}.
Proof.
  intros Hlc Hi Hp. unfold fetch_settles. rewrite Hi, Hp.
  rewrite (run_piece_returns _ rt _ _ (fetchData_response_other toError (world rt))).
  rewrite Hlc. reflexivity.
Qed.

Lemma fetch_settles_undefined (windowFetch : FetchImpl T) i net rt url c message :
  lifecycle rt = Mounted ->
  attempts rt !! i = Some {| att_url := url; att_controller := c; att_phase := AwaitingFetch |} ->
  windowFetch (controllers rt) url (Some c) net = Fulfilled (FetchedUndefined message) ->
  world (fetch_settles toError windowFetch i net rt) =
    {| hook := {| data := data (hook (world rt)); isLoading := false;
                  error := toError (TypeError message) |};
       console := console (world rt) ++ [TypeError message] |}.
Proof.
  intros Hlc Hi Hp. unfold fetch_settles. rewrite Hi, Hp.
  rewrite (run_piece_returns _ rt _ _
             (fetchData_response_undefined toError message (world rt))).
  rewrite Hlc. reflexivity.
Qed.

Lemma json_settles_failure i rt url c r err :
  lifecycle rt = Mounted ->
  attempts rt !! i = Some {| att_url := url; att_controller := c; att_phase := AwaitingJson r |} ->
  json (controllers rt) r = Rejected err ->
  isAbortError err = false ->
  world (json_settles toError i rt) =
    {| hook := {| data := data (hook (world rt)); isLoading := false;
                  error := toError err |};
       console := console (world rt) ++ [err] |}.
Proof.
  intros Hlc Hi Hp Ha. unfold json_settles. rewrite Hi, Hp.
  rewrite (run_piece_returns _ rt Returned _
             (eq_trans (fetchData_result_rejected toError err (world rt))
                       (catch_block_failure toError err (world rt) Ha))).
  rewrite Hlc. reflexivity.
Qed.

(** A request that fails, an acceptable response whose body does not
    parse, or something that is no response. *)
Lemma attempt_fails (windowFetch : FetchImpl T) i net rt url c :
  lifecycle rt = Mounted ->
  attempts rt !! i = Some {| att_url := url; att_controller := c; att_phase := AwaitingFetch |} ->
  match windowFetch (controllers rt) url (Some c) net with
  | Rejected err =>
      isAbortError err = false ->
      world (fetch_settles toError windowFetch i net rt) =
        {| hook := {| data := data (hook (world rt)); isLoading := false;
                      error := toError err |};
           console := console (world rt) ++ [err] |}
  | Fulfilled (FetchedResponse r) =>
      ok r = true ->
      ∀ message, body r = NotJson message ->
      aborted (controllers rt) (signal r) = false ->
      world (fetch_settles toError windowFetch i net rt) = world rt ∧
      world (json_settles toError i (fetch_settles toError windowFetch i net rt)) =
        {| hook := {| data := data (hook (world rt)); isLoading := false;
                      error := toError (SyntaxError message) |};
           console := console (world rt) ++ [SyntaxError message] |}
  | Fulfilled FetchedOther =>
      world (fetch_settles toError windowFetch i net rt) =
        {| hook := {| data := data (hook (world rt)); isLoading := false;
                      error := toError httpErrorUndefined |};
           console := console (world rt) ++ [httpErrorUndefined] |}
  | Fulfilled (FetchedUndefined message) =>
      world (fetch_settles toError windowFetch i net rt) =
        {| hook := {| data := data (hook (world rt)); isLoading := false;
                      error := toError (TypeError message) |};
           console := console (world rt) ++ [TypeError message] |}
  end.
Proof.
  intros Hlc Hi. destruct (windowFetch _ _ _ _) as [[r| |message]|err] eqn:Hp.
  - intros Hok message Hbody Hsig.
    rewrite (fetch_settles_ok windowFetch i net rt url c r Hi Hp Hok).
    split; [done|].
    rewrite (json_settles_failure i _ url c r (SyntaxError message)); [done|done| | |done].
    + simpl. apply list_lookup_insert_eq. by eapply lookup_lt_Some.
    + simpl. unfold json. by rewrite Hsig, Hbody.
  - by eapply fetch_settles_other.
  - by eapply fetch_settles_undefined.
  - intros Ha. by eapply fetch_settles_failure.
Qed.

End Facts.

End FailureFacts.

(** X10.  Unit B, whatever [window.fetch] is and whatever has happened to
    the instance short of the unmount: after a render with [url] and
    [interval], and any events that keep these parameters, the browser
    holds exactly one timer that has not been cleared when [interval] is
    positive, and none otherwise.  That timer fetches [url] with the
    controller of the current effect, its delay is the one the browser
    makes of [interval] ([interval] itself when that is a whole number
    below [2 ** 31]), and its next run is due no later than one delay from
    now.  No timer of an earlier effect is left running. *)
Theorem one_interval_per_effect
    (T : Type) (windowFetch : FetchImpl T) (evs0 evs : list (UsePollingFetch.Event T))
    (url : string) (interval : option Number) :
  let s0 := UsePollingFetch.run windowFetch UsePollingFetch.initial evs0 in
  lifecycle (UsePollingFetch.rt s0) ≠ Unmounted ->
  Forall (UsePollingFetch.keeps url interval) evs ->
  let s := UsePollingFetch.run windowFetch
             (UsePollingFetch.step windowFetch s0 (UsePollingFetch.Render url interval)) evs in
  if UsePollingFetch.polls interval then
    ∃ t e, Notions.live_timers (UsePollingFetch.timers s) = [t] ∧
           UsePollingFetch.effect s = Some e ∧
           UsePollingFetch.timer_url t = url ∧
           UsePollingFetch.timer_controller t = UsePollingFetch.abortController e ∧
           UsePollingFetch.delay t = UsePollingFetch.timer_delay (default NaN interval) ∧
           (∀ ms, interval = Some (whole ms) -> 0 < ms < 2 ^ 31 ->
                  UsePollingFetch.delay t = ms) ∧
           UsePollingFetch.due t <= UsePollingFetch.now s + UsePollingFetch.delay t
  else Notions.live_timers (UsePollingFetch.timers s) = [].
Proof.
  intros s0 Hlc Hevs s.
  set (s1 := UsePollingFetch.step windowFetch s0 (UsePollingFetch.Render url interval)).
  assert (Hwf1 : UsePollingFetch.well_formed s1).
  { unfold s1, s0. rewrite <- PollingFacts.poll_run_snoc.
    apply PollingMoreFacts.poll_reachable_well_formed. }
  assert (Hs1 : s1 = UsePollingFetch.usePollingFetch windowFetch url interval s0).
  { unfold s1. simpl. by destruct (decide (lifecycle (UsePollingFetch.rt s0) = Unmounted)). }
  destruct (PollingMoreFacts.render_effect windowFetch url interval s0) as (e & He & Hu & Hi).
  rewrite <- Hs1 in He.
  assert (He2 : UsePollingFetch.effect s = Some e)
    by (by eapply PollingFacts.keeps_run_effect).
  assert (Hwf : UsePollingFetch.well_formed s)
    by (by apply PollingFacts.poll_well_formed_run).
  pose proof (PollingMoreFacts.live_timers_spec s Hwf) as Hlive.
  rewrite He2, Hi in Hlive. destruct (UsePollingFetch.polls interval); [|done].
  destruct Hlive as (t & Hts & Htu & Htc & Hti & Hdue).
  exists t, e. split_and!; try done; [congruence|].
  intros ms -> Hms. rewrite Hti. simpl. apply PollingFacts.timer_delay_whole. lia.
Qed.

(** X10 (witness): polling every 3000 ms, then every 5000 ms; 4000 ms
    later one timer is live, and it is the one of the second effect. *)
Lemma one_interval_per_effect_witness :
  ∃ t,
    Notions.live_timers
      (UsePollingFetch.timers
         (UsePollingFetch.run (T:=string) browserFetch
            (UsePollingFetch.step browserFetch
               (UsePollingFetch.run browserFetch UsePollingFetch.initial
                  [UsePollingFetch.Render "/api/posts" (Some (whole 3000));
                   UsePollingFetch.Elapse 1000])
               (UsePollingFetch.Render "/api/posts" (Some (whole 5000))))
            [UsePollingFetch.Elapse 4000])) = [t] ∧
    UsePollingFetch.timer_url t = "/api/posts" ∧
    UsePollingFetch.delay t = 5000.
Proof.
  destruct (one_interval_per_effect string browserFetch
              [UsePollingFetch.Render "/api/posts" (Some (whole 3000));
               UsePollingFetch.Elapse 1000]
              [UsePollingFetch.Elapse 4000] "/api/posts" (Some (whole 5000))
              ltac:(done) ltac:(repeat constructor))
    as (t & e & Hts & _ & Hu & _ & _ & Hd & _).
  exists t. split_and!; [exact Hts|exact Hu|exact (Hd 5000 eq_refl ltac:(lia))].
Defined.

(** X11.  Unit B on the browser's [fetch], whatever has happened to the
    instance: when the controller of an attempt has been aborted (the
    parameters have changed since it was issued, or the component is
    unmounted), the settlement of its [fetch] promise and of its
    [response.json()] promise change neither [data], [isLoading], [error]
    nor the console. *)
Theorem cancelled_poll_changes_nothing
    (T : Type) (evs : list (UsePollingFetch.Event T)) (i : nat) (a : Pending T) :
  let s := UsePollingFetch.run browserFetch UsePollingFetch.initial evs in
  attempts (UsePollingFetch.rt s) !! i = Some a ->
  aborted (controllers (UsePollingFetch.rt s)) (Some (att_controller a)) = true ->
  (∀ net, world (UsePollingFetch.rt
                   (UsePollingFetch.step browserFetch s (UsePollingFetch.FetchSettles i net))) =
          world (UsePollingFetch.rt s)) ∧
  world (UsePollingFetch.rt
           (UsePollingFetch.step browserFetch s (UsePollingFetch.JsonSettles i))) =
    world (UsePollingFetch.rt s).
Proof.
  intros s Hi Ha.
  assert (Htied : responses_tied (UsePollingFetch.rt s))
    by (by apply PollingMoreFacts.poll_tied_run).
  exact (RuntimeFacts.browser_settles_aborted UsePollingFetch.errorFlag i a _ Htied Hi Ha).
Qed.

(** X11 (witness): the URL changes while the first request is pending, and
    the first request is then answered. *)
Lemma cancelled_poll_changes_nothing_witness :
  world (UsePollingFetch.rt
    (UsePollingFetch.run (T:=string) browserFetch UsePollingFetch.initial
       [UsePollingFetch.Render "/api/posts" (Some (whole 3000));
        UsePollingFetch.Render "/api/users" (Some (whole 3000));
        UsePollingFetch.FetchSettles 0 (reply_ok "posts")])) =
    {| hook := {| data := None; isLoading := true; error := false |}; console := [] |}.
Proof.
  exact (proj1 (cancelled_poll_changes_nothing string
                  [UsePollingFetch.Render "/api/posts" (Some (whole 3000));
                   UsePollingFetch.Render "/api/users" (Some (whole 3000))]
                  0%nat {| att_url := "/api/posts"; att_controller := 0;
                           att_phase := AwaitingFetch |}
                  eq_refl eq_refl) (reply_ok "posts")).
Defined.

(** X12.  In either hook, on a mounted component and whatever
    [window.fetch] is: when the [fetch] promise of a waiting attempt is
    rejected with anything but an [AbortError] (a network failure), the
    attempt ends with [isLoading = false], the error recorded (in Unit A
    the message of the [Error], or "Failed to fetch data" for a value that
    is no [Error]; in Unit B [true]), [data] as it was and the thrown value
    on the console.  When the response is 2xx but its body does not parse,
    the response itself changes no cell, and the rejection of
    [response.json()] ends the attempt in the same way, with the message of
    the engine's [SyntaxError], whatever that is.  When the promise is
    fulfilled with something that is no response, the attempt ends in the
    same way, in Unit A with "HTTP error! status: undefined", or with the
    engine's message for the reading of a property of [undefined]. *)
Theorem failed_request_or_body_sets_error :
  (∀ (windowFetch : FetchImpl (list UseGridData.Product)) s i net url c,
     lifecycle (UseGridData.rt s) = Mounted ->
     attempts (UseGridData.rt s) !! i =
       Some {| att_url := url; att_controller := c; att_phase := AwaitingFetch |} ->
     let s1 := UseGridData.step windowFetch s (UseGridData.FetchSettles i net) in
     match windowFetch (controllers (UseGridData.rt s)) url (Some c) net with
     | Rejected err =>
         isAbortError err = false ->
         world (UseGridData.rt s1) =
           {| hook := {| data := data (UseGridData.state s); isLoading := false;
                         error := Some match err with
                                       | ThrownError e => message e
                                       | ThrownValue _ => "Failed to fetch data"
                                       end |};
              console := console (world (UseGridData.rt s)) ++ [err] |}
     | Fulfilled (FetchedResponse r) =>
         ok r = true ->
         ∀ message, body r = NotJson message ->
         aborted (controllers (UseGridData.rt s)) (signal r) = false ->
         world (UseGridData.rt s1) = world (UseGridData.rt s) ∧
         world (UseGridData.rt (UseGridData.step windowFetch s1 (UseGridData.JsonSettles i))) =
           {| hook := {| data := data (UseGridData.state s); isLoading := false;
                         error := Some message |};
              console := console (world (UseGridData.rt s)) ++ [SyntaxError message] |}
     | Fulfilled FetchedOther =>
         world (UseGridData.rt s1) =
           {| hook := {| data := data (UseGridData.state s); isLoading := false;
                         error := Some "HTTP error! status: undefined" |};
              console := console (world (UseGridData.rt s)) ++ [httpErrorUndefined] |}
     | Fulfilled (FetchedUndefined message) =>
         world (UseGridData.rt s1) =
           {| hook := {| data := data (UseGridData.state s); isLoading := false;
                         error := Some message |};
              console := console (world (UseGridData.rt s)) ++ [TypeError message] |}
     end) ∧
  (∀ T (windowFetch : FetchImpl T) (s : UsePollingFetch.Instance T) i net url c,
     lifecycle (UsePollingFetch.rt s) = Mounted ->
     attempts (UsePollingFetch.rt s) !! i =
       Some {| att_url := url; att_controller := c; att_phase := AwaitingFetch |} ->
     let s1 := UsePollingFetch.step windowFetch s (UsePollingFetch.FetchSettles i net) in
     match windowFetch (controllers (UsePollingFetch.rt s)) url (Some c) net with
     | Rejected err =>
         isAbortError err = false ->
         world (UsePollingFetch.rt s1) =
           {| hook := {| data := data (UsePollingFetch.state s); isLoading := false;
                         error := true |};
              console := console (world (UsePollingFetch.rt s)) ++ [err] |}
     | Fulfilled (FetchedResponse r) =>
         ok r = true ->
         ∀ message, body r = NotJson message ->
         aborted (controllers (UsePollingFetch.rt s)) (signal r) = false ->
         world (UsePollingFetch.rt s1) = world (UsePollingFetch.rt s) ∧
         world (UsePollingFetch.rt
                  (UsePollingFetch.step windowFetch s1 (UsePollingFetch.JsonSettles i))) =
           {| hook := {| data := data (UsePollingFetch.state s); isLoading := false;
                         error := true |};
              console := console (world (UsePollingFetch.rt s)) ++ [SyntaxError message] |}
     | Fulfilled FetchedOther =>
         world (UsePollingFetch.rt s1) =
           {| hook := {| data := data (UsePollingFetch.state s); isLoading := false;
                         error := true |};
              console := console (world (UsePollingFetch.rt s)) ++ [httpErrorUndefined] |}
     | Fulfilled (FetchedUndefined message) =>
         world (UsePollingFetch.rt s1) =
           {| hook := {| data := data (UsePollingFetch.state s); isLoading := false;
                         error := true |};
              console := console (world (UsePollingFetch.rt s)) ++ [TypeError message] |}
     end).
Proof.
  split.
  - intros windowFetch s i net url c Hlc Hi s1.
    exact (FailureFacts.attempt_fails UseGridData.errorMessage windowFetch i net
             (UseGridData.rt s) url c Hlc Hi).
  - intros T windowFetch s i net url c Hlc Hi s1.
    exact (FailureFacts.attempt_fails UsePollingFetch.errorFlag windowFetch i net
             (UsePollingFetch.rt s) url c Hlc Hi).
Qed.

(** X12 (witness): Unit A, a network failure with the data of an earlier
    answer on screen; Unit B on [/api/posts], answered with a body that is
    not JSON. *)
Lemma failed_request_or_body_sets_error_witness :
  UseGridData.state
    (UseGridData.run browserFetch UseGridData.initial
       [UseGridData.Render featured; UseGridData.FetchSettles 0 (reply_ok products1);
        UseGridData.JsonSettles 0; UseGridData.Refetch; UseGridData.Render featured;
        UseGridData.FetchSettles 1
          (Rejected (ThrownError {| name := "TypeError"; message := "Failed to fetch" |}))]) =
    {| data := Some products1; isLoading := false; error := Some "Failed to fetch" |} ∧
  UsePollingFetch.state
    (UsePollingFetch.run (T:=string) (appFetch v8) UsePollingFetch.initial
       [UsePollingFetch.Render "/api/posts" None;
        UsePollingFetch.FetchSettles 0
          (Fulfilled {| reply_status := 200; reply_body := NotJson "Unexpected end" |});
        UsePollingFetch.JsonSettles 0]) =
    {| data := None; isLoading := false; error := true |}.
Proof.
  split.
  - pose proof (proj1 failed_request_or_body_sets_error browserFetch
                  (UseGridData.run browserFetch UseGridData.initial
                     [UseGridData.Render featured;
                      UseGridData.FetchSettles 0 (reply_ok products1);
                      UseGridData.JsonSettles 0; UseGridData.Refetch;
                      UseGridData.Render featured])
                  1%nat
                  (Rejected (ThrownError {| name := "TypeError";
                                            message := "Failed to fetch" |}))
                  featured 1%nat) as H.
    vm_compute in H. vm_compute.
    exact (f_equal hook (H eq_refl eq_refl eq_refl)).
  - pose proof (proj2 failed_request_or_body_sets_error string (appFetch v8)
                  (UsePollingFetch.run (appFetch v8) UsePollingFetch.initial
                     [UsePollingFetch.Render "/api/posts" None])
                  0%nat
                  (Fulfilled {| reply_status := 200; reply_body := NotJson "Unexpected end" |})
                  "/api/posts" 0%nat) as H.
    vm_compute in H. vm_compute.
    exact (f_equal hook (proj2 (H eq_refl eq_refl eq_refl _ eq_refl eq_refl))).
Defined.

(** ** What the components show *)

Module ViewFacts.

Import Notions StateFacts.

(** The cells every render has returned: no error while loading; and, as
    long as no body was [null], an error or data when not loading. *)
Lemma grid_renders_loading windowFetch evs :
  Forall (λ r, UseGridData.res_isLoading r = true -> UseGridData.res_error r = None)
    (UseGridData.renders (UseGridData.run windowFetch UseGridData.initial evs)).
Proof.
  induction evs as [|ev evs IH] using rev_ind; [by constructor|].
  rewrite GridDataFacts.grid_run_snoc.
  destruct (GridDataFacts.grid_step_renders windowFetch
              (UseGridData.run windowFetch UseGridData.initial evs) ev) as [->|[f ->]];
    [done|].
  apply Forall_app. split; [done|]. apply Forall_singleton. simpl.
  apply (grid_loading_run windowFetch evs).
Qed.

Lemma grid_renders_coherent windowFetch evs :
  Forall (grid_no_null windowFetch) evs ->
  Forall (λ r, coherent UseGridData.noError UseGridData.errorMessage
                 {| data := UseGridData.res_data r;
                    isLoading := UseGridData.res_isLoading r;
                    error := UseGridData.res_error r |})
    (UseGridData.renders (UseGridData.run windowFetch UseGridData.initial evs)).
Proof.
  induction evs as [|ev evs IH] using rev_ind; [by constructor|].
  intros Hevs. apply Forall_app in Hevs as [Hevs _].
  rewrite GridDataFacts.grid_run_snoc.
  destruct (GridDataFacts.grid_step_renders windowFetch
              (UseGridData.run windowFetch UseGridData.initial evs) ev) as [->|[f ->]];
    [by apply IH|].
  apply Forall_app. split; [by apply IH|]. apply Forall_singleton. simpl.
  pose proof (grid_coherent_run windowFetch evs Hevs) as H.
  revert H. generalize (UseGridData.state (UseGridData.run windowFetch UseGridData.initial evs)).
  by intros [d l e].
Qed.

Lemma poll_renders_coherent {T} (windowFetch : FetchImpl T) evs :
  Forall (poll_no_null windowFetch) evs ->
  Forall (λ r, coherent UsePollingFetch.noError UsePollingFetch.errorFlag
                 {| data := UsePollingFetch.res_data r;
                    isLoading := UsePollingFetch.res_isLoading r;
                    error := UsePollingFetch.res_error r |})
    (UsePollingFetch.renders (UsePollingFetch.run windowFetch UsePollingFetch.initial evs)).
Proof.
  induction evs as [|ev evs IH] using rev_ind; [by constructor|].
  intros Hevs. apply Forall_app in Hevs as [Hevs _].
  rewrite PollingFacts.poll_run_snoc.
  destruct (PollingFacts.poll_step_renders windowFetch
              (UsePollingFetch.run windowFetch UsePollingFetch.initial evs) ev) as [->| ->];
    [by apply IH|].
  apply Forall_app. split; [by apply IH|]. apply Forall_singleton. simpl.
  pose proof (poll_coherent_run windowFetch evs Hevs) as H.
  revert H.
  generalize (UsePollingFetch.state
                (UsePollingFetch.run windowFetch UsePollingFetch.initial evs)).
  by intros [d l e].
Qed.

(** What a handler of [PollingDemo] answers never has the body [null]. *)
Lemma demo_event_no_null engine ev :
  PollingDemo.demo_event ev -> poll_no_null (appFetch engine) ev.
Proof.
  destruct ev as [url interval|i net|i|ms|handle|]; try done. simpl.
  intros [url Hnet]. destruct Hnet; by apply appFetch_no_null.
Qed.

Lemma shown_error_Some e m :
  ProductGridDemo.shown_error e = Some m -> e = Some m ∧ m ≠ "".
Proof.
  destruct e as [m'|]; [|done]. simpl.
  destruct (String.eqb m' "") eqn:Hm; [done|].
  intros [= ->]. split; [done|]. intros ->. done.
Qed.

Lemma shown_error_None e :
  ProductGridDemo.shown_error e = None -> e = None ∨ e = Some "".
Proof.
  destruct e as [m|]; [|by left]. simpl.
  destruct (String.eqb m "") eqn:Hm; [|done].
  apply String.eqb_eq in Hm as ->. by right.
Qed.

End ViewFacts.

(** X13.  [PollingDemo] on the [window.fetch] of the application,
    whatever has happened: the component renders the hook with one of its three
    endpoints, and its requests are answered by the handlers of the
    endpoints (a post, a user, or status 500 with a text that is not
    JSON).  In every render of the component exactly one of the three
    blocks under "Response Data" is on screen: the loading text, the error
    text, or the data. *)
Theorem polling_demo_shows_one_block
    (engine : Engine) (evs : list (UsePollingFetch.Event PollingDemo.Data)) :
  Forall PollingDemo.demo_event evs ->
  Forall (λ r, PollingDemo.blocks_shown (PollingDemo.dataContainer r) = 1%nat)
    (UsePollingFetch.renders
       (UsePollingFetch.run (appFetch engine) UsePollingFetch.initial evs)).
Proof.
  intros Hevs.
  eapply Forall_impl.
  { apply ViewFacts.poll_renders_coherent.
    eapply Forall_impl; [exact Hevs|]. apply ViewFacts.demo_event_no_null. }
  intros [d l e]. unfold Notions.coherent, PollingDemo.blocks_shown, PollingDemo.dataContainer.
  simpl. intros [[-> ->]|[-> [[err ->]|[v ->]]]]; simpl.
  - by destruct d.
  - done.
  - by destruct e.
Qed.

(** X13 (witness): the component shows [/api/posts], is switched to
    [/api/error] and back; the requests are answered in turn. *)
Lemma polling_demo_shows_one_block_witness :
  let post := {| PollingDemo.post_id := 7; PollingDemo.title := "Sample Post Title";
                 PollingDemo.post_body := "This is a sample post body with some content.";
                 PollingDemo.post_timestamp := "10:00:00" |} in
  let evs := [UsePollingFetch.Render "/api/posts" None;
              UsePollingFetch.FetchSettles 0
                (Fulfilled {| reply_status := 200; reply_body := Json (Some (inl post)) |});
              UsePollingFetch.JsonSettles 0;
              UsePollingFetch.Render "/api/error" None;
              UsePollingFetch.FetchSettles 1 reply_500;
              UsePollingFetch.Render "/api/error" None] in
  Forall PollingDemo.demo_event evs ∧
  Forall (λ r, PollingDemo.blocks_shown (PollingDemo.dataContainer r) = 1%nat)
    (UsePollingFetch.renders
       (UsePollingFetch.run (appFetch v8) UsePollingFetch.initial evs)).
Proof.
  intros post evs.
  assert (H : Forall PollingDemo.demo_event evs).
  { repeat constructor; simpl.
    - eexists. apply PollingDemo.answers_posts.
    - eexists. apply PollingDemo.answers_error. }
  split; [exact H|]. exact (polling_demo_shows_one_block v8 evs H).
Defined.

(** X14.  [ProductGridDemo] over [ProductGrid] over Unit A, whatever
    [window.fetch] is and whatever has happened: in every render in which
    the hook reports an error with a message that is not empty, example 1
    shows the error container with that message, example 2 the error
    banner, and example 3 the inline error in place of the grid, under a
    header that counts the items; the loading views never hide an error.
    "Try Again", "Reload" and "Refresh Data" all carry the function the
    first render made. *)
Theorem error_views_show_the_error
    (windowFetch : FetchImpl (list UseGridData.Product)) (evs : list UseGridData.Event)
    (r : UseGridData.UseGridDataResult) (m : string) :
  r ∈ UseGridData.renders (UseGridData.run windowFetch UseGridData.initial evs) ->
  ProductGridDemo.shown_error (UseGridData.res_error r) = Some m ->
  let st := UseGridData.ProductGrid r in
  ProductGridDemo.example1 st = ProductGridDemo.ErrorContainer m 0 ∧
  ProductGridDemo.example2 st = ProductGridDemo.ErrorBanner ("Error: " +:+ m) 0 ∧
  ProductGridDemo.example3 st =
    {| ProductGridDemo.customHeaderCount :=
         pretty (length (default [] (UseGridData.res_data r))) +:+ " items";
       ProductGridDemo.primaryButton := 0;
       ProductGridDemo.inlineError := Some ("Failed to load: " +:+ m);
       ProductGridDemo.compactGrid := None |}.
Proof.
  intros Hr Hm st.
  pose proof (ViewFacts.grid_renders_loading windowFetch evs) as Hco.
  rewrite Forall_forall in Hco. specialize (Hco r Hr).
  pose proof (GridDataFacts.callback_stable_run windowFetch UseGridData.initial evs) as [Hcb _].
  { split; [by constructor|done]. }
  rewrite Forall_forall in Hcb. specialize (Hcb r Hr).
  destruct (ViewFacts.shown_error_Some _ _ Hm) as [He _].
  assert (Hl : UseGridData.res_isLoading r = false).
  { destruct (UseGridData.res_isLoading r); [|done].
    rewrite He in Hco. by specialize (Hco eq_refl). }
  unfold ProductGridDemo.example1, ProductGridDemo.example2, ProductGridDemo.example3.
  unfold st. simpl. rewrite Hl, Hcb. simpl.
  rewrite He in *. rewrite Hm. done.
Qed.

(** X14 (witness): the request of the first render fails; the second
    render shows the error container. *)
Lemma error_views_show_the_error_witness :
  ProductGridDemo.example1
    (UseGridData.ProductGrid
       {| UseGridData.res_data := None; UseGridData.res_isLoading := false;
          UseGridData.res_error := Some "HTTP error! status: 500";
          UseGridData.res_refetchData := 0 |}) =
    ProductGridDemo.ErrorContainer "HTTP error! status: 500" 0.
Proof.
  exact (proj1 (error_views_show_the_error browserFetch
                  [UseGridData.Render "/api/products/widgets";
                   UseGridData.FetchSettles 0 reply_500;
                   UseGridData.Render "/api/products/widgets"]
                  {| UseGridData.res_data := None; UseGridData.res_isLoading := false;
                     UseGridData.res_error := Some "HTTP error! status: 500";
                     UseGridData.res_refetchData := 0 |}
                  "HTTP error! status: 500"
                  ltac:(vm_compute; repeat constructor) eq_refl)).
Defined.

(** X15.  [ProductGridDemo] over [ProductGrid] over Unit A, whatever
    [window.fetch] is and whatever has happened, as long as no request has
    been answered with the body [null]: in every render, when one of the
    three examples shows its empty state ("No products available", "No
    gadgets found", "No featured products"), the hook holds an empty list
    that a response delivered, or it holds an error whose message is the
    empty string, which the examples take for no error.  The empty state
    is never shown for the [null] of a hook that is still waiting for its
    first answer. *)
Theorem empty_state_needs_an_answer
    (windowFetch : FetchImpl (list UseGridData.Product)) (evs : list UseGridData.Event)
    (r : UseGridData.UseGridDataResult) :
  Forall (Notions.grid_no_null windowFetch) evs ->
  r ∈ UseGridData.renders (UseGridData.run windowFetch UseGridData.initial evs) ->
  let st := UseGridData.ProductGrid r in
  (∃ cards, ProductGridDemo.example1 st = ProductGridDemo.GridLayout cards true) ∨
  (∃ items, ProductGridDemo.example2 st = ProductGridDemo.ListContainer items true) ∨
  (∃ items, ProductGridDemo.compactGrid (ProductGridDemo.example3 st) = Some (items, true)) ->
  UseGridData.res_isLoading r = false ∧
  (UseGridData.res_data r = Some [] ∨ UseGridData.res_error r = Some "").
Proof.
  intros Hevs Hr st Hempty.
  pose proof (ViewFacts.grid_renders_coherent windowFetch evs Hevs) as Hco.
  rewrite Forall_forall in Hco. specialize (Hco r Hr).
  destruct r as [d l e f]. unfold st in Hempty. clear st Hr.
  unfold ProductGridDemo.example1, ProductGridDemo.example2, ProductGridDemo.example3,
    UseGridData.ProductGrid in Hempty.
  simpl in *.
  assert (Hcase : l = false ∧ ProductGridDemo.shown_error e = None ∧
                  length (default [] d) = 0%nat).
  { destruct l; simpl in *.
    - destruct (length (default [] d) =? 0)%nat eqn:Hn; simpl in *.
      + destruct Hempty as [[? H]|[[? H]|[? H]]]; try done.
        destruct (ProductGridDemo.shown_error e); [done|]. congruence.
      + destruct (ProductGridDemo.shown_error e);
          destruct Hempty as [[? H]|[[? H]|[? H]]]; done.
    - destruct (ProductGridDemo.shown_error e);
        [destruct Hempty as [[? H]|[[? H]|[? H]]]; done|].
      split_and!; try done.
      destruct (length (default [] d) =? 0)%nat eqn:Hn; [by apply Nat.eqb_eq|].
      destruct Hempty as [[? H]|[[? H]|[? H]]]; done. }
  destruct Hcase as (-> & He & Hn). split; [done|].
  destruct (ViewFacts.shown_error_None _ He) as [->| ->]; [|by right].
  left. destruct Hco as [[? _]|[_ [[err Herr]|[v Hv]]]]; simpl in *; try done.
  subst d. simpl in Hn. by apply nil_length_inv in Hn as ->.
Qed.

(** X15 (witness): the endpoint answers with an empty list; the next
    render shows "No products available". *)
Lemma empty_state_needs_an_answer_witness :
  UseGridData.res_data
    {| UseGridData.res_data := Some []; UseGridData.res_isLoading := false;
       UseGridData.res_error := None; UseGridData.res_refetchData := 0 |} = Some [] ∨
  UseGridData.res_error
    {| UseGridData.res_data := Some []; UseGridData.res_isLoading := false;
       UseGridData.res_error := None; UseGridData.res_refetchData := 0 |} = Some "".
Proof.
  exact (proj2 (empty_state_needs_an_answer browserFetch
                  [UseGridData.Render "/api/products/widgets";
                   UseGridData.FetchSettles 0 (reply_ok []);
                   UseGridData.JsonSettles 0;
                   UseGridData.Render "/api/products/widgets"]
                  {| UseGridData.res_data := Some []; UseGridData.res_isLoading := false;
                     UseGridData.res_error := None; UseGridData.res_refetchData := 0 |}
                  ltac:(repeat constructor; simpl;
                        by apply StateFacts.browserFetch_no_null)
                  ltac:(vm_compute; repeat constructor)
                  (or_introl (ex_intro _ [] eq_refl)))).
Defined.

(** ** Unit B after the unmount *)

Module PollingUnmountFacts.

Import Notions UsePollingFetch PollingFacts.

Section WithData.
Context {T : Type}.

Implicit Types (s : Instance T) (ev : Event T) (evs : list (Event T)).
Implicit Types (windowFetch : FetchImpl T).

Lemma poll_unmounted_step windowFetch s ev :
  well_formed s -> lifecycle (rt s) = Unmounted ->
  let s' := step windowFetch s ev in
  lifecycle (rt s') = Unmounted ∧
  length (attempts (rt s')) = length (attempts (rt s)) ∧
  controllers (rt s') = controllers (rt s) ∧
  state s' = state s ∧ timers s' = timers s.
Proof.
  intros Hwf Hlc. unfold state.
  assert (effect s = None) as He.
  { destruct Hwf as (_ & _ & Heff). destruct (effect s); [|done].
    destruct Heff as [? _]. congruence. }
  destruct ev as [url interval|i net|i|ms|handle|]; simpl.
  - by destruct (decide (lifecycle (rt s) = Unmounted)).
  - rewrite fetch_settles_lifecycle, fetch_settles_length, fetch_settles_controllers.
    split_and!; try done.
    destruct (fetch_settles_cases errorFlag windowFetch i net (rt s))
      as [->|(?&?&?&?&_&_&->)]; [done|].
    simpl. rewrite commit_hook, Hlc. done.
  - rewrite json_settles_lifecycle, json_settles_length, json_settles_controllers.
    split_and!; try done.
    destruct (json_settles_cases errorFlag i (rt s))
      as [->|(?&?&?&?&?&_&_&->)]; [done|].
    simpl. rewrite commit_hook, Hlc. done.
  - done.
  - destruct (tick_cases windowFetch handle s Hwf) as [->|(e&?&?&He'&_)];
      [done|congruence].
  - destruct (decide (lifecycle (rt s) = Mounted)); [congruence|done].
Qed.

Lemma poll_unmounted_run windowFetch evs s :
  well_formed s -> lifecycle (rt s) = Unmounted ->
  let s' := run windowFetch s evs in
  length (attempts (rt s')) = length (attempts (rt s)) ∧
  controllers (rt s') = controllers (rt s) ∧
  state s' = state s ∧ timers s' = timers s.
Proof.
  revert s. induction evs as [|ev evs IH]; intros s Hwf Hlc; [done|].
  rewrite poll_run_cons.
  destruct (poll_unmounted_step windowFetch s ev Hwf Hlc) as (Hlc' & Hn & Hc & Hst & Hts).
  destruct (IH (step windowFetch s ev)) as (Hn' & Hc' & Hst' & Hts');
    [by apply poll_well_formed_step|done|].
  split_and!; congruence.
Qed.

End WithData.

End PollingUnmountFacts.

(** X16.  Unit B, whatever [window.fetch] is: once the component is
    unmounted, every controller it made is aborted and every timer it set
    is cleared, and whatever happens afterwards (the clock, late
    settlements) starts no attempt, changes no cell and leaves controllers
    and timers as they are. *)
Theorem polling_stops_at_unmount
    (T : Type) (windowFetch : FetchImpl T) (evs evs' : list (UsePollingFetch.Event T)) :
  let s := UsePollingFetch.run windowFetch UsePollingFetch.initial evs in
  lifecycle (UsePollingFetch.rt s) = Unmounted ->
  let s' := UsePollingFetch.run windowFetch s evs' in
  Forall (λ b, b = true) (controllers (UsePollingFetch.rt s)) ∧
  Notions.live_timers (UsePollingFetch.timers s) = [] ∧
  controllers (UsePollingFetch.rt s') = controllers (UsePollingFetch.rt s) ∧
  UsePollingFetch.timers s' = UsePollingFetch.timers s ∧
  length (attempts (UsePollingFetch.rt s')) = length (attempts (UsePollingFetch.rt s)) ∧
  UsePollingFetch.state s' = UsePollingFetch.state s.
Proof.
  intros s Hlc s'.
  assert (Hwf : UsePollingFetch.well_formed s)
    by apply PollingMoreFacts.poll_reachable_well_formed.
  destruct (PollingUnmountFacts.poll_unmounted_run windowFetch evs' s Hwf Hlc)
    as (Hn & Hc & Hst & Hts).
  split_and!; try done.
  - destruct Hwf as (_ & _ & Heff).
    destruct (UsePollingFetch.effect s) as [e|].
    { destruct Heff as [? _]. congruence. }
    destruct Heff as (_ & Hall & _). apply Forall_lookup. intros j b Hj.
    rewrite Hall in Hj; [by injection Hj|]. by eapply lookup_lt_Some.
  - pose proof (PollingMoreFacts.live_timers_spec s Hwf) as Hlive.
    destruct (UsePollingFetch.effect s) as [e|] eqn:He; [|done].
    destruct Hwf as (_ & _ & Heff). rewrite He in Heff. destruct Heff as [? _]. congruence.
Qed.

(** X16 (witness): polling every 3000 ms, unmounted after 4000 ms; ten
    more seconds pass, the browser is asked to run the timer, and the
    first request is answered. *)
Lemma polling_stops_at_unmount_witness :
  length (attempts (UsePollingFetch.rt
    (UsePollingFetch.run (T:=string) (appFetch v8)
       (UsePollingFetch.run (appFetch v8) UsePollingFetch.initial
          [UsePollingFetch.Render "/api/posts" (Some (whole 3000));
           UsePollingFetch.Elapse 3000; UsePollingFetch.Tick 1;
           UsePollingFetch.Elapse 1000; UsePollingFetch.Unmount])
       [UsePollingFetch.Elapse 10000; UsePollingFetch.Tick 1;
        UsePollingFetch.FetchSettles 0 (reply_ok "posts"); UsePollingFetch.JsonSettles 0]))) =
  length (attempts (UsePollingFetch.rt
    (UsePollingFetch.run (T:=string) (appFetch v8) UsePollingFetch.initial
       [UsePollingFetch.Render "/api/posts" (Some (whole 3000));
        UsePollingFetch.Elapse 3000; UsePollingFetch.Tick 1;
        UsePollingFetch.Elapse 1000; UsePollingFetch.Unmount]))).
Proof.
  exact (proj1 (proj2 (proj2 (proj2 (proj2
           (polling_stops_at_unmount string (appFetch v8)
              [UsePollingFetch.Render "/api/posts" (Some (whole 3000));
               UsePollingFetch.Elapse 3000; UsePollingFetch.Tick 1;
               UsePollingFetch.Elapse 1000; UsePollingFetch.Unmount]
              [UsePollingFetch.Elapse 10000; UsePollingFetch.Tick 1;
               UsePollingFetch.FetchSettles 0 (reply_ok "posts");
               UsePollingFetch.JsonSettles 0]
              eq_refl)))))).
Defined.
(** ** Cancellation *)

(** X17.  Unit B, whatever [window.fetch] is and whatever has happened to
    the instance: the controller of an attempt is aborted exactly when it
    is not the controller of the current effect; when there is no effect
    (before the mount, after the unmount) every controller is aborted. *)
Theorem attempt_cancelled_iff_not_current
    (T : Type) (windowFetch : FetchImpl T) (evs : list (UsePollingFetch.Event T))
    (j : nat) (a : Pending T) :
  let s := UsePollingFetch.run windowFetch UsePollingFetch.initial evs in
  attempts (UsePollingFetch.rt s) !! j = Some a ->
  aborted (controllers (UsePollingFetch.rt s)) (Some (att_controller a)) =
    match UsePollingFetch.effect s with
    | Some e => negb (bool_decide (att_controller a = UsePollingFetch.abortController e))
    | None => true
    end.
Proof.
  intros s. apply PollingFacts.cancelled_iff_superseded.
  apply PollingFacts.poll_well_formed_run, PollingFacts.poll_well_formed_initial.
Qed.

(** X17 (witness): the URL changes while the first request is pending; the
    controller of the first attempt is aborted. *)
Lemma attempt_cancelled_iff_not_current_witness :
  aborted
    (controllers (UsePollingFetch.rt
       (UsePollingFetch.run (T:=string) browserFetch UsePollingFetch.initial
          [UsePollingFetch.Render "/api/posts" None;
           UsePollingFetch.Render "/api/users" None])))
    (Some 0%nat) = true.
Proof.
  exact (attempt_cancelled_iff_not_current string browserFetch
           [UsePollingFetch.Render "/api/posts" None;
            UsePollingFetch.Render "/api/users" None]
           0%nat {| att_url := "/api/posts"; att_controller := 0;
                    att_phase := AwaitingFetch |} eq_refl).
Defined.

(** X18.  In either hook and whatever [window.fetch] is: when the promise
    an attempt awaits ([fetch] or [response.json()]) is rejected with an
    [AbortError], the attempt returns and nothing else changes: [data],
    [isLoading], [error] and the console are what they were, and no
    rejection is left unhandled.  The browser's [fetch] rejects with an
    [AbortError] every request whose signal is aborted, and so does the
    reading of a body tied to an aborted signal. *)
Theorem abort_error_is_swallowed :
  (∀ (windowFetch : FetchImpl (list UseGridData.Product)) s i net url c err,
     attempts (UseGridData.rt s) !! i =
       Some {| att_url := url; att_controller := c; att_phase := AwaitingFetch |} ->
     windowFetch (controllers (UseGridData.rt s)) url (Some c) net = Rejected err ->
     isAbortError err = true ->
     UseGridData.rt (UseGridData.step windowFetch s (UseGridData.FetchSettles i net)) =
       set_attempts (<[i := {| att_url := url; att_controller := c; att_phase := Returned |}]>
                       (attempts (UseGridData.rt s))) (UseGridData.rt s)) ∧
  (∀ (windowFetch : FetchImpl (list UseGridData.Product)) s i url c r err,
     attempts (UseGridData.rt s) !! i =
       Some {| att_url := url; att_controller := c; att_phase := AwaitingJson r |} ->
     json (controllers (UseGridData.rt s)) r = Rejected err ->
     isAbortError err = true ->
     UseGridData.rt (UseGridData.step windowFetch s (UseGridData.JsonSettles i)) =
       set_attempts (<[i := {| att_url := url; att_controller := c; att_phase := Returned |}]>
                       (attempts (UseGridData.rt s))) (UseGridData.rt s)) ∧
  (∀ T (windowFetch : FetchImpl T) (s : UsePollingFetch.Instance T) i net url c err,
     attempts (UsePollingFetch.rt s) !! i =
       Some {| att_url := url; att_controller := c; att_phase := AwaitingFetch |} ->
     windowFetch (controllers (UsePollingFetch.rt s)) url (Some c) net = Rejected err ->
     isAbortError err = true ->
     UsePollingFetch.rt (UsePollingFetch.step windowFetch s (UsePollingFetch.FetchSettles i net)) =
       set_attempts (<[i := {| att_url := url; att_controller := c; att_phase := Returned |}]>
                       (attempts (UsePollingFetch.rt s))) (UsePollingFetch.rt s)) ∧
  (∀ T (windowFetch : FetchImpl T) (s : UsePollingFetch.Instance T) i url c r err,
     attempts (UsePollingFetch.rt s) !! i =
       Some {| att_url := url; att_controller := c; att_phase := AwaitingJson r |} ->
     json (controllers (UsePollingFetch.rt s)) r = Rejected err ->
     isAbortError err = true ->
     UsePollingFetch.rt (UsePollingFetch.step windowFetch s (UsePollingFetch.JsonSettles i)) =
       set_attempts (<[i := {| att_url := url; att_controller := c; att_phase := Returned |}]>
                       (attempts (UsePollingFetch.rt s))) (UsePollingFetch.rt s)) ∧
  (∀ T cs url c (net : Settled (Reply T)),
     aborted cs (Some c) = true -> browserFetch cs url (Some c) net = Rejected AbortError) ∧
  (∀ T cs (r : Response T), aborted cs (signal r) = true -> json cs r = Rejected AbortError) ∧
  isAbortError AbortError = true.
Proof.
  split_and!.
  - intros windowFetch s i net url c err Hi Hp Ha. simpl. by eapply fetch_settles_abort.
  - intros windowFetch s i url c r err Hi Hp Ha. simpl. by eapply json_settles_abort.
  - intros T windowFetch s i net url c err Hi Hp Ha. simpl. by eapply fetch_settles_abort.
  - intros T windowFetch s i url c r err Hi Hp Ha. simpl. by eapply json_settles_abort.
  - intros T cs url c net. apply browserFetch_aborted.
  - intros T cs r. apply json_aborted.
  - reflexivity.
Qed.

(** X18 (witness): Unit A on the browser's [fetch]; the key changes from
    [/a] to [/b] while the first request is pending, and the first request
    then settles.  Unit B likewise, unmounted while its request is
    pending. *)
Lemma abort_error_is_swallowed_witness :
  UseGridData.state
    (UseGridData.run browserFetch UseGridData.initial
       [UseGridData.Render "/a"; UseGridData.Render "/b";
        UseGridData.FetchSettles 0 (reply_ok products1)]) =
    {| data := None; isLoading := true; error := None |} ∧
  world (UsePollingFetch.rt
    (UsePollingFetch.run (T:=string) browserFetch UsePollingFetch.initial
       [UsePollingFetch.Render "/a" (Some (whole 5000)); UsePollingFetch.Unmount;
        UsePollingFetch.FetchSettles 0 reply_500])) =
    {| hook := {| data := None; isLoading := true; error := false |}; console := [] |}.
Proof.
  split.
  - exact (f_equal (λ r, hook (world r))
             (proj1 abort_error_is_swallowed browserFetch
                (UseGridData.run browserFetch UseGridData.initial
                   [UseGridData.Render "/a"; UseGridData.Render "/b"])
                0%nat (reply_ok products1) "/a" 0%nat AbortError eq_refl eq_refl eq_refl)).
  - exact (f_equal world
             (proj1 (proj2 (proj2 abort_error_is_swallowed)) string browserFetch
                (UsePollingFetch.run browserFetch UsePollingFetch.initial
                   [UsePollingFetch.Render "/a" (Some (whole 5000)); UsePollingFetch.Unmount])
                0%nat reply_500 "/a" 0%nat AbortError eq_refl eq_refl eq_refl)).
Defined.

(** ** Keys the tables of mock endpoints inherit *)

(** X19.  On the [window.fetch] of the application, a key that names a
    property every object inherits is taken for a mock endpoint
    ([url in mockApiEndpoints] holds), and the inherited property is called
    in place of a handler, whatever the network would have answered.  For
    [toString] the hook gets a string where it expects a response and ends
    with the error "HTTP error! status: undefined".  For
    [__lookupGetter__] it gets [undefined], and the reading of [ok] throws
    the engine's [TypeError].  For [__proto__] the call itself throws: the
    attempt has returned within the render, with the engine's message in
    [error].  In each case [isLoading] is [false], [data] is untouched and
    nothing is left unhandled. *)
Theorem inherited_keys_end_in_error
    (engine : Engine) (net : Settled (Reply (list UseGridData.Product))) :
  let after key evs :=
    UseGridData.run (appFetch engine) UseGridData.initial (UseGridData.Render key :: evs) in
  UseGridData.state (after "toString" [UseGridData.FetchSettles 0 net]) =
    {| data := None; isLoading := false; error := Some "HTTP error! status: undefined" |} ∧
  UseGridData.state (after "__lookupGetter__" [UseGridData.FetchSettles 0 net]) =
    {| data := None; isLoading := false; error := Some (read_message engine) |} ∧
  UseGridData.state (after "__proto__" []) =
    {| data := None; isLoading := false; error := Some (call_message engine "__proto__") |} ∧
  attempts (UseGridData.rt (after "__proto__" [])) =
    [{| att_url := "__proto__"; att_controller := 0; att_phase := Returned |}] ∧
  unhandled (UseGridData.rt (after "toString" [UseGridData.FetchSettles 0 net])) = [] ∧
  unhandled (UseGridData.rt (after "__lookupGetter__" [UseGridData.FetchSettles 0 net])) = [] ∧
  unhandled (UseGridData.rt (after "__proto__" [])) = [].
Proof. vm_compute. split_and!; reflexivity. Qed.
